(** * Calculation engine: a shallow embedding of the pricing pipeline

  The development follows the JavaScript sources of the calculation
  engine: the precision policy, the pure calculation engine, the
  archived compliant engine, the result checksum, the safe rule
  evaluator, the post-processor, the event outbox and the webhook
  trigger.

  Conventions of the embedding.
  - A finite [decimal.js] value is a rational ([Q]).  Both engines set
    the library to 40 significant digits, so [plus], [minus], [times]
    and [div] round their exact result to 40 significant digits
    ([Dec.round_sd]); [new Decimal], [toDecimalPlaces], [toFixed] and
    the comparisons do not round to that precision.
  - [ROUND_HALF_UP] of decimal.js rounds to the nearest neighbour and,
    when equidistant, away from zero.
  - A thrown exception is the [Err] branch of [outcome]. *)

From stdpp Require Import gmap strings list.
From Stdlib Require Import QArith Qround Qabs Qpower Lia Lqa ZArith Ascii Sorted.
From Stdlib Require DecimalString.

Set Warnings "-register-all".

Local Open Scope Z_scope.
Local Open Scope Q_scope.

(** ** Exceptions *)

Inductive error :=
| InvalidInput (msg : string)
| ResourceLimit (msg : string)
| InvalidMarginError
| MissingCost (modifier_id : string)
| RuleDepthExceeded
| RuleOperationsExceeded
| InvalidRuleType
| InvalidOperator
| DatabaseError
| DecimalError.

Inductive outcome (A : Type) :=
| Ok (a : A)
| Err (e : error).
Arguments Ok {A} a.
Arguments Err {A} e.

Definition obind {A B} (m : outcome A) (f : A -> outcome B) : outcome B :=
  match m with
  | Ok a => f a
  | Err e => Err e
  end.

Notation "'do!' x <- m ; k" := (obind m (fun x => k))
  (at level 10, x name, m at level 100, k at level 200).

(** ** decimal.js *)

Module Dec.

Definition pow10 (dp : nat) : Z := (10 ^ Z.of_nat dp)%Z.

(** Nearest integer, ties away from zero. *)
Definition round_half_up (x : Q) : Z :=
  if Qle_bool 0 x then Qfloor (x + (1 # 2))
  else (- Qfloor (- x + (1 # 2)))%Z.

(** [units dp x] is the number of [10^-dp] steps in [x] rounded to [dp]
    places; [of_units dp k] is the decimal with that many steps. *)
Definition units (dp : nat) (x : Q) : Z :=
  round_half_up (x * inject_Z (pow10 dp)).

Definition of_units (dp : nat) (k : Z) : Q :=
  inject_Z k / inject_Z (pow10 dp).

(** [x.toDecimalPlaces(dp, ROUND_HALF_UP)] *)
Definition toDecimalPlaces (dp : nat) (x : Q) : Q :=
  of_units dp (units dp x).

Definition str_of_N (n : N) : string :=
  DecimalString.NilZero.string_of_uint (N.to_uint n).

Fixpoint zeros (n : nat) : string :=
  match n with
  | O => EmptyString
  | S n' => "0" +:+ zeros n'
  end.

Definition pad_left (width : nat) (s : string) : string :=
  zeros (width - String.length s) +:+ s.

(** [x.toFixed(dp)]: the sign is taken from the value before rounding,
    the digits from the rounded magnitude. *)
Definition toFixed (dp : nat) (x : Q) : string :=
  let m := Z.abs (units dp x) in
  let int_part := str_of_N (Z.to_N (m / pow10 dp)) in
  let frac_part := pad_left dp (str_of_N (Z.to_N (m mod pow10 dp))) in
  (if Qle_bool 0 x then EmptyString else "-") +:+ int_part +:+
  (match dp with O => EmptyString | _ => "." +:+ frac_part end).

(** [Decimal.set({ precision: 40, rounding: Decimal.ROUND_HALF_UP })] *)
Definition precision : Z := 40.

(** The decimal exponent of a magnitude: [exp_up] counts the divisions
    by ten that keep [a] at or above 1, [exp_down] the multiplications
    by ten that bring [a] up to 1. *)
Fixpoint exp_up (fuel : nat) (a : Q) : nat :=
  match fuel with
  | O => O
  | S fuel' => if Qle_bool 10 a then S (exp_up fuel' (a / 10)) else O
  end.

Fixpoint exp_down (fuel : nat) (a : Q) : nat :=
  match fuel with
  | O => O
  | S fuel' => if Qle_bool 1 a then O else S (exp_down fuel' (a * 10))
  end.

(** [x.e], the exponent of the leading digit of a non-zero [x].  The
    fuel is more than the number of decimal digits of the numerator and
    of the denominator (Lemma [exponent_spec]). *)
Definition exponent (x : Q) : Z :=
  let a := Qabs x in
  let fuel := S (Z.to_nat (Z.log2 (Z.abs (Qnum x)) + Z.log2 (Zpos (Qden x)))) in
  if Qle_bool 1 a then Z.of_nat (exp_up fuel a)
  else (- Z.of_nat (exp_down fuel a))%Z.

(** [x * 10^s] for an integer [s]. *)
Definition scale_by (s : Z) (x : Q) : Q := x * 10 ^ s.

(** The rounding that [plus], [minus], [times] and [div] apply to their
    exact result: to [precision] significant digits, ties away from
    zero. *)
Definition round_sd (x : Q) : Q :=
  if Qeq_bool x 0 then 0
  else
    let s := (precision - 1 - exponent x)%Z in
    scale_by (- s) (inject_Z (round_half_up (scale_by s x))).

Definition plus (x y : Q) : Q := round_sd (x + y).
Definition minus (x y : Q) : Q := round_sd (x - y).
Definition times (x y : Q) : Q := round_sd (x * y).
(** The divisors of the pure engine are never zero. *)
Definition div (x y : Q) : Q := round_sd (x / y).

Definition isZero (x : Q) : bool := Qeq_bool x 0.
Definition lt (x y : Q) : bool := negb (Qle_bool y x).
Definition gte (x y : Q) : bool := Qle_bool y x.
Definition greaterThan (x y : Q) : bool := negb (Qle_bool x y).

(** [on_grid dp x]: [x] has at most [dp] fractional digits. *)
Definition on_grid (dp : nat) (x : Q) : Prop :=
  exists k : Z, x == of_units dp k.

End Dec.

(** ** PrecisionPolicy.js *)

Module PrecisionPolicy.

Definition INTERMEDIATE_SCALE : nat := 7.
Definition FINAL_SCALE : nat := 2.

Definition intermediate (value : Q) : Q :=
  Dec.toDecimalPlaces INTERMEDIATE_SCALE value.

Definition final (value : Q) : Q :=
  Dec.toDecimalPlaces FINAL_SCALE value.

Definition intermediateString (value : Q) : string :=
  Dec.toFixed INTERMEDIATE_SCALE (intermediate value).

Definition finalString (value : Q) : string :=
  Dec.toFixed FINAL_SCALE (final value).

End PrecisionPolicy.

Definition Q7 := PrecisionPolicy.intermediate.
Definition Q2 := PrecisionPolicy.final.


(** ** JavaScript values *)

(** A field read as a number: [undefined] is [Absent] and [null] is
    [Null]; a number carries the decimal that its text denotes; a
    non-empty numeric string carries the value it denotes.  The empty
    string and the strings that denote no number are not values of the
    model. *)
Inductive jsnum :=
| Absent
| Null
| Num (q : Q)
| Str (q : Q).

(** Truthiness, as the [||] chains of the source see it: the number [0]
    is falsy, the string ["0.00"] is not. *)
Definition truthy (v : jsnum) : bool :=
  match v with
  | Absent => false
  | Null => false
  | Num q => negb (Qeq_bool q 0)
  | Str _ => true
  end.

(** [a || b] *)
Definition or_else (a b : jsnum) : jsnum := if truthy a then a else b.

(** [new Decimal(v)] behind an [||] chain that ends in a literal, so
    that [v] is present; the value given for [Absent] is the one of
    [Number(v) || 0]. *)
Definition decimal (v : jsnum) : Q :=
  match v with
  | Absent => 0
  | Null => 0
  | Num q => q
  | Str q => q
  end.

(** [new Decimal(v)], and [v] as the argument of an arithmetic method,
    for a field read as it is: [undefined] and [null] throw a
    [DecimalError]. *)
Definition toDecimal (v : jsnum) : outcome Q :=
  match v with
  | Absent => Err DecimalError
  | Null => Err DecimalError
  | Num q => Ok q
  | Str q => Ok q
  end.

(** [Number(v) || 0] *)
Definition number_or_zero (v : jsnum) : Q := decimal v.

(** [Math.max(0, q)] *)
Definition math_max0 (q : Q) : Q := if Qle_bool 0 q then q else 0.

(** A field read as text; [None] is [undefined] or [null]. *)
Abbreviation txt := (option string).

Definition txt_truthy (a : txt) : bool :=
  match a with
  | Some s => negb (String.eqb s EmptyString)
  | None => false
  end.

(** [a || b] on text fields *)
Definition txt_or (a b : txt) : txt := if txt_truthy a then a else b.

(** [a || 'literal'] *)
Definition txt_default (a : txt) (d : string) : string :=
  match txt_or a (Some d) with
  | Some s => s
  | None => d
  end.

(** [a === 'literal'] *)
Definition txt_is (a : txt) (s : string) : bool :=
  match a with
  | Some x => String.eqb x s
  | None => false
  end.

Definition upper_ascii (c : ascii) : ascii :=
  let n := nat_of_ascii c in
  if (97 <=? n)%nat && (n <=? 122)%nat then ascii_of_nat (n - 32) else c.

Definition lower_ascii (c : ascii) : ascii :=
  let n := nat_of_ascii c in
  if (65 <=? n)%nat && (n <=? 90)%nat then ascii_of_nat (n + 32) else c.

Fixpoint map_string (f : ascii -> ascii) (s : string) : string :=
  match s with
  | EmptyString => EmptyString
  | String c r => String (f c) (map_string f r)
  end.

Definition toUpperCase : string -> string := map_string upper_ascii.
Definition toLowerCase : string -> string := map_string lower_ascii.

(** [Array.prototype.sort] with a comparator that returns a negative
    number exactly when [lt a b]: a stable insertion sort.  An element
    goes behind those that come before it and ahead of those it ties
    with that followed it in the input, so tied elements keep their
    order, as they do in the host. *)
Fixpoint insert_sorted {A} (lt : A -> A -> bool) (x : A) (l : list A) : list A :=
  match l with
  | [] => [x]
  | y :: r => if lt y x then y :: insert_sorted lt x r else x :: y :: r
  end.

Definition sort_by {A} (lt : A -> A -> bool) (l : list A) : list A :=
  fold_right (fun x acc => insert_sorted lt x acc) [] l.

(** ** JSON *)

(** A number is kept as the text [String(n)] gives for it. *)
Inductive json :=
| JUndefined
| JNull
| JBool (b : bool)
| JNumber (rendered : string)
| JString (s : string)
| JArray (items : list json)
| JObject (props : list (string * json)).

Module JSON.

Definition hex_digit (n : nat) : ascii :=
  ascii_of_nat (if (n <? 10)%nat then 48 + n else 87 + n).

(** QuoteJSONString on one character. *)
Definition escape_char (c : ascii) : string :=
  let n := nat_of_ascii c in
  if (n =? 34)%nat then String "\" (String c EmptyString)
  else if (n =? 92)%nat then "\\"
  else if (n =? 8)%nat then "\b"
  else if (n =? 9)%nat then "\t"
  else if (n =? 10)%nat then "\n"
  else if (n =? 12)%nat then "\f"
  else if (n =? 13)%nat then "\r"
  else if (n <? 32)%nat then
    "\u00" +:+ String (hex_digit (n / 16)) (String (hex_digit (n mod 16)) EmptyString)
  else String c EmptyString.

Fixpoint escape (s : string) : string :=
  match s with
  | EmptyString => EmptyString
  | String c r => escape_char c +:+ escape r
  end.

Definition dquote : string := String (ascii_of_nat 34) EmptyString.

Definition quote (s : string) : string := dquote +:+ escape s +:+ dquote.

Definition is_undefined (v : json) : bool :=
  match v with
  | JUndefined => true
  | _ => false
  end.

Definition join (sep : string) (l : list string) : string := String.concat sep l.

(** [JSON.stringify(value, allow)]: with [allow = None] every own property
    of an object is written, in the object's own order; with
    [allow = Some keys] (an array replacer) an object at any depth writes
    only the listed keys it has, in the order of the list.  Properties
    whose value is [undefined] are left out; an [undefined] array item is
    written as [null]. *)
Fixpoint stringify (allow : option (list string)) (v : json) : string :=
  match v with
  | JUndefined => "null"
  | JNull => "null"
  | JBool true => "true"
  | JBool false => "false"
  | JNumber r => r
  | JString s => quote s
  | JArray items => "[" +:+ join "," (List.map (stringify allow) items) +:+ "]"
  | JObject props =>
      let rendered :=
        List.map (fun kv => match kv with
                            | (k, x) => (k, (is_undefined x, stringify allow x))
                            end) props in
      let own := List.filter (fun kv => negb (fst (snd kv))) rendered in
      let chosen :=
        match allow with
        | None => own
        | Some keys =>
            List.flat_map
              (fun k => match List.find (fun kv => String.eqb (fst kv) k) own with
                        | Some kv => [kv]
                        | None => []
                        end) keys
        end in
      let member kv := quote (fst kv) +:+ ":" +:+ snd (snd kv) in
      "{" +:+ join "," (List.map member chosen) +:+ "}"
  end.

(** [Object.keys(obj)] *)
Definition keys (props : list (string * json)) : list string := List.map fst props.

(** [keys.sort()]: by code units. *)
Definition sort_keys (ks : list string) : list string := sort_by String.ltb ks.

End JSON.

(** ** Host functions

    What the sources take from the JavaScript runtime and from Node's
    [crypto] module: the SHA-256 digest in hexadecimal, [String(n)] on a
    number, [String.prototype.localeCompare], and the subtraction
    [a - b] of two numbers (of double precision), given and returned as
    the decimals that their texts denote. *)

Record Host := {
  sha256 : string -> string;
  number_toString : Q -> string;
  localeCompare : string -> string -> comparison;
  number_minus : Q -> Q -> Q
}.

(** ** PureCalculationEngine.js *)

Module PureCalculationEngine.

(** Line items as the caller sends them.  [useTaxEligible] and
    [vendorTaxCollected] are the spellings of the specification's
    samples; no function of the engine reads them. *)
Module Raw.
Record LineItem := {
  line_item_id : txt;
  id : txt;
  unit_price : jsnum;
  unitPrice : jsnum;
  price : jsnum;
  quantity : jsnum;
  cost : jsnum;
  tax_setting : txt;
  taxSetting : txt;
  use_tax_eligible : bool;
  useTaxEligible : bool;
  vendorTaxCollected : bool
}.
End Raw.

Module Mod.
Record t := {
  id : string;
  value : jsnum;
  percent : jsnum;
  fixed_amount : jsnum;
  chain_priority : jsnum;
  application_type : txt;
  modifier_type : txt;
  tax_setting : txt;
  line_item_id : txt;
  category : txt;
  affects_quantity : bool;
  cost_percentage : jsnum;
  display_mode : txt;
  product_id : txt
}.
End Mod.

Module Dep.
Record t := {
  modifier_id : string;
  depends_on : string;
  type : string
}.
End Dep.

Record Jurisdiction := {
  order : jsnum;
  code : string;
  rate : jsnum
}.

Record Config := {
  schemaVersion : txt;
  tax_rate : jsnum;
  use_tax_rate : jsnum;
  tax_mode : txt;
  jurisdictions : list Jurisdiction
}.

(** Line items after [normalizeInput]. *)
Record LineItem := {
  id : txt;
  unitPrice : Q;
  quantity : Q;
  cost : Q;
  taxSetting : string;
  use_tax_eligible : bool
}.

Module Attr.
Record t := {
  tax_setting : txt;
  modifier_type : txt;
  category : txt;
  affects_quantity : bool;
  cost_percentage : jsnum;
  display_mode : txt;
  application_type : txt;
  product_id : txt
}.
End Attr.

Module Group.
Record t := {
  id : string;
  key : string;
  modifiers : list Mod.t;
  modifier_type : txt;
  application_type : txt;
  attributes : option Attr.t;
  percent : jsnum;
  value : jsnum;
  fixed_amount : jsnum
}.
End Group.

Record Input := {
  lineItems : option (list Raw.LineItem);
  modifiers : option (list Mod.t);
  dependencies : list Dep.t;
  preTaxGroups : list Group.t;
  postTaxGroups : list Group.t;
  config : option Config
}.

Record NormalizedInput := {
  n_lineItems : list LineItem;
  n_modifiers : list Mod.t;
  n_dependencies : list Dep.t;
  n_preTaxGroups : list Group.t;
  n_postTaxGroups : list Group.t;
  n_config : Config
}.

(** An entry of [state.adjustments]; [amount] is the text
    [adjustment.toFixed(7)], kept as its count of 1e-7 steps. *)
Record Adjustment := {
  groupId : string;
  amount : Z;
  adj_attributes : option Attr.t
}.

Record State := {
  baseSubtotal : Q;
  runningSubtotal : Q;
  adjustments : list Adjustment;
  retailTaxAmount : Q;
  useTaxAmount : Q
}.

Record ResultAdjustment := {
  r_groupId : string;
  r_amount : string;
  r_attributes : option Attr.t
}.

Record Result := {
  subtotal : string;
  modifierTotal : string;
  retailTax : string;
  customerGrandTotal : string;
  r_adjustments : list ResultAdjustment;
  useTax : option string;
  internalGrandTotal : option string;
  checksum : option string
}.

Definition limits_maxModifiers : nat := 1000.
Definition limits_maxLineItems : nat := 5000.
Definition limits_maxDependencyDepth : nat := 10.

(** [new Decimal(adj.amount)] *)
Definition amount_decimal (a : Adjustment) : Q := Dec.of_units 7 (amount a).

Section WithHost.
Context (host : Host).

(** *** Comparators *)

Definition priority_of (m : Mod.t) : Q :=
  decimal (or_else (Mod.chain_priority m) (Num 999)).

Definition byChainPriorityThenId (a b : Mod.t) : bool :=
  if Qeq_bool (priority_of a) (priority_of b)
  then match localeCompare host (Mod.id a) (Mod.id b) with
       | Lt => true
       | _ => false
       end
  else Dec.lt (priority_of a) (priority_of b).

Definition order_of (j : Jurisdiction) : Q :=
  decimal (or_else (order j) (Num 999)).

Definition byJurisdictionCode (a b : Jurisdiction) : bool :=
  if Qeq_bool (order_of a) (order_of b)
  then match localeCompare host (code a) (code b) with
       | Lt => true
       | _ => false
       end
  else Dec.lt (order_of a) (order_of b).

(** *** calculateDependencyDepth *)

Definition is_requires (d : Dep.t) : bool := String.eqb (Dep.type d) "REQUIRES".

Definition dep_neighbors (deps : list Dep.t) (node : string) : list string :=
  List.map Dep.modifier_id
    (List.filter (fun d => is_requires d && String.eqb (Dep.depends_on d) node) deps).

Definition dep_nodes (deps : list Dep.t) : list string :=
  List.flat_map (fun d => [Dep.modifier_id d; Dep.depends_on d])
    (List.filter is_requires deps).

Definition dep_inDegree (deps : list Dep.t) (node : string) : nat :=
  List.length
    (List.filter (fun d => is_requires d && String.eqb (Dep.modifier_id d) node) deps).

(** [findLongestPath]; the memo table only saves work.  The recursion of
    the source does not end on a cycle that can be reached from a root
    (the call stack overflows): that is the [None] of an exhausted
    [fuel]. *)
Fixpoint findLongestPath (fuel : nat) (deps : list Dep.t) (node : string) : option nat :=
  match fuel with
  | O => None
  | S fuel' =>
      let maxChildDepth :=
        fold_left
          (fun acc neighbor =>
             match acc, findLongestPath fuel' deps neighbor with
             | Some m, Some d => Some (Nat.max m d)
             | _, _ => None
             end)
          (dep_neighbors deps node) (Some 0%nat) in
      match maxChildDepth with
      | Some m => Some (S m)
      | None => None
      end
  end.

Definition calculateDependencyDepth (deps : list Dep.t) : option nat :=
  let nodes := dep_nodes deps in
  fold_left
    (fun acc node =>
       match acc with
       | None => None
       | Some m =>
           if (dep_inDegree deps node =? 0)%nat
           then match findLongestPath (S (List.length nodes)) deps node with
                | Some d => Some (Nat.max m d)
                | None => None
                end
           else Some m
       end)
    nodes (Some 0%nat).

(** *** validateInput

    The numeric check on line-item prices never fails here: a [jsnum]
    is a finite decimal by construction. *)

Fixpoint has_duplicate_id (seen : list string) (mods : list Mod.t) : option string :=
  match mods with
  | [] => None
  | m :: r =>
      if List.existsb (String.eqb (Mod.id m)) seen then Some (Mod.id m)
      else has_duplicate_id (Mod.id m :: seen) r
  end.

Definition validateInput (input : Input) : outcome unit :=
  match lineItems input, modifiers input, config input with
  | None, _, _ => Err (InvalidInput "lineItems must be an array")
  | Some _, None, _ => Err (InvalidInput "modifiers must be an array")
  | Some _, Some _, None => Err (InvalidInput "config is required")
  | Some items, Some mods, Some cfg =>
      if negb (txt_truthy (schemaVersion cfg))
      then Err (InvalidInput "schemaVersion is required")
      else if (limits_maxModifiers <? List.length mods)%nat
      then Err (ResourceLimit "Too many modifiers")
      else if (limits_maxLineItems <? List.length items)%nat
      then Err (ResourceLimit "Too many line items")
      else
        do! _ <- match dependencies input with
                 | [] => Ok tt
                 | deps =>
                     match calculateDependencyDepth deps with
                     | None => Err (ResourceLimit "Maximum call stack size exceeded")
                     | Some depth =>
                         if (limits_maxDependencyDepth <? depth)%nat
                         then Err (ResourceLimit "Dependency chain too deep")
                         else Ok tt
                     end
                 end;
        match has_duplicate_id [] mods with
        | Some _ => Err (InvalidInput "Duplicate modifier ID")
        | None => Ok tt
        end
  end.

(** *** resolveModifierTaxSetting *)

Definition resolveModifierTaxSetting (modifier : Mod.t) (items : list LineItem) : string :=
  let taxSetting_ := toLowerCase (txt_default (Mod.tax_setting modifier) "taxable") in
  if negb (String.eqb taxSetting_ "inherit")
  then (if String.eqb taxSetting_ "non_taxable" then "non_taxable" else "taxable")
  else
    let found :=
      if txt_truthy (Mod.line_item_id modifier)
      then List.find
             (fun li => match id li, Mod.line_item_id modifier with
                        | Some a, Some b => String.eqb a b
                        | _, _ => false
                        end) items
      else None in
    match found with
    | Some lineItem =>
        let lineItemTaxSetting :=
          toUpperCase (txt_default (Some (taxSetting lineItem)) "TAXABLE") in
        if String.eqb lineItemTaxSetting "NON_TAXABLE" then "non_taxable" else "taxable"
    | None => "taxable"
    end.

(** *** groupModifiers *)

Definition bool_toString (b : bool) : string := if b then "true" else "false".

Definition group_attributes (resolvedTaxSetting : string) (modifier : Mod.t) : Attr.t :=
  {| Attr.tax_setting := Some resolvedTaxSetting;
     Attr.modifier_type := Some (txt_default (Mod.modifier_type modifier) "percentage");
     Attr.category := Some (txt_default (Mod.category modifier) "general");
     Attr.affects_quantity := Mod.affects_quantity modifier;
     Attr.cost_percentage := or_else (Mod.cost_percentage modifier) (Num 0);
     Attr.display_mode := Some (txt_default (Mod.display_mode modifier) "inline");
     Attr.application_type := Some (txt_default (Mod.application_type modifier) "pre_tax");
     Attr.product_id := txt_or (Mod.product_id modifier) None |}.

Definition jsnum_toString (v : jsnum) : string :=
  match v with
  | Absent => "undefined"
  | Null => "null"
  | Num q => number_toString host q
  | Str q => number_toString host q
  end.

Definition group_key (resolvedTaxSetting : string) (modifier : Mod.t) : string :=
  JSON.join "|"
    [ resolvedTaxSetting;
      txt_default (Mod.modifier_type modifier) "percentage";
      txt_default (Mod.category modifier) "general";
      bool_toString (Mod.affects_quantity modifier);
      jsnum_toString (or_else (Mod.cost_percentage modifier) (Num 0));
      txt_default (Mod.display_mode modifier) "inline";
      txt_default (Mod.application_type modifier) "pre_tax";
      txt_default (Mod.product_id modifier) "null" ].

Definition new_group (groupKey : string) (resolvedTaxSetting : string)
    (modifier : Mod.t) : Group.t :=
  {| Group.id := "group-" +:+ groupKey;
     Group.key := groupKey;
     Group.modifiers := [];
     Group.modifier_type := Some (txt_default (Mod.modifier_type modifier) "percentage");
     Group.application_type := Some (txt_default (Mod.application_type modifier) "pre_tax");
     Group.attributes := Some (group_attributes resolvedTaxSetting modifier);
     Group.percent := Absent;
     Group.value := Absent;
     Group.fixed_amount := Absent |}.

Definition push_modifier (modifier : Mod.t) (g : Group.t) : Group.t :=
  {| Group.id := Group.id g;
     Group.key := Group.key g;
     Group.modifiers := Group.modifiers g ++ [modifier];
     Group.modifier_type := Group.modifier_type g;
     Group.application_type := Group.application_type g;
     Group.attributes := Group.attributes g;
     Group.percent := Group.percent g;
     Group.value := Group.value g;
     Group.fixed_amount := Group.fixed_amount g |}.

(** The [Map] of the source keeps its entries in insertion order. *)
Fixpoint groupMap_push (groupKey : string) (fresh : Group.t) (modifier : Mod.t)
    (groupMap : list Group.t) : list Group.t :=
  match groupMap with
  | [] => [push_modifier modifier fresh]
  | g :: r =>
      if String.eqb (Group.key g) groupKey
      then push_modifier modifier g :: r
      else g :: groupMap_push groupKey fresh modifier r
  end.

Definition groupModifiers (mods : list Mod.t) (items : list LineItem) : list Group.t :=
  let sortedModifiers := sort_by byChainPriorityThenId mods in
  fold_left
    (fun groupMap modifier =>
       let resolvedTaxSetting := resolveModifierTaxSetting modifier items in
       let groupKey := group_key resolvedTaxSetting modifier in
       groupMap_push groupKey (new_group groupKey resolvedTaxSetting modifier)
         modifier groupMap)
    sortedModifiers [].

(** *** normalizeInput *)

Definition normalizeLineItem (item : Raw.LineItem) : LineItem :=
  {| id := txt_or (Raw.line_item_id item) (Raw.id item);
     unitPrice :=
       decimal (or_else (Raw.unit_price item)
                  (or_else (Raw.unitPrice item) (or_else (Raw.price item) (Str 0))));
     quantity := math_max0 (number_or_zero (Raw.quantity item));
     cost :=
       decimal (or_else (Raw.cost item)
                  (or_else (Raw.unitPrice item) (or_else (Raw.unit_price item) (Str 0))));
     taxSetting :=
       toUpperCase
         (txt_default (txt_or (Raw.tax_setting item) (Raw.taxSetting item)) "TAXABLE");
     use_tax_eligible := Raw.use_tax_eligible item |}.

Definition normalizeModifier (m : Mod.t) : Mod.t :=
  {| Mod.id := Mod.id m;
     Mod.value := Str (decimal (or_else (Mod.value m) (Str 0)));
     Mod.percent := Mod.percent m;
     Mod.fixed_amount := Mod.fixed_amount m;
     Mod.chain_priority := or_else (Mod.chain_priority m) (Num 999);
     Mod.application_type := Some (txt_default (Mod.application_type m) "pre_tax");
     Mod.modifier_type := Mod.modifier_type m;
     Mod.tax_setting := Mod.tax_setting m;
     Mod.line_item_id := Mod.line_item_id m;
     Mod.category := Mod.category m;
     Mod.affects_quantity := Mod.affects_quantity m;
     Mod.cost_percentage := Mod.cost_percentage m;
     Mod.display_mode := Mod.display_mode m;
     Mod.product_id := Mod.product_id m |}.

Definition empty_config : Config :=
  {| schemaVersion := None; tax_rate := Absent; use_tax_rate := Absent;
     tax_mode := None; jurisdictions := [] |}.

Definition normalizeConfig (cfg : Config) : Config :=
  {| schemaVersion := schemaVersion cfg;
     tax_rate := Str (decimal (or_else (tax_rate cfg) (Str 0)));
     use_tax_rate := Str (decimal (or_else (use_tax_rate cfg) (Str 0)));
     tax_mode := Some (txt_default (tax_mode cfg) "RETAIL");
     jurisdictions := jurisdictions cfg |}.

Definition normalizeInput (input : Input) : NormalizedInput :=
  let normalizedLineItems := List.map normalizeLineItem (default [] (lineItems input)) in
  let normalizedModifiers := List.map normalizeModifier (default [] (modifiers input)) in
  let regroup :=
    match preTaxGroups input, postTaxGroups input, normalizedModifiers with
    | [], [], _ :: _ => true
    | _, _, _ => false
    end in
  let groups := groupModifiers normalizedModifiers normalizedLineItems in
  {| n_lineItems := normalizedLineItems;
     n_modifiers := normalizedModifiers;
     n_dependencies := dependencies input;
     n_preTaxGroups :=
       if regroup
       then List.filter (fun g => negb (txt_is (Group.application_type g) "post_tax")) groups
       else preTaxGroups input;
     n_postTaxGroups :=
       if regroup
       then List.filter (fun g => txt_is (Group.application_type g) "post_tax") groups
       else postTaxGroups input;
     n_config := normalizeConfig (default empty_config (config input)) |}.

End WithHost.

(** *** computeBaseSubtotal *)

Definition computeBaseSubtotal (items : list LineItem) : Q :=
  fold_left
    (fun sum item =>
       PrecisionPolicy.intermediate
         (Dec.plus sum (Dec.times (unitPrice item) (quantity item))))
    items 0.

(** *** calculateMarginAdjustment *)

(** The value the margin is read from: the first modifier of the group,
    or the group's own [value]. *)
Definition marginValue (group : Group.t) : jsnum :=
  match Group.modifiers group with
  | m :: _ => or_else (Mod.value m) (Str 0)
  | [] => if truthy (Group.value group) then Group.value group else Str 0
  end.

Definition targetMargin (group : Group.t) : Q :=
  Dec.div (decimal (marginValue group)) 100.

Definition newUnitPrice (margin : Q) (item : LineItem) : Q :=
  PrecisionPolicy.intermediate (Dec.div (cost item) (Dec.minus 1 margin)).

Definition lineDelta (margin : Q) (item : LineItem) : Q :=
  PrecisionPolicy.intermediate
    (Dec.times (Dec.minus (newUnitPrice margin item) (unitPrice item)) (quantity item)).

Definition calculateMarginAdjustment (group : Group.t) (items : list LineItem) : outcome Q :=
  let margin := targetMargin group in
  if Dec.lt margin 0 || Dec.gte margin 1
  then Err InvalidMarginError
  else Ok (fold_left
             (fun totalAdjustment item =>
                PrecisionPolicy.intermediate (Dec.plus totalAdjustment (lineDelta margin item)))
             items 0).

(** *** calculateGroupAdjustment *)

Definition modifierType (group : Group.t) : txt :=
  txt_or (match Group.attributes group with
          | Some a => Attr.modifier_type a
          | None => None
          end)
         (Group.modifier_type group).

Definition percentValue (m : Mod.t) : Q :=
  decimal (or_else (Mod.percent m) (or_else (Mod.value m) (Str 0))).

Definition fixedValue (m : Mod.t) : Q :=
  decimal (or_else (Mod.fixed_amount m) (or_else (Mod.value m) (Str 0))).

Definition sum_decimals {A} (f : A -> Q) (l : list A) : Q :=
  fold_left (fun total x => Dec.plus total (f x)) l 0.

Definition totalPercent (group : Group.t) : Q :=
  match Group.modifiers group with
  | [] => decimal (or_else (Group.percent group) (or_else (Group.value group) (Str 0)))
  | mods => sum_decimals percentValue mods
  end.

Definition totalFixed (group : Group.t) : Q :=
  match Group.modifiers group with
  | [] => decimal (or_else (Group.fixed_amount group) (or_else (Group.value group) (Str 0)))
  | mods => sum_decimals fixedValue mods
  end.

Definition calculateGroupAdjustment (group : Group.t) (basis : Q)
    (items : list LineItem) : outcome Q :=
  match modifierType group with
  | Some "percentage"%string =>
      Ok (PrecisionPolicy.intermediate (Dec.div (Dec.times basis (totalPercent group)) 100))
  | Some "fixed"%string =>
      Ok (PrecisionPolicy.intermediate (totalFixed group))
  | Some "margin"%string =>
      calculateMarginAdjustment group items
  | _ => Ok 0
  end.

(** *** applyModifierGroups *)

Definition with_running (state : State) (running : Q) (adjs : list Adjustment) : State :=
  {| baseSubtotal := baseSubtotal state;
     runningSubtotal := running;
     adjustments := adjs;
     retailTaxAmount := retailTaxAmount state;
     useTaxAmount := useTaxAmount state |}.

Fixpoint applyGroups_loop (groups : list Group.t) (items : list LineItem)
    (running : Q) (newAdjustments : list Adjustment) : outcome (Q * list Adjustment) :=
  match groups with
  | [] => Ok (running, newAdjustments)
  | group :: rest =>
      do! adjustment <- calculateGroupAdjustment group running items;
      applyGroups_loop rest items
        (PrecisionPolicy.intermediate (Dec.plus running adjustment))
        (newAdjustments ++
           [{| groupId := Group.id group;
               amount := Dec.units 7 adjustment;
               adj_attributes := Group.attributes group |}])
  end.

Definition applyModifierGroups (state : State) (groups : list Group.t)
    (items : list LineItem) : outcome State :=
  do! r <- applyGroups_loop groups items (runningSubtotal state) (adjustments state);
  Ok (with_running state (fst r) (snd r)).

(** *** calculateUseTaxBase *)

Definition calculateUseTaxBase (items : list LineItem) : Q :=
  fold_left
    (fun useTaxBase item =>
       if use_tax_eligible item
       then PrecisionPolicy.intermediate
              (Dec.plus useTaxBase
                 (PrecisionPolicy.intermediate (Dec.times (cost item) (quantity item))))
       else useTaxBase)
    items 0.

(** *** calculateTaxes *)

(** [item.quantity || 1] *)
Definition quantity_or_one (item : LineItem) : Q :=
  if Qeq_bool (quantity item) 0 then 1 else quantity item.

Definition taxable_lines_base (items : list LineItem) : Q :=
  fold_left
    (fun taxableBase item =>
       let itemTaxSetting := toUpperCase (txt_default (Some (taxSetting item)) "TAXABLE") in
       if String.eqb itemTaxSetting "TAXABLE"
       then PrecisionPolicy.intermediate
              (Dec.plus taxableBase
                 (PrecisionPolicy.intermediate
                    (Dec.times (unitPrice item) (quantity_or_one item))))
       else taxableBase)
    items 0.

Definition adjustment_is_taxable (a : Adjustment) : bool :=
  match adj_attributes a with
  | Some attrs => txt_is (Attr.tax_setting attrs) "taxable"
  | None => false
  end.

Definition taxableBase_of (state : State) (items : list LineItem) : Q :=
  fold_left
    (fun taxableBase adjustment =>
       if adjustment_is_taxable adjustment
       then PrecisionPolicy.intermediate (Dec.plus taxableBase (amount_decimal adjustment))
       else taxableBase)
    (adjustments state) (taxable_lines_base items).

Definition with_taxes (state : State) (retail use : Q) : State :=
  {| baseSubtotal := baseSubtotal state;
     runningSubtotal := runningSubtotal state;
     adjustments := adjustments state;
     retailTaxAmount := retail;
     useTaxAmount := use |}.

(** The loop over the sorted jurisdictions:
    [taxableBase.mul(jurisdiction.rate)] throws on a jurisdiction that
    has no rate. *)
Fixpoint jurisdiction_taxes (taxableBase : Q) (sorted : list Jurisdiction)
    (retailTax : Q) : outcome Q :=
  match sorted with
  | [] => Ok retailTax
  | jurisdiction :: rest =>
      do! r <- toDecimal (rate jurisdiction);
      jurisdiction_taxes taxableBase rest
        (PrecisionPolicy.intermediate
           (Dec.plus retailTax (PrecisionPolicy.intermediate (Dec.times taxableBase r))))
  end.

Definition calculateTaxes (host : Host) (state : State) (cfg : Config)
    (items : list LineItem) : outcome State :=
  let taxableBase := taxableBase_of state items in
  do! retailTax <-
    (if txt_is (tax_mode cfg) "RETAIL" || txt_is (tax_mode cfg) "MIXED"
     then match jurisdictions cfg with
          | _ :: _ =>
              jurisdiction_taxes taxableBase
                (sort_by (byJurisdictionCode host) (jurisdictions cfg)) 0
          | [] =>
              Ok (PrecisionPolicy.intermediate
                    (Dec.times taxableBase (decimal (or_else (tax_rate cfg) (Str 0)))))
          end
     else Ok 0);
  let useTax :=
    if txt_is (tax_mode cfg) "USE_TAX" || txt_is (tax_mode cfg) "MIXED"
    then PrecisionPolicy.intermediate
           (Dec.times (calculateUseTaxBase items)
              (decimal (or_else (use_tax_rate cfg) (Str 0))))
    else 0 in
  Ok (with_taxes state retailTax useTax).

(** *** buildResult *)

Definition modifierTotal_of (state : State) : Q :=
  fold_left
    (fun sum adj => PrecisionPolicy.intermediate (Dec.plus sum (amount_decimal adj)))
    (adjustments state) 0.

Definition customerGrandTotal_of (state : State) : Q :=
  PrecisionPolicy.final (Dec.plus (runningSubtotal state) (retailTaxAmount state)).

Definition buildResult (state : State) (cfg : Config) : Result :=
  let mixed := txt_is (tax_mode cfg) "MIXED" in
  {| subtotal := Dec.toFixed 2 (PrecisionPolicy.final (baseSubtotal state));
     modifierTotal := Dec.toFixed 2 (PrecisionPolicy.final (modifierTotal_of state));
     retailTax := Dec.toFixed 2 (PrecisionPolicy.final (retailTaxAmount state));
     customerGrandTotal := Dec.toFixed 2 (customerGrandTotal_of state);
     r_adjustments :=
       List.map (fun adj => {| r_groupId := groupId adj;
                               r_amount := Dec.toFixed 2 (amount_decimal adj);
                               r_attributes := adj_attributes adj |})
         (adjustments state);
     useTax :=
       if mixed
       then Some (Dec.toFixed 2 (PrecisionPolicy.final (useTaxAmount state)))
       else None;
     internalGrandTotal :=
       if mixed
       then Some (Dec.toFixed 2
                    (PrecisionPolicy.final
                       (Dec.plus (customerGrandTotal_of state) (useTaxAmount state))))
       else None;
     checksum := None |}.

(** *** canonicalize and generateChecksum *)

Fixpoint canonicalize (obj : json) : json :=
  match obj with
  | JArray items => JArray (List.map canonicalize items)
  | JObject props =>
      JObject
        (sort_by (fun a b => String.ltb (fst a) (fst b))
           (List.map (fun kv => match kv with
                                | (k, x) => (k, canonicalize x)
                                end) props))
  | JNumber r => JString r
  | other => other
  end.

Section Checksum.
Context (host : Host).

Definition txt_json (a : txt) : json :=
  match a with
  | Some s => JString s
  | None => JUndefined
  end.

Definition jsnum_json (v : jsnum) : json :=
  match v with
  | Absent => JUndefined
  | Null => JNull
  | Num q => JNumber (number_toString host q)
  | Str q => JString (number_toString host q)
  end.

Definition attributes_json (a : option Attr.t) : json :=
  match a with
  | None => JUndefined
  | Some attrs =>
      JObject
        [ ("tax_setting"%string, txt_json (Attr.tax_setting attrs));
          ("modifier_type"%string, txt_json (Attr.modifier_type attrs));
          ("category"%string, txt_json (Attr.category attrs));
          ("affects_quantity"%string, JBool (Attr.affects_quantity attrs));
          ("cost_percentage"%string, jsnum_json (Attr.cost_percentage attrs));
          ("display_mode"%string, txt_json (Attr.display_mode attrs));
          ("application_type"%string, txt_json (Attr.application_type attrs));
          ("product_id"%string,
             match Attr.product_id attrs with
             | Some s => JString s
             | None => JNull
             end) ]
  end.

Definition result_json (r : Result) : json :=
  JObject
    ([ ("subtotal"%string, JString (subtotal r));
       ("modifierTotal"%string, JString (modifierTotal r));
       ("retailTax"%string, JString (retailTax r));
       ("customerGrandTotal"%string, JString (customerGrandTotal r));
       ("adjustments"%string,
          JArray (List.map
                    (fun a => JObject
                                [ ("groupId"%string, JString (r_groupId a));
                                  ("amount"%string, JString (r_amount a));
                                  ("attributes"%string, attributes_json (r_attributes a)) ])
                    (r_adjustments r))) ]
     ++ match useTax r with
        | Some s => [("useTax"%string, JString s)]
        | None => []
        end
     ++ match internalGrandTotal r with
        | Some s => [("internalGrandTotal"%string, JString s)]
        | None => []
        end).

Definition generateChecksum (result : Result) : string :=
  sha256 host (JSON.stringify None (canonicalize (result_json result))).

(** [generateInputHash], for the input as the JSON value it is.  A key
    that is an array index is outside the model: the host lists such
    keys first, in numeric order. *)
Definition generateInputHash (input : json) : string :=
  sha256 host (JSON.stringify None (canonicalize input)).

Definition with_checksum (r : Result) (c : string) : Result :=
  {| subtotal := subtotal r;
     modifierTotal := modifierTotal r;
     retailTax := retailTax r;
     customerGrandTotal := customerGrandTotal r;
     r_adjustments := r_adjustments r;
     useTax := useTax r;
     internalGrandTotal := internalGrandTotal r;
     checksum := Some c |}.

(** *** calculate *)

Definition initialState (n : NormalizedInput) : State :=
  {| baseSubtotal := computeBaseSubtotal (n_lineItems n);
     runningSubtotal := computeBaseSubtotal (n_lineItems n);
     adjustments := [];
     retailTaxAmount := 0;
     useTaxAmount := 0 |}.

(** Steps 3 to 5 of [calculate]: the state the result is built from. *)
Definition finalState (n : NormalizedInput) : outcome State :=
  do! afterPreTax <- applyModifierGroups (initialState n) (n_preTaxGroups n) (n_lineItems n);
  do! afterTax <- calculateTaxes host afterPreTax (n_config n) (n_lineItems n);
  applyModifierGroups afterTax (n_postTaxGroups n) (n_lineItems n).

Definition calculate (input : Input) : outcome Result :=
  do! _ <- validateInput input;
  let normalizedInput := normalizeInput host input in
  do! state <- finalState normalizedInput;
  let result := buildResult state (n_config normalizedInput) in
  Ok (with_checksum result (generateChecksum result)).

End Checksum.

End PureCalculationEngine.

(** ** decimal.js values that may be infinite or NaN

    The archived compliant engine divides without a guard, so its amounts
    range over all decimal.js values. *)

Inductive xdec :=
| Fin (q : Q)
| Inf (negative : bool)
| NaN.

Module XDec.

Definition is_neg (q : Q) : bool := negb (Qle_bool 0 q).

Definition plus (a b : xdec) : xdec :=
  match a, b with
  | Fin x, Fin y => Fin (Dec.plus x y)
  | NaN, _ => NaN
  | _, NaN => NaN
  | Inf s, Fin _ => Inf s
  | Fin _, Inf s => Inf s
  | Inf s, Inf t => if Bool.eqb s t then Inf s else NaN
  end.

Definition neg (a : xdec) : xdec :=
  match a with
  | Fin x => Fin (- x)
  | Inf s => Inf (negb s)
  | NaN => NaN
  end.

Definition minus (a b : xdec) : xdec := plus a (neg b).

Definition times (a b : xdec) : xdec :=
  match a, b with
  | Fin x, Fin y => Fin (Dec.times x y)
  | NaN, _ => NaN
  | _, NaN => NaN
  | Inf s, Fin y => if Qeq_bool y 0 then NaN else Inf (xorb s (is_neg y))
  | Fin x, Inf s => if Qeq_bool x 0 then NaN else Inf (xorb s (is_neg x))
  | Inf s, Inf t => Inf (xorb s t)
  end.

(** The divisors of the source are never the negative zero. *)
Definition dividedBy (a b : xdec) : xdec :=
  match a, b with
  | Fin x, Fin y =>
      if Qeq_bool y 0
      then (if Qeq_bool x 0 then NaN else Inf (is_neg x))
      else Fin (Dec.div x y)
  | NaN, _ => NaN
  | _, NaN => NaN
  | Inf s, Fin y => Inf (xorb s (is_neg y))
  | Fin _, Inf _ => Fin 0
  | Inf _, Inf _ => NaN
  end.

Definition toDecimalPlaces (dp : nat) (a : xdec) : xdec :=
  match a with
  | Fin x => Fin (Dec.toDecimalPlaces dp x)
  | other => other
  end.

Definition toFixed (dp : nat) (a : xdec) : string :=
  match a with
  | Fin x => Dec.toFixed dp x
  | Inf false => "Infinity"
  | Inf true => "-Infinity"
  | NaN => "NaN"
  end.

Definition lessThan0 (a : xdec) : bool :=
  match a with
  | Fin x => is_neg x
  | Inf s => s
  | NaN => false
  end.

End XDec.

(** ** CompliantCalculationEngine.js (archived engine) *)

Module CompliantCalculationEngine.

(** [useTaxEligible] and [vendorTaxCollected] are the spellings of the
    specification's samples; no function of the engine reads them. *)
Record LineItem := {
  line_item_id : txt;
  id : txt;
  unit_price : jsnum;
  unitPrice : jsnum;
  price : jsnum;
  quantity : jsnum;
  cost : jsnum;
  tax_setting : txt;
  use_tax_eligible : bool;
  vendor_tax_collected : bool;
  useTaxEligible : bool;
  vendorTaxCollected : bool
}.

Module Mod.
Record t := {
  id : string;
  percent : jsnum;
  fixed_amount : jsnum;
  chain_priority : jsnum;
  missing_cost_strategy : txt;
  default_cost_pct : jsnum;
  target_margin : jsnum
}.
End Mod.

Module Attr.
Record t := {
  modifier_type : txt;
  tax_setting : txt;
  application_type : txt
}.
End Attr.

Module Group.
Record t := {
  key : string;
  attributes : Attr.t;
  modifiers : list Mod.t
}.
End Group.

Record TaxJurisdiction := {
  name : txt;
  rate : jsnum
}.

Record TaxConfig := {
  default_rate : jsnum;
  tc_use_tax_rate : jsnum;
  jurisdictions : list TaxJurisdiction
}.

Record Config := {
  tax_config : option TaxConfig;
  tax_rate : jsnum;
  use_tax_rate : jsnum;
  tax_mode : txt
}.

(** [baseCalc]; each field is the text of a 7-place decimal, kept as the
    decimal it denotes. *)
Record BaseCalc := {
  subtotal : Q;
  taxableSubtotal : Q;
  nonTaxableSubtotal : Q
}.

(** [allocation_precise] is a 7-place text, kept as its count of 1e-7
    steps. *)
Record Allocation := {
  a_line_item_id : txt;
  allocation_precise : Z
}.

Record GroupResult := {
  adjustment : xdec;
  skipped : list Mod.t;
  allocations : list Allocation
}.

(** An entry of [appliedGroups]; [ag_adjustment] and [ag_runningTotal]
    are [toFixed(7)] texts, kept as the decimals they denote. *)
Record AppliedGroup := {
  ag_group : string;
  ag_adjustment : xdec;
  ag_runningTotal : xdec;
  ag_allocations : list Allocation
}.

Record ModifierResult := {
  finalAmount : xdec;
  totalAdjustment : xdec;
  appliedGroups : list AppliedGroup;
  skippedModifiers : list Mod.t
}.

Record SubTax := {
  st_jurisdiction : string;
  st_rate : Q;
  st_amount : xdec
}.

Record TaxResult := {
  taxableBase : xdec;
  nonTaxableTotal : xdec;
  retailTax : xdec;
  subTaxes : list SubTax;
  useTaxAmount : Q;
  useTaxBase : Q;
  useTaxItems : list txt;
  taxMode : string
}.

Record GrandTotals := {
  grandTotalPrecise : xdec;
  customerGrandTotal : string;
  internalGrandTotal : string
}.

(** [item.unit_price || item.unitPrice || item.price || 0] *)
Definition unitPrice_of (item : LineItem) : Q :=
  decimal (or_else (unit_price item)
             (or_else (unitPrice item) (or_else (price item) (Num 0)))).

(** [new Decimal(unitPrice).times(item.quantity || 0)] *)
Definition lineTotal (item : LineItem) : Q :=
  Dec.times (unitPrice_of item) (decimal (or_else (quantity item) (Num 0))).

(** *** calculateBase *)

Inductive TaxClass := Taxable | NonTaxable.

(** The branch [calculateBase] takes for one item. *)
Definition classify (item : LineItem) : TaxClass :=
  let taxSetting := toUpperCase (txt_default (tax_setting item) "TAXABLE") in
  if String.eqb taxSetting "TAXABLE" then Taxable
  else if String.eqb taxSetting "NON_TAXABLE" then NonTaxable
  else Taxable.

Definition calculateBase (items : list LineItem) : BaseCalc :=
  let sums :=
    fold_left
      (fun acc item =>
         match acc with
         | (sub, taxable, nonTaxable) =>
             match classify item with
             | Taxable =>
                 (Dec.plus sub (lineTotal item), Dec.plus taxable (lineTotal item), nonTaxable)
             | NonTaxable =>
                 (Dec.plus sub (lineTotal item), taxable, Dec.plus nonTaxable (lineTotal item))
             end
         end)
      items (0, 0, 0) in
  match sums with
  | (sub, taxable, nonTaxable) =>
      {| subtotal := Q7 sub;
         taxableSubtotal := Q7 taxable;
         nonTaxableSubtotal := Q7 nonTaxable |}
  end.

(** *** applyGroup *)

Definition priority_of (m : Mod.t) : Q :=
  decimal (or_else (Mod.chain_priority m) (Num 999)).

Definition byPriorityThenId (host : Host) (a b : Mod.t) : bool :=
  if Qeq_bool (priority_of a) (priority_of b)
  then match localeCompare host (Mod.id a) (Mod.id b) with
       | Lt => true
       | _ => false
       end
  else Dec.lt (priority_of a) (priority_of b).

(** Percentage groups. *)

Definition combinedRate (mods : list Mod.t) : Q :=
  fold_left (fun r m => Dec.plus r (decimal (or_else (Mod.percent m) (Num 0)))) mods 0.

(** The sum of the line totals of the items whose [tax_setting], in
    upper case, is [setting]. *)
Definition tagged_base (setting : string) (items : list LineItem) : Q :=
  fold_left
    (fun sum item =>
       if String.eqb (toUpperCase (txt_default (tax_setting item) EmptyString)) setting
       then Dec.plus sum (lineTotal item)
       else sum)
    items 0.

Definition percentage_base (taxSetting : string) (runningTotal : xdec)
    (items : list LineItem) : xdec :=
  if String.eqb taxSetting "taxable" then Fin (tagged_base "TAXABLE" items)
  else if String.eqb taxSetting "non_taxable" then Fin (tagged_base "NON_TAXABLE" items)
  else runningTotal.

Definition percentage_adjustment (taxSetting : string) (mods : list Mod.t)
    (runningTotal : xdec) (items : list LineItem) : xdec :=
  XDec.times (percentage_base taxSetting runningTotal items)
    (Fin (Dec.div (combinedRate mods) 100)).

(** Fixed groups. *)

Definition fixed_adjustment (mods : list Mod.t) : Q :=
  fold_left (fun a m => Dec.plus a (decimal (or_else (Mod.fixed_amount m) (Num 0)))) mods 0.

Definition totalBase (items : list LineItem) : Q :=
  fold_left (fun sum item => Dec.plus sum (lineTotal item)) items 0.

Definition allocation_id (item : LineItem) : txt := txt_or (line_item_id item) (id item).

(** First pass: every share rounded to 7 places. *)
Definition first_pass (adj : Q) (items : list LineItem) : list Allocation :=
  List.map
    (fun item =>
       let ratio := Dec.div (lineTotal item) (totalBase items) in
       let rawAlloc := Dec.times adj ratio in
       {| a_line_item_id := allocation_id item;
          allocation_precise := Dec.units 7 (Q7 rawAlloc) |})
    items.

Definition allocatedSum (allocs : list Allocation) : Q :=
  fold_left (fun sum a => Dec.plus sum (Dec.of_units 7 (allocation_precise a))) allocs 0.

(** [last.allocation_precise = Q7(new Decimal(last.allocation_precise).plus(diff)).toFixed(7)] *)
Fixpoint adjust_last (diff : Q) (allocs : list Allocation) : list Allocation :=
  match allocs with
  | [] => []
  | [last] =>
      [{| a_line_item_id := a_line_item_id last;
          allocation_precise :=
            Dec.units 7 (Q7 (Dec.plus (Dec.of_units 7 (allocation_precise last)) diff)) |}]
  | a :: rest => a :: adjust_last diff rest
  end.

Definition fixed_allocations (adj : Q) (items : list LineItem) : list Allocation :=
  if Dec.greaterThan (totalBase items) 0
  then
    let allocs := first_pass adj items in
    let diff := Q7 (Dec.minus adj (allocatedSum allocs)) in
    if negb (Dec.isZero diff) then adjust_last diff allocs else allocs
  else
    List.map (fun item => {| a_line_item_id := allocation_id item;
                             allocation_precise := 0 |}) items.

(** Margin groups. *)

(** [1 - modifier.target_margin], a number of the host: [NaN] when the
    margin is [undefined], 1 when it is [null]. *)
Definition one_minus (host : Host) (target : jsnum) : xdec :=
  match target with
  | Absent => NaN
  | Null => Fin (number_minus host 1 0)
  | Num q => Fin (number_minus host 1 q)
  | Str q => Fin (number_minus host 1 q)
  end.

(** [item.cost !== undefined] *)
Definition has_cost (item : LineItem) : bool :=
  match cost item with
  | Absent => false
  | _ => true
  end.

Definition totalCost (items : list LineItem) : Q :=
  fold_left
    (fun sum item =>
       Dec.plus sum
         (Dec.times (decimal (or_else (cost item) (Num 0)))
            (decimal (or_else (quantity item) (Num 0)))))
    items 0.

Definition margin_step (host : Host) (runningTotal : xdec) (items : list LineItem)
    (acc : xdec * list Mod.t) (modifier : Mod.t) : outcome (xdec * list Mod.t) :=
  let (adj, skip) := acc in
  if negb (List.forallb has_cost items)
  then
    let strategy := txt_default (Mod.missing_cost_strategy modifier) "SKIP" in
    if String.eqb strategy "SKIP" then Ok (adj, skip ++ [modifier])
    else if String.eqb strategy "USE_DEFAULT" then
      let defaultCostPct := decimal (or_else (Mod.default_cost_pct modifier) (Num (7 # 10))) in
      let estimatedCost := XDec.times runningTotal (Fin defaultCostPct) in
      let targetPrice :=
        XDec.dividedBy estimatedCost (one_minus host (Mod.target_margin modifier)) in
      Ok (XDec.plus adj (XDec.minus targetPrice runningTotal), skip)
    else if String.eqb strategy "FAIL" then Err (MissingCost (Mod.id modifier))
    else Ok (adj, skip)
  else
    let targetPrice :=
      XDec.dividedBy (Fin (totalCost items)) (one_minus host (Mod.target_margin modifier)) in
    Ok (XDec.plus adj (XDec.minus targetPrice runningTotal), skip).

Fixpoint margin_loop (host : Host) (runningTotal : xdec) (items : list LineItem)
    (mods : list Mod.t) (acc : xdec * list Mod.t) : outcome (xdec * list Mod.t) :=
  match mods with
  | [] => Ok acc
  | m :: rest =>
      do! acc' <- margin_step host runningTotal items acc m;
      margin_loop host runningTotal items rest acc'
  end.

Definition applyGroup (host : Host) (group : Group.t) (runningTotal : xdec)
    (items : list LineItem) : outcome GroupResult :=
  let modifierType := Attr.modifier_type (Group.attributes group) in
  let taxSetting :=
    toLowerCase (txt_default (Attr.tax_setting (Group.attributes group)) "taxable") in
  let sortedModifiers := sort_by (byPriorityThenId host) (Group.modifiers group) in
  if txt_is modifierType "percentage" then
    Ok {| adjustment := percentage_adjustment taxSetting sortedModifiers runningTotal items;
          skipped := [];
          allocations := [] |}
  else if txt_is modifierType "fixed" then
    let adj := fixed_adjustment sortedModifiers in
    Ok {| adjustment := Fin adj;
          skipped := [];
          allocations := fixed_allocations adj items |}
  else if txt_is modifierType "margin" then
    do! r <- margin_loop host runningTotal items sortedModifiers (Fin 0, []);
    Ok {| adjustment := fst r; skipped := snd r; allocations := [] |}
  else
    Ok {| adjustment := Fin 0; skipped := []; allocations := [] |}.

(** *** applyModifierGroups *)

Fixpoint applyGroups_loop (host : Host) (groups : list Group.t) (items : list LineItem)
    (runningTotal totalAdj : xdec) (applied : list AppliedGroup)
    (skippedAcc : list Mod.t) : outcome ModifierResult :=
  match groups with
  | [] =>
      Ok {| finalAmount := XDec.toDecimalPlaces 7 runningTotal;
            totalAdjustment := XDec.toDecimalPlaces 7 totalAdj;
            appliedGroups := applied;
            skippedModifiers := skippedAcc |}
  | group :: rest =>
      do! result <- applyGroup host group runningTotal items;
      let runningTotal' := XDec.plus runningTotal (adjustment result) in
      applyGroups_loop host rest items runningTotal'
        (XDec.plus totalAdj (adjustment result))
        (applied ++
           [{| ag_group := Group.key group;
               ag_adjustment := XDec.toDecimalPlaces 7 (adjustment result);
               ag_runningTotal := XDec.toDecimalPlaces 7 runningTotal';
               ag_allocations := allocations result |}])
        (skippedAcc ++ skipped result)
  end.

Definition applyModifierGroups (host : Host) (groups : list Group.t) (baseSubtotal : Q)
    (items : list LineItem) : outcome ModifierResult :=
  applyGroups_loop host groups items (Fin baseSubtotal) (Fin 0) [] [].

(** *** calculateTax *)

Definition find_adjustment (modifierResult : ModifierResult) (group : Group.t) : xdec :=
  match List.find (fun g => String.eqb (ag_group g) (Group.key group))
          (appliedGroups modifierResult) with
  | Some g => ag_adjustment g
  | None => Fin 0
  end.

Definition retailTaxRate_of (cfg : Config) : Q :=
  match tax_config cfg with
  | Some tc =>
      match jurisdictions tc with
      | [] => decimal (or_else (default_rate tc) (Num 0))
      | js => fold_left (fun sum j => Dec.plus sum (decimal (or_else (rate j) (Num 0)))) js 0
      end
  | None => decimal (or_else (tax_rate cfg) (Num 0))
  end.

Definition useTaxRate_of (cfg : Config) : Q :=
  match tax_config cfg with
  | Some tc =>
      decimal (or_else (tc_use_tax_rate tc) (or_else (use_tax_rate cfg) (Num 0)))
  | None => decimal (or_else (use_tax_rate cfg) (Num 0))
  end.

(** The taxable and the non-taxable pre-tax adjustments. *)
Definition preTax_split (modifierResult : ModifierResult) (groups : list Group.t)
    : xdec * xdec :=
  fold_left
    (fun acc group =>
       let appType :=
         toLowerCase (txt_default (Attr.application_type (Group.attributes group)) "pre_tax") in
       let taxSetting :=
         toLowerCase (txt_default (Attr.tax_setting (Group.attributes group)) "taxable") in
       let adj := find_adjustment modifierResult group in
       if String.eqb appType "post_tax" then acc
       else if String.eqb taxSetting "taxable" then (XDec.plus (fst acc) adj, snd acc)
       else (fst acc, XDec.plus (snd acc) adj))
    groups (Fin 0, Fin 0).

(** [item.use_tax_eligible && item.cost && !item.vendor_tax_collected] *)
Definition use_tax_applies (item : LineItem) : bool :=
  use_tax_eligible item && truthy (cost item) && negb (vendor_tax_collected item).

Definition useTaxBase_of (items : list LineItem) : Q :=
  fold_left
    (fun base item =>
       if use_tax_applies item
       then Dec.plus base
              (Dec.times (decimal (cost item)) (decimal (or_else (quantity item) (Num 0))))
       else base)
    items 0.

(** [this_useTaxItems] is the field [this.useTaxItems] of the engine
    object, left there by an earlier call. *)
Definition calculateTax (baseCalc : BaseCalc) (modifierResult : ModifierResult)
    (items : list LineItem) (groups : list Group.t) (cfg : Config)
    (this_useTaxItems : list txt) : TaxResult :=
  let mode := txt_default (tax_mode cfg) "RETAIL" in
  let split := preTax_split modifierResult groups in
  let retailTaxableBase :=
    match groups with
    | [] => Fin (taxableSubtotal baseCalc)
    | _ => XDec.plus (Fin (taxableSubtotal baseCalc)) (fst split)
    end in
  let retailNonTaxable :=
    match groups with
    | [] => Fin (nonTaxableSubtotal baseCalc)
    | _ => XDec.plus (Fin (nonTaxableSubtotal baseCalc)) (snd split)
    end in
  let retail_mode := String.eqb mode "RETAIL" || String.eqb mode "MIXED" in
  let use_mode := String.eqb mode "USE_TAX" || String.eqb mode "MIXED" in
  let js :=
    match tax_config cfg with
    | Some tc => jurisdictions tc
    | None => []
    end in
  let sub :=
    if retail_mode
    then List.map
           (fun j =>
              let jRate := decimal (or_else (rate j) (Num 0)) in
              {| st_jurisdiction := txt_default (name j) "UNKNOWN";
                 st_rate := Q7 jRate;
                 st_amount := XDec.toDecimalPlaces 7 (XDec.times retailTaxableBase (Fin jRate)) |})
           js
    else [] in
  let retail :=
    if retail_mode
    then match js with
         | [] => XDec.toDecimalPlaces 7
                   (XDec.times retailTaxableBase (Fin (retailTaxRate_of cfg)))
         | _ => fold_left (fun sum s => XDec.plus sum (st_amount s)) sub (Fin 0)
         end
    else Fin 0 in
  let useBase := if use_mode then useTaxBase_of items else 0 in
  let useTax :=
    if use_mode && Dec.greaterThan (useTaxRate_of cfg) 0
    then Q7 (Dec.times useBase (useTaxRate_of cfg))
    else 0 in
  {| taxableBase := XDec.toDecimalPlaces 7 retailTaxableBase;
     nonTaxableTotal := XDec.toDecimalPlaces 7 retailNonTaxable;
     retailTax := XDec.toDecimalPlaces 7 retail;
     subTaxes := sub;
     useTaxAmount := Q7 useTax;
     useTaxBase := Q7 useBase;
     useTaxItems :=
       if use_mode
       then List.map id (List.filter use_tax_applies items)
       else this_useTaxItems;
     taxMode := mode |}.

(** *** calculate, phase 7: the grand totals *)

Definition grandTotals (baseCalc : BaseCalc) (modifierResult : ModifierResult)
    (taxResult : TaxResult) : GrandTotals :=
  let precise :=
    XDec.plus (XDec.plus (Fin (subtotal baseCalc)) (totalAdjustment modifierResult))
      (retailTax taxResult) in
  {| grandTotalPrecise := precise;
     customerGrandTotal := XDec.toFixed 2 precise;
     internalGrandTotal :=
       if String.eqb (taxMode taxResult) "MIXED"
       then XDec.toFixed 2 (XDec.plus precise (Fin (useTaxAmount taxResult)))
       else XDec.toFixed 2 precise |}.

(** Phases 1, 5, 6 and 7 of [calculate], for the sorted groups that
    phases 2 to 4 hand over. *)
Definition calculate_phases (host : Host) (items : list LineItem)
    (sortedGroups : list Group.t) (cfg : Config) (this_useTaxItems : list txt)
    : outcome (BaseCalc * ModifierResult * TaxResult * GrandTotals) :=
  let baseCalc := calculateBase items in
  do! modifierResult <- applyModifierGroups host sortedGroups (subtotal baseCalc) items;
  let taxResult :=
    calculateTax baseCalc modifierResult items sortedGroups cfg this_useTaxItems in
  Ok (baseCalc, modifierResult, taxResult, grandTotals baseCalc modifierResult taxResult).

End CompliantCalculationEngine.

(** ** CalculationResult.js: generateChecksum *)

Module CalculationResult.

(** The fields of a result that [generateChecksum] reads; [version] is
    the text of the number, [None] when it is [null]. *)
Record t := {
  proposalId : txt;
  version : txt;
  subtotalPrecise : string;
  modifierTotalPrecise : string;
  taxAmountPrecise : string;
  useTaxAmountPrecise : string;
  grandTotalPrecise : string
}.

Definition data (r : t) : list (string * json) :=
  [ ("proposalId"%string,
       match proposalId r with
       | Some s => JString s
       | None => JUndefined
       end);
    ("version"%string,
       match version r with
       | Some n => JNumber n
       | None => JNull
       end);
    ("precise"%string,
       JObject
         [ ("subtotal"%string, JString (subtotalPrecise r));
           ("modifiers"%string, JString (modifierTotalPrecise r));
           ("retailTax"%string, JString (taxAmountPrecise r));
           ("useTax"%string,
              JString (txt_default (Some (useTaxAmountPrecise r)) "0.0000000"));
           ("grandTotal"%string, JString (grandTotalPrecise r)) ]) ].

(** [JSON.stringify(obj, Object.keys(obj).sort())] *)
Definition canonicalize (props : list (string * json)) : string :=
  JSON.stringify (Some (JSON.sort_keys (JSON.keys props))) (JObject props).

Definition generateChecksum (host : Host) (r : t) : string :=
  sha256 host (canonicalize (data r)).

(** [setFinancialValue]: the precise text it stores for the text of a
    value, [strValue].  Texts are of ASCII characters.  The display
    value goes through the floating point numbers of the host and is
    not modelled. *)

Fixpoint includes_dot (s : string) : bool :=
  match s with
  | EmptyString => false
  | String c r => Ascii.eqb c "."%char || includes_dot r
  end.

(** [s.split('.')[0]], and the text after the first dot. *)
Fixpoint before_dot (s : string) : string :=
  match s with
  | EmptyString => EmptyString
  | String c r => if Ascii.eqb c "."%char then EmptyString else String c (before_dot r)
  end.

Fixpoint after_dot (s : string) : string :=
  match s with
  | EmptyString => EmptyString
  | String c r => if Ascii.eqb c "."%char then r else after_dot r
  end.

(** [s.padEnd(n, '0')] *)
Definition padEnd (n : nat) (s : string) : string :=
  s +:+ Dec.zeros (n - String.length s).

Definition precise_of (strValue : string) : string :=
  if includes_dot strValue
  then
    let parts0 := before_dot strValue in
    let parts1 := before_dot (after_dot strValue) in
    let decimals := String.substring 0 7 (padEnd 7 parts1) in
    parts0 +:+ "." +:+ decimals
  else strValue +:+ ".0000000".

(** [validate]: the check on the decimals of [grandTotalPrecise].
    [match_dot_digits s] is [s.match(/\.\d+$/)]: the leftmost dot that
    only digits, and at least one, follow to the end. *)

Definition is_digit (c : ascii) : bool :=
  let n := nat_of_ascii c in ((48 <=? n) && (n <=? 57))%nat.

Fixpoint all_digits (s : string) : bool :=
  match s with
  | EmptyString => true
  | String c r => is_digit c && all_digits r
  end.

Fixpoint match_dot_digits (s : string) : option string :=
  match s with
  | EmptyString => None
  | String c r =>
      if Ascii.eqb c "."%char && all_digits r && negb (String.eqb r EmptyString)
      then Some s
      else match_dot_digits r
  end.

Definition has_7_decimals (grandTotalPrecise : string) : bool :=
  match match_dot_digits grandTotalPrecise with
  | Some m => (String.length m =? 8)%nat
  | None => false
  end.

End CalculationResult.

(** ** SafeRuleEvaluator.js *)

Module SafeRuleEvaluator.

(** The values a rule sees.  An object carries an identity, which is what
    [===] compares, and its own properties.  Arrays, functions and the
    properties that a value inherits (those of [Object.prototype] on an
    object, the built-in ones of a primitive value) are outside the
    model. *)
Inductive value :=
| VUndefined
| VNull
| VBool (b : bool)
| VNumber (q : Q)
| VString (s : string)
| VObject (ident : nat) (props : list (string * value)).

Inductive node :=
| Comparison (op : string) (left right : node)
| Logical (op : txt) (left right : node)
| Literal (v : value)
| Field (path : txt)
| Unknown (type : string).

Definition limits_maxDepth : nat := 10.
Definition limits_maxOperations : nat := 1000.

(** A computation that reads and updates [this.operationCount] and may
    throw. *)
Definition M (A : Type) : Type := nat -> outcome A * nat.

Definition ret {A} (a : A) : M A := fun count => (Ok a, count).

Definition throw {A} (e : error) : M A := fun count => (Err e, count).

Definition bind {A B} (m : M A) (f : A -> M B) : M B :=
  fun count =>
    match m count with
    | (Ok a, count') => f a count'
    | (Err e, count') => (Err e, count')
    end.

(** JavaScript truthiness. *)
Definition is_truthy (v : value) : bool :=
  match v with
  | VUndefined => false
  | VNull => false
  | VBool b => b
  | VNumber q => negb (Qeq_bool q 0)
  | VString s => negb (String.eqb s EmptyString)
  | VObject _ _ => true
  end.

Definition is_nullish (v : value) : bool :=
  match v with
  | VUndefined => true
  | VNull => true
  | _ => false
  end.

(** *** getFieldValue *)

Fixpoint split_dot (s : string) (current : string) : list string :=
  match s with
  | EmptyString => [current]
  | String c r =>
      if Ascii.eqb c "."%char then current :: split_dot r EmptyString
      else split_dot r (current +:+ String c EmptyString)
  end.

Fixpoint lookup_prop (props : list (string * value)) (part : string) : value :=
  match props with
  | [] => VUndefined
  | (k, v) :: r => if String.eqb k part then v else lookup_prop r part
  end.

(** [value[part]] for a [part] that names no inherited property: the
    source follows the prototype chain, where a part such as
    [constructor] yields a function; such parts are outside the
    model. *)
Definition get_part (v : value) (part : string) : value :=
  match v with
  | VObject _ props => lookup_prop props part
  | _ => VUndefined
  end.

Fixpoint walk (parts : list string) (v : value) : value :=
  match parts with
  | [] => v
  | part :: r => if is_nullish v then VUndefined else walk r (get_part v part)
  end.

Definition getFieldValue (path : txt) (context : value) : value :=
  match path with
  | Some p =>
      if String.eqb p EmptyString then VUndefined
      else walk (split_dot p EmptyString) context
  | None => VUndefined
  end.

(** *** compare *)

Definition validOps : list string := ["=="; "!="; ">"; ">="; "<"; "<="]%string.

Definition is_bool (v : value) : bool :=
  match v with
  | VBool _ => true
  | _ => false
  end.

Definition is_string (v : value) : bool :=
  match v with
  | VString _ => true
  | _ => false
  end.

(** [left === right] *)
Definition strict_eq (a b : value) : bool :=
  match a, b with
  | VUndefined, VUndefined => true
  | VNull, VNull => true
  | VBool x, VBool y => Bool.eqb x y
  | VNumber x, VNumber y => Qeq_bool x y
  | VString x, VString y => String.eqb x y
  | VObject i _, VObject j _ => Nat.eqb i j
  | _, _ => false
  end.

(** [left == right] when one side is [null] or [undefined]. *)
Definition loose_eq_nullish (a b : value) : bool := is_nullish a && is_nullish b.

Definition by_order {A} (eqb ltb : A -> A -> bool) (op : string) (a b : A) : bool :=
  if String.eqb op "==" then eqb a b
  else if String.eqb op "!=" then negb (eqb a b)
  else if String.eqb op ">" then ltb b a
  else if String.eqb op ">=" then negb (ltb a b)
  else if String.eqb op "<" then ltb a b
  else if String.eqb op "<=" then negb (ltb b a)
  else false.

Definition by_equality (eqb : value -> value -> bool) (op : string) (a b : value) : bool :=
  if String.eqb op "==" then eqb a b
  else if String.eqb op "!=" then negb (eqb a b)
  else false.

Definition to_String (host : Host) (v : value) : string :=
  match v with
  | VUndefined => "undefined"
  | VNull => "null"
  | VBool true => "true"
  | VBool false => "false"
  | VNumber q => number_toString host q
  | VString s => s
  | VObject _ _ => "[object Object]"
  end.

Definition compare (host : Host) (left right : value) (op : string) : outcome value :=
  if negb (List.existsb (String.eqb op) validOps) then Err InvalidOperator
  else if is_nullish left || is_nullish right
  then Ok (VBool (by_equality loose_eq_nullish op left right))
  else if is_bool left || is_bool right
  then Ok (VBool (by_equality strict_eq op left right))
  else if is_string left || is_string right
  then Ok (VBool (by_order String.eqb String.ltb op
                    (to_String host left) (to_String host right)))
  else match left, right with
       | VNumber x, VNumber y =>
           Ok (VBool (by_order Qeq_bool (fun a b => negb (Qle_bool b a)) op x y))
       | _, _ =>
           (* an object on one side: [Number(object)] is NaN *)
           Ok (VBool (by_equality strict_eq op left right))
       end.

(** *** evalNode, evalComparison, evalLogical *)

Definition evalComparison_with (ev : node -> nat -> M value) (host : Host)
    (op : string) (l r : node) (depth : nat) : M value :=
  bind (ev l (depth + 1)%nat) (fun left =>
  bind (ev r (depth + 1)%nat) (fun right =>
  fun count => (compare host left right op, count))).

Definition evalLogical_with (ev : node -> nat -> M value)
    (op : txt) (l r : node) (depth : nat) : M value :=
  let op' := toUpperCase (txt_default op EmptyString) in
  if String.eqb op' "AND" then
    bind (ev l (depth + 1)%nat) (fun left =>
      if negb (is_truthy left) then ret (VBool false)
      else ev r (depth + 1)%nat)
  else if String.eqb op' "OR" then
    bind (ev l (depth + 1)%nat) (fun left =>
      if is_truthy left then ret (VBool true)
      else ev r (depth + 1)%nat)
  else throw InvalidOperator.

Fixpoint evalNode (host : Host) (context : value) (n : node) (depth : nat) : M value :=
  fun count =>
    if (limits_maxDepth <? depth)%nat then (Err RuleDepthExceeded, count)
    else
      let count := S count in
      if (limits_maxOperations <? count)%nat then (Err RuleOperationsExceeded, count)
      else
        match n with
        | Comparison op l r =>
            evalComparison_with (evalNode host context) host op l r depth count
        | Logical op l r =>
            evalLogical_with (evalNode host context) op l r depth count
        | Literal v => (Ok v, count)
        | Field path => (Ok (getFieldValue path context), count)
        | Unknown _ => (Err InvalidRuleType, count)
        end.

(** [evaluate] resets the counter and starts at depth 0; the second
    component is [this.operationCount] when it returns or throws. *)
Definition evaluate (host : Host) (rule : node) (context : value) : outcome value * nat :=
  evalNode host context rule 0 0%nat.

End SafeRuleEvaluator.

(** ** IdempotencyChecker.js *)

Module IdempotencyChecker.

Section Store.
Context {R : Type}.

(** [this.cache], a [Map] from checksum to stored result. *)
Definition check (cache : gmap string R) (key : string) : option R := cache !! key.

Definition store (cache : gmap string R) (key : string) (result : R) : gmap string R :=
  <[key := result]> cache.

End Store.

End IdempotencyChecker.

(** ** PostProcessor.js *)

Module PostProcessor.

(** What the post-processor reads of a result. *)
Record Result := {
  checksum : string;
  proposalId : txt;
  subtotal : string;
  total : txt;
  customerGrandTotal : string;
  modifierCount : nat
}.

Record Request := {
  req_proposalId : txt;
  req_proposal_id : txt
}.

(** The side effects of the tier, in the order they happen.
    [ResultUpserted] is a row of [calculation_results], [OutboxInserted]
    a row of [event_outbox].  [AuditUpserted] is a row of the audit table
    of the specification; no function of the tier writes one. *)
Inductive Effect :=
| ResultUpserted (proposal_id : txt) (row_subtotal : string) (row_total : txt)
    (row_checksum : string)
| AuditUpserted (audit_checksum : string)
| OutboxInserted (event_type : string) (aggregateId : txt) (payload : Result)
| CacheSet (key : string) (cached : Result)
| MetricRecorded (type : string)
| WebhookCalled (url : string) (event : string) (body : Result).

(** [db]: the rows and outbox events of committed transactions.
    [effects]: what happened outside the database. *)
Record World := {
  idempotency : gmap string Result;
  db : list Effect;
  effects : list Effect;
  webhooks : gmap string (list string)
}.

(** Which of the calls to the database and to the cache throw during one
    run of [process], and how the database handle behaves:
    [DataPersister.persist] sends its query through [this.db], not
    through the transaction object [tx], so whether its row belongs to
    the open transaction is up to the handle.  With
    [persist_outside_transaction] the row is committed on its own, as
    on a connection pool; without it, [this.db] is the connection that
    [beginTransaction] put in a transaction. *)
Record Faults := {
  beginTransaction_fails : bool;
  persist_fails : bool;
  outbox_fails : bool;
  cache_fails : bool;
  commit_fails : bool;
  persist_outside_transaction : bool
}.

Definition with_proposalId (result : Result) (request : Request) : Result :=
  {| checksum := checksum result;
     proposalId := txt_or (proposalId result)
                     (txt_or (req_proposalId request) (req_proposal_id request));
     subtotal := subtotal result;
     total := total result;
     customerGrandTotal := customerGrandTotal result;
     modifierCount := modifierCount result |}.

(** [DataPersister.persist] *)
Definition persist (result : Result) : Effect :=
  ResultUpserted (proposalId result) (subtotal result)
    (txt_or (total result) (Some (customerGrandTotal result)))
    (checksum result).

(** [EventOutbox.publishWithinTransaction] *)
Definition publishWithinTransaction (result : Result) : Effect :=
  OutboxInserted "calculation.completed" (proposalId result) result.

(** [WebhookTrigger.trigger]: one call per registered URL; a failing call
    is logged and swallowed. *)
Definition trigger (registered : gmap string (list string)) (event : string)
    (data : Result) : list Effect :=
  List.map (fun url => WebhookCalled url event data) (default [] (registered !! event)).

(** The world after a run that throws: the transaction is rolled back,
    which undoes the rows written through [tx]; [kept] are the rows
    written outside it. *)
Definition record_error (w : World) (kept out : list Effect) : World :=
  {| idempotency := idempotency w;
     db := db w ++ kept;
     effects := effects w ++ out ++ [MetricRecorded "error"];
     webhooks := webhooks w |}.

(** [process]: the response, or the error thrown, and the world after. *)
Definition process (faults : Faults) (result : Result) (request : Request)
    (w : World) : outcome Result * World :=
  let idempotencyKey := checksum result in
  match IdempotencyChecker.check (idempotency w) idempotencyKey with
  | Some existing => (Ok existing, w)
  | None =>
      if beginTransaction_fails faults then (Err DatabaseError, record_error w [] [])
      else
        let final := with_proposalId result request in
        if persist_fails faults then (Err DatabaseError, record_error w [] [])
        else
          let kept :=
            if persist_outside_transaction faults then [persist final] else [] in
          if outbox_fails faults then (Err DatabaseError, record_error w kept [])
          else if cache_fails faults then (Err DatabaseError, record_error w kept [])
          else
          let outside :=
            [CacheSet (checksum final) final; MetricRecorded "calculation"]
            ++ trigger (webhooks w) "calculation" final in
          if commit_fails faults then (Err DatabaseError, record_error w kept outside)
          else
            (Ok final,
             {| idempotency := IdempotencyChecker.store (idempotency w) idempotencyKey final;
                db := db w ++ [persist final; publishWithinTransaction final];
                effects := effects w ++ outside;
                webhooks := webhooks w |})
  end.

Definition is_upsert (e : Effect) : bool :=
  match e with
  | ResultUpserted _ _ _ _ => true
  | _ => false
  end.

Definition is_audit (e : Effect) : bool :=
  match e with
  | AuditUpserted _ => true
  | _ => false
  end.

Definition is_outbox (e : Effect) : bool :=
  match e with
  | OutboxInserted _ _ _ => true
  | _ => false
  end.

Definition count_where (p : Effect -> bool) (l : list Effect) : nat :=
  List.length (List.filter p l).

End PostProcessor.

(** ** WebhookTrigger (CalculationEngineFactory.js) *)

Module WebhookTrigger.

(** [addWebhook]: [this.webhooks] is a [Map] from event type to the URLs
    registered for it, in the order they were registered. *)
Definition addWebhook (registered : gmap string (list string)) (event url : string)
    : gmap string (list string) :=
  <[event := default [] (registered !! event) ++ [url]]> registered.

End WebhookTrigger.

(** ** EventOutbox.js

    One row of [event_outbox] and what the event bus has been given.  A
    call to the database or to the bus that throws is a fault of the
    run; times are milliseconds, and one run reads the clock once. *)

Module EventOutbox.

Inductive Status := PENDING | PROCESSING | COMPLETED | DEAD_LETTER.

Record Row := {
  event_type : string;
  payload : string;
  status : Status;
  retry_count : nat;
  max_retries : nat;
  next_retry_at : option Z;
  error_message : option string;
  processed_at : option Z
}.

(** Which of the calls of one run of [processEvent] throw, and the
    message of the error. *)
Record Faults := {
  mark_processing_fails : bool;
  emit_fails : bool;
  mark_completed_fails : bool;
  failure_update_fails : bool;
  dead_letter_fails : bool;
  error_text : string
}.

(** The row and what the event bus has been given, oldest first. *)
Definition State : Type := Row * list (string * string).

(** The [WHERE] clause of [fetchPendingEvents]. *)
Definition fetchable (now : Z) (row : Row) : bool :=
  match status row with
  | PENDING | PROCESSING =>
      match next_retry_at row with
      | None => true
      | Some t => (t <=? now)%Z
      end
  | _ => false
  end.

Definition updateEventStatus (s : Status) (now : Z) (row : Row) : Row :=
  {| event_type := event_type row;
     payload := payload row;
     status := s;
     retry_count := retry_count row;
     max_retries := max_retries row;
     next_retry_at := next_retry_at row;
     error_message := error_message row;
     processed_at :=
       match s with
       | COMPLETED => Some now
       | _ => processed_at row
       end |}.

(** [handleEventFailure]: the back-off is computed from the event as it
    was fetched, the count of the row is incremented in the table. *)
Definition handleEventFailure (event : Row) (now : Z) (message : string) (row : Row) : Row :=
  let newRetryCount := (retry_count event + 1)%nat in
  let backoffSeconds := (2 ^ Z.of_nat newRetryCount)%Z in
  {| event_type := event_type row;
     payload := payload row;
     status := PENDING;
     retry_count := (retry_count row + 1)%nat;
     max_retries := max_retries row;
     next_retry_at := Some (now + backoffSeconds * 1000)%Z;
     error_message := Some message;
     processed_at := processed_at row |}.

Definition moveToDeadLetter (row : Row) : Row :=
  {| event_type := event_type row;
     payload := payload row;
     status := DEAD_LETTER;
     retry_count := retry_count row;
     max_retries := max_retries row;
     next_retry_at := next_retry_at row;
     error_message := Some "Max retries exceeded"%string;
     processed_at := processed_at row |}.

(** The [catch] branch of [processEvent]. *)
Definition on_failure (f : Faults) (now : Z) (event : Row) (st : State)
    : outcome unit * State :=
  if failure_update_fails f then (Err DatabaseError, st)
  else (Ok tt, (handleEventFailure event now (error_text f) (fst st), snd st)).

(** [processEvent event], for the event as it was fetched and the row as
    it is in the table. *)
Definition processEvent (f : Faults) (now : Z) (event : Row) (st : State)
    : outcome unit * State :=
  let (row, bus) := st in
  match status event with
  | COMPLETED => (Ok tt, st)
  | _ =>
      if (max_retries event <=? retry_count event)%nat
      then
        if dead_letter_fails f then (Err DatabaseError, st)
        else (Ok tt, (moveToDeadLetter row, bus))
      else
        if mark_processing_fails f then on_failure f now event st
        else
          let row1 := updateEventStatus PROCESSING now row in
          if emit_fails f then on_failure f now event (row1, bus)
          else
            let bus1 := bus ++ [(event_type event, payload event)] in
            if mark_completed_fails f then on_failure f now event (row1, bus1)
            else (Ok tt, (updateEventStatus COMPLETED now row1, bus1))
  end.

(** One run of [processPendingEvents] as this row sees it: the row is
    processed when the [WHERE] clause selects it. *)
Definition pass (f : Faults) (now : Z) (st : State) : State :=
  if fetchable now (fst st) then snd (processEvent f now (fst st) st) else st.

Definition passes (rounds : list (Faults * Z)) (st : State) : State :=
  fold_left (fun st r => pass (fst r) (snd r) st) rounds st.

End EventOutbox.

(** ** The archived engine: exclusions and rules

    [processExclusions] and [evaluateRules] of the compliant engine. *)

Module CompliantPhases.

Import CompliantCalculationEngine.



(** *** processExclusions

    [excludeMap] and [rejectedReasons] are objects used as maps from
    modifier ids; an id that names a property of [Object.prototype] is
    outside the model. *)








(** *** evaluateRules

    [evaluateRule rule context], for the context at hand, is a parameter:
    it compares values of the context with the loose operators of the
    host, and answers with a boolean. *)

Record Stats := { evaluated : nat; passed_count : nat; failed_count : nat }.

Record RuleResult := {
  passed : list Mod.t;
  failed : list Mod.t;
  stats : Stats
}.

Section Rules.
Context {Rule : Type} (rule_modifier_id : Rule -> txt) (evaluateRule : Rule -> bool).

(** The inner loop: the rules are evaluated until the first that fails. *)
Fixpoint run_rules (modifierRules : list Rule) (evaluated : nat) : bool * nat :=
  match modifierRules with
  | [] => (true, evaluated)
  | rule :: rest =>
      if negb (evaluateRule rule) then (false, S evaluated)
      else run_rules rest (S evaluated)
  end.

Definition rules_of (rules : list Rule) (modifier : Mod.t) : list Rule :=
  List.filter (fun r => txt_is (rule_modifier_id r) (Mod.id modifier)) rules.

Definition rule_step (rules : list Rule) (acc : RuleResult) (modifier : Mod.t) : RuleResult :=
  match rules_of rules modifier with
  | [] =>
      {| passed := passed acc ++ [modifier];
         failed := failed acc;
         stats := {| evaluated := evaluated (stats acc);
                     passed_count := S (passed_count (stats acc));
                     failed_count := failed_count (stats acc) |} |}
  | modifierRules =>
      let (allRulesPass, n) := run_rules modifierRules (evaluated (stats acc)) in
      if allRulesPass
      then {| passed := passed acc ++ [modifier];
              failed := failed acc;
              stats := {| evaluated := n;
                          passed_count := S (passed_count (stats acc));
                          failed_count := failed_count (stats acc) |} |}
      else {| passed := passed acc;
              failed := failed acc ++ [modifier];
              stats := {| evaluated := n;
                          passed_count := passed_count (stats acc);
                          failed_count := S (failed_count (stats acc)) |} |}
  end.

Definition evaluateRules (modifiers : list Mod.t) (rules : list Rule) : RuleResult :=
  let zero := {| evaluated := 0; passed_count := 0; failed_count := 0 |} in
  match rules with
  | [] => {| passed := modifiers; failed := []; stats := zero |}
  | _ => fold_left (rule_step rules) modifiers
           {| passed := []; failed := []; stats := zero |}
  end.

End Rules.

End CompliantPhases.

(** ** The archived engine: sortGroups *)

Module CompliantSorting.












End CompliantSorting.

(** ** Quantities the statements below speak of *)

Module Statements.

Import PureCalculationEngine.

(** The sum of the recorded 7-place amounts of a list of adjustments. *)
Definition sum_amounts (l : list Adjustment) : Q :=
  fold_right (fun a s => amount_decimal a + s) 0 l.

(** The sum of the magnitudes of a list of amounts. *)
Definition sum_abs (l : list Q) : Q := fold_right (fun x s => Qabs x + s) 0 l.

(** Below this bound a sum of 7-place decimals has at most 40
    significant digits, and decimal.js adds without rounding. *)
Definition exact_below : Q := 10 ^ 33.

(** [x] has at most 40 significant digits. *)
Definition has_40_digits (x : Q) : Prop :=
  exists n s : Z, x == inject_Z n * 10 ^ (- s) /\ (Z.abs n < 10 ^ 40)%Z.

(** The magnitude of what a state holds: of its base subtotal, of each
    of its recorded adjustments and of its retail tax. *)
Definition magnitude (st : State) : Q :=
  Qabs (baseSubtotal st) + sum_abs (List.map amount_decimal (adjustments st))
  + Qabs (retailTaxAmount st).


(** A group like [g] whose only modifier carries the value [v]. *)
Definition single_modifier (v : Q) : Mod.t :=
  {| Mod.id := "sum";
     Mod.value := Str v;
     Mod.percent := Absent;
     Mod.fixed_amount := Absent;
     Mod.chain_priority := Num 999;
     Mod.application_type := None;
     Mod.modifier_type := None;
     Mod.tax_setting := None;
     Mod.line_item_id := None;
     Mod.category := None;
     Mod.affects_quantity := false;
     Mod.cost_percentage := Absent;
     Mod.display_mode := None;
     Mod.product_id := None |}.

Definition with_single_modifier (g : Group.t) (v : Q) : Group.t :=
  {| Group.id := Group.id g;
     Group.key := Group.key g;
     Group.modifiers := [single_modifier v];
     Group.modifier_type := Group.modifier_type g;
     Group.application_type := Group.application_type g;
     Group.attributes := Group.attributes g;
     Group.percent := Group.percent g;
     Group.value := Group.value g;
     Group.fixed_amount := Group.fixed_amount g |}.

(** The additive sum of the values of the modifiers of a group. *)
Definition sum_of_values (g : Group.t) : Q :=
  sum_decimals (fun m => decimal (or_else (Mod.value m) (Str 0))) (Group.modifiers g).

(** The groups [calculate] applies for an input. *)
Definition applied_groups (host : Host) (input : Input) : list Group.t :=
  n_preTaxGroups (normalizeInput host input) ++ n_postTaxGroups (normalizeInput host input).

(** Follows the words of the specification: the base of a percentage
    group is the subtotal restricted to the lines of the group's tax
    setting, and the margin delta of a line is computed without rounding
    the new price. *)
Definition spec_partition_subtotal (setting : string) (items : list LineItem) : Q :=
  fold_right
    (fun item s =>
       if String.eqb (taxSetting item) setting then unitPrice item * quantity item + s else s)
    0 items.

Definition spec_percentage_adjustment (setting : string) (rate : Q)
    (items : list LineItem) : Q :=
  Q7 (spec_partition_subtotal setting items * rate / 100).


(** The sum of a list of recorded 7-place amounts. *)
Definition sum_recorded (l : list Q) : Q := fold_right Qplus 0 l.

(** The sum of the allocations of a fixed group of the compliant engine. *)
Definition sum_allocations (l : list CompliantCalculationEngine.Allocation) : Q :=
  fold_right
    (fun a s => Dec.of_units 7 (CompliantCalculationEngine.allocation_precise a) + s) 0 l.

(** The allocations as decimals. *)
Definition allocation_amounts (l : list CompliantCalculationEngine.Allocation) : list Q :=
  List.map (fun a => Dec.of_units 7 (CompliantCalculationEngine.allocation_precise a)) l.

(** *** Input validation *)

(** What [validateInput] asks of an input, in the order it asks. *)
Definition within_limits (input : Input) : Prop :=
  exists items mods cfg,
    lineItems input = Some items /\
    modifiers input = Some mods /\
    config input = Some cfg /\
    txt_truthy (schemaVersion cfg) = true /\
    (List.length mods <= limits_maxModifiers)%nat /\
    (List.length items <= limits_maxLineItems)%nat /\
    (dependencies input <> [] ->
     exists depth,
       calculateDependencyDepth (dependencies input) = Some depth /\
       (depth <= limits_maxDependencyDepth)%nat) /\
    List.NoDup (List.map Mod.id mods).

Definition requires (modifier_id depends_on : string) : Dep.t :=
  {| Dep.modifier_id := modifier_id; Dep.depends_on := depends_on; Dep.type := "REQUIRES" |}.

(** The chain of dependencies in which each name requires the one before
    it. *)
Fixpoint chain (names : list string) : list Dep.t :=
  match names with
  | a :: (b :: _) as rest => requires b a :: chain rest
  | _ => []
  end.

(** The name that follows [a] in a list of names, if there is one. *)
Fixpoint next_of (a : string) (names : list string) : list string :=
  match names with
  | x :: (y :: _) as rest => if String.eqb x a then [y] else next_of a rest
  | _ => []
  end.

(** *** Grouping *)

(** The key [groupModifiers] files a modifier under. *)
Definition key_of (host : Host) (items : list LineItem) (m : Mod.t) : string :=
  group_key host (resolveModifierTaxSetting m items) m.

(** A group holds a modifier, and every modifier it holds has its key. *)
Definition well_formed (host : Host) (items : list LineItem) (g : Group.t) : Prop :=
  Group.modifiers g <> [] /\
  Forall (fun m => key_of host items m = Group.key g) (Group.modifiers g).

(** *** Taxes *)




(** [calculateTaxes] takes the line as taxable. *)
Definition marked_taxable (item : LineItem) : bool :=
  String.eqb (toUpperCase (txt_default (Some (taxSetting item)) "TAXABLE")) "TAXABLE".

(** The line with other values of the flags that the specification's
    samples spell [useTaxEligible] and [vendorTaxCollected]. *)
Definition with_worded_flags (item : Raw.LineItem) (eligible collected : bool)
    : Raw.LineItem :=
  {| Raw.line_item_id := Raw.line_item_id item;
     Raw.id := Raw.id item;
     Raw.unit_price := Raw.unit_price item;
     Raw.unitPrice := Raw.unitPrice item;
     Raw.price := Raw.price item;
     Raw.quantity := Raw.quantity item;
     Raw.cost := Raw.cost item;
     Raw.tax_setting := Raw.tax_setting item;
     Raw.taxSetting := Raw.taxSetting item;
     Raw.use_tax_eligible := Raw.use_tax_eligible item;
     Raw.useTaxEligible := eligible;
     Raw.vendorTaxCollected := collected |}.

(** The 7-place totals of a list of fixed groups, and their sum. *)
Definition fixed_amounts (gs : list Group.t) : list Q :=
  List.map (fun g => Q7 (totalFixed g)) gs.

Definition sum_fixed (gs : list Group.t) : Q :=
  fold_right (fun g s => Q7 (totalFixed g) + s) 0 gs.

(** The unit prices of the lines [calculateTaxes] takes as taxable, each
    at one unit (the product as decimal.js computes it) and rounded to 7
    places, summed. *)
Definition one_unit (item : LineItem) : Q := Q7 (Dec.times (unitPrice item) 1).

Definition sum_taxable_unit_prices (items : list LineItem) : Q :=
  fold_right (fun item s => if marked_taxable item then one_unit item + s else s) 0 items.

(** The input with another use tax rate. *)
Definition with_use_tax_rate (input : Input) (r : jsnum) : Input :=
  {| lineItems := lineItems input;
     modifiers := modifiers input;
     dependencies := dependencies input;
     preTaxGroups := preTaxGroups input;
     postTaxGroups := postTaxGroups input;
     config :=
       match config input with
       | Some cfg =>
           Some {| schemaVersion := schemaVersion cfg;
                   tax_rate := tax_rate cfg;
                   use_tax_rate := r;
                   tax_mode := tax_mode cfg;
                   jurisdictions := jurisdictions cfg |}
       | None => None
       end |}.

Definition same_but_use_tax (s1 s2 : State) : Prop :=
  baseSubtotal s1 = baseSubtotal s2 /\
  runningSubtotal s1 = runningSubtotal s2 /\
  adjustments s1 = adjustments s2 /\
  retailTaxAmount s1 = retailTaxAmount s2.

(** *** Canonical form *)

Definition key_lt (a b : string * json) : bool := String.ltb (fst a) (fst b).

Definition key_sorted : list (string * json) -> Prop :=
  StronglySorted (fun a b => key_lt a b = true).

(** A property after [canonicalize] went through its value. *)
Definition canon_prop (kv : string * json) : string * json :=
  (fst kv, canonicalize (snd kv)).

(** An object has each of its keys once, at every depth. *)
Fixpoint unique_keys (v : json) : Prop :=
  match v with
  | JArray items => fold_right (fun x P => unique_keys x /\ P) True items
  | JObject props =>
      List.NoDup (List.map fst props) /\
      fold_right (fun kv P => unique_keys (snd kv) /\ P) True props
  | _ => True
  end.

Fixpoint json_size (v : json) : nat :=
  match v with
  | JArray items => S (fold_right (fun x n => (json_size x + n)%nat) 0%nat items)
  | JObject props => S (fold_right (fun kv n => (json_size (snd kv) + n)%nat) 0%nat props)
  | _ => 1%nat
  end.

(** *** The rule evaluator *)

Section OfTheRuleEvaluator.

Import SafeRuleEvaluator.

(** The boolean a comparison returned. *)
Definition as_bool (r : outcome value) : option bool :=
  match r with
  | Ok (VBool b) => Some b
  | _ => None
  end.

(** The node evaluated at [depth] with the counter at [count] passes
    both guards of [evalNode]. *)
Definition within_the_limits (depth count : nat) : Prop :=
  (depth <= limits_maxDepth)%nat /\ (count < limits_maxOperations)%nat.



Fixpoint has_dot (s : string) : bool :=
  match s with
  | EmptyString => false
  | String c r => Ascii.eqb c "."%char || has_dot r
  end.

(** The object that holds [v] under the nested path [parts]. *)
Fixpoint nested (parts : list string) (v : value) : value :=
  match parts with
  | [] => v
  | p :: r => VObject 0 [(p, nested r v)]
  end.

End OfTheRuleEvaluator.

(** *** The post-processor and the outbox *)

Definition all_succeed (faults : PostProcessor.Faults) : Prop :=
  PostProcessor.beginTransaction_fails faults = false /\
  PostProcessor.persist_fails faults = false /\
  PostProcessor.outbox_fails faults = false /\
  PostProcessor.cache_fails faults = false /\
  PostProcessor.commit_fails faults = false.

(** The URLs registered one after the other, each for its event. *)
Definition register_all (registrations : list (string * string))
    (registered : gmap string (list string)) : gmap string (list string) :=
  fold_left (fun r eu => WebhookTrigger.addWebhook r (fst eu) (snd eu))
    registrations registered.

Section OfTheOutbox.

Import EventOutbox.

(** What the runs of the outbox keep of a row that had [retry0] retries
    when the count began: the bus was given the event at most once per
    retry since, and once more when the row is completed. *)
Definition outbox_inv (retry0 : nat) (st : State) : Prop :=
  let (row, bus) := st in
  (retry0 <= retry_count row)%nat /\
  (retry_count row <= Nat.max retry0 (max_retries row))%nat /\
  match status row with
  | COMPLETED =>
      (List.length bus <= (retry_count row - retry0) + 1)%nat /\
      (retry_count row < max_retries row)%nat
  | _ => (List.length bus <= retry_count row - retry0)%nat
  end.

(** Some call of the run before the row is marked completed throws. *)
Definition delivery_fails (f : Faults) : bool :=
  mark_processing_fails f || emit_fails f || mark_completed_fails f.

End OfTheOutbox.

(** *** The archived engine *)

Section OfTheCompliantPhases.

Import CompliantPhases.




(** Every rule of the modifier holds. *)
Definition all_rules_pass {Rule : Type} (rule_modifier_id : Rule -> txt)
    (evaluateRule : Rule -> bool) (rules : list Rule)
    (m : CompliantCalculationEngine.Mod.t) : bool :=
  forallb evaluateRule (rules_of rule_modifier_id rules m).

End OfTheCompliantPhases.

Section OfTheCompliantSorting.

Import CompliantSorting.





End OfTheCompliantSorting.


End Statements.

(** ** Sample inputs *)

Module Samples.

Import PureCalculationEngine.

(** A stand-in for the host functions, to run the model on samples:
    the digest is the text itself, [String(n)] prints the nearest
    integer, strings compare by their code units and numbers subtract
    exactly.  What is computed with it is the model under this
    stand-in: the keys and the order of groups, modifiers and
    jurisdictions, and through the order the amounts, are those of the
    host only where the stand-in agrees with it on the numbers printed
    and the identifiers compared. *)
Definition sample_host : Host :=
  {| sha256 := fun s => s;
     number_toString := fun q => Dec.toFixed 0 q;
     localeCompare := String.compare;
     number_minus := Qminus |}.

Definition line (i : string) (p q : Q) (c : jsnum) (ts : txt) (ute : bool) : Raw.LineItem :=
  {| Raw.line_item_id := None;
     Raw.id := Some i;
     Raw.unit_price := Absent;
     Raw.unitPrice := Str p;
     Raw.price := Absent;
     Raw.quantity := Num q;
     Raw.cost := c;
     Raw.tax_setting := None;
     Raw.taxSetting := ts;
     Raw.use_tax_eligible := ute;
     Raw.useTaxEligible := false;
     Raw.vendorTaxCollected := false |}.

Definition modifier (i kind : string) (v : Q) (app : txt) : Mod.t :=
  {| Mod.id := i;
     Mod.value := Str v;
     Mod.percent := Absent;
     Mod.fixed_amount := Absent;
     Mod.chain_priority := Absent;
     Mod.application_type := app;
     Mod.modifier_type := Some kind;
     Mod.tax_setting := None;
     Mod.line_item_id := None;
     Mod.category := None;
     Mod.affects_quantity := false;
     Mod.cost_percentage := Absent;
     Mod.display_mode := None;
     Mod.product_id := None |}.

Definition tax_config (mode : string) (retail use : Q) : Config :=
  {| schemaVersion := Some "1.0"%string;
     tax_rate := Str retail;
     use_tax_rate := Str use;
     tax_mode := Some mode;
     jurisdictions := [] |}.

Definition request (items : list Raw.LineItem) (mods : list Mod.t) (cfg : Config) : Input :=
  {| lineItems := Some items;
     modifiers := Some mods;
     dependencies := [];
     preTaxGroups := [];
     postTaxGroups := [];
     config := Some cfg |}.

(** Two lines, one taxable and one not, a 10% discount before tax and a
    fixed fee after tax. *)
Definition mixed_request : Input :=
  request
    [ line "a" 150 2 Absent (Some "TAXABLE"%string) false;
      line "b" 75 3 Absent (Some "NON_TAXABLE"%string) false ]
    [ modifier "d" "percentage" (-10) (Some "pre_tax"%string);
      modifier "f" "fixed" 25 (Some "post_tax"%string) ]
    (tax_config "RETAIL" (875 # 10000) 0).

(** One taxable and one non-taxable line of 100.00 each, and a taxable
    group of 10%. *)
Definition two_lines : list LineItem :=
  List.map normalizeLineItem
    [ line "a" 100 1 Absent (Some "TAXABLE"%string) false;
      line "b" 100 1 Absent (Some "NON_TAXABLE"%string) false ].

Definition taxable_ten_percent : Group.t :=
  match groupModifiers sample_host [modifier "p" "percentage" 10 None] two_lines with
  | g :: _ => g
  | [] => new_group EmptyString EmptyString (modifier "p" "percentage" 10 None)
  end.

(** The use-tax sample: one line of price 0.00 and cost 1000.00, eligible
    for use tax, use tax rate 0.08. *)
Definition use_tax_request (mode : string) : Input :=
  request [ line "a" 0 1 (Str 1000) None true ] []
    {| schemaVersion := Some "1.0"%string;
       tax_rate := Absent;
       use_tax_rate := Str (8 # 100);
       tax_mode := Some mode;
       jurisdictions := [] |}.

(** The line of the use-tax sample as the specification words it: the
    flags are spelled [useTaxEligible] and [vendorTaxCollected]. *)
Definition line_as_worded : Raw.LineItem :=
  {| Raw.line_item_id := None;
     Raw.id := None;
     Raw.unit_price := Absent;
     Raw.unitPrice := Str 0;
     Raw.price := Absent;
     Raw.quantity := Num 1;
     Raw.cost := Str 1000;
     Raw.tax_setting := None;
     Raw.taxSetting := None;
     Raw.use_tax_eligible := false;
     Raw.useTaxEligible := true;
     Raw.vendorTaxCollected := false |}.

Definition use_tax_request_as_worded (mode : string) : Input :=
  request [ line_as_worded ] []
    {| schemaVersion := Some "1.0"%string;
       tax_rate := Absent;
       use_tax_rate := Str (8 # 100);
       tax_mode := Some mode;
       jurisdictions := [] |}.

(** A line of 10^39 and a fixed amount of 0.40 before tax, no tax. *)
Definition huge_request : Input :=
  request [ line "a" (inject_Z (10 ^ 39)) 1 Absent (Some "TAXABLE"%string) false ]
    [ modifier "f" "fixed" (4 # 10) (Some "pre_tax"%string) ]
    (tax_config "RETAIL" 0 0).

(** A line of cost 1.00 and price 0.00, three units, and margin groups. *)
Definition margin_lines : list LineItem :=
  List.map normalizeLineItem [ line "a" 0 3 (Str 1) None false ].

Definition sample_group (kind : string) (values : list Q) : Group.t :=
  {| Group.id := "group-" +:+ kind;
     Group.key := kind;
     Group.modifiers := List.map (fun v => modifier "m" kind v None) values;
     Group.modifier_type := Some kind;
     Group.application_type := Some "pre_tax"%string;
     Group.attributes := None;
     Group.percent := Absent;
     Group.value := Absent;
     Group.fixed_amount := Absent |}.

Definition margin_group (values : list Q) : Group.t := sample_group "margin" values.

Definition margin_request (value : Q) : Input :=
  request [ line "a" 100 1 (Str 60) None false ]
    [ modifier "m" "margin" value None ] (tax_config "RETAIL" 0 0).

(** A line whose tax setting is neither TAXABLE nor NON_TAXABLE. *)
Definition exempt_request : Input :=
  request [ line "a" 100 1 Absent (Some "exempt"%string) false ] []
    (tax_config "RETAIL" (1 # 10) 0).

(** The same samples for the compliant engine. *)
Module C.

Import CompliantCalculationEngine.

Definition line (i : string) (p q : Q) (c : jsnum) (ts : txt) (ute : bool) : LineItem :=
  {| line_item_id := Some i;
     id := Some i;
     unit_price := Str p;
     unitPrice := Absent;
     price := Absent;
     quantity := Num q;
     cost := c;
     tax_setting := ts;
     use_tax_eligible := ute;
     vendor_tax_collected := false;
     useTaxEligible := false;
     vendorTaxCollected := false |}.

Definition fixed_modifier (i : string) (v : jsnum) : Mod.t :=
  {| Mod.id := i;
     Mod.percent := Absent;
     Mod.fixed_amount := v;
     Mod.chain_priority := Absent;
     Mod.missing_cost_strategy := None;
     Mod.default_cost_pct := Absent;
     Mod.target_margin := Absent |}.

Definition fixed_group (mods : list Mod.t) : Group.t :=
  {| Group.key := "taxable|fixed";
     Group.attributes :=
       {| Attr.modifier_type := Some "fixed"%string;
          Attr.tax_setting := Some "taxable"%string;
          Attr.application_type := Some "pre_tax"%string |};
     Group.modifiers := mods |}.

Definition legacy_config (mode : string) (retail use : Q) : Config :=
  {| tax_config := None;
     tax_rate := Str retail;
     use_tax_rate := Str use;
     tax_mode := Some mode |}.

(** A line of price 0.00, and a fixed amount of 25.00 to allocate. *)
Definition zero_priced : list LineItem := [ line "a" 0 1 Absent None false ].

Definition fee_25 : Group.t := fixed_group [ fixed_modifier "f" (Str 25) ].

(** Lines of 100.00 and 200.00, and a fixed amount of 10.00. *)
Definition two_priced : list LineItem :=
  [ line "a" 100 1 Absent None false; line "b" 200 1 Absent None false ].

Definition fee_10 : Group.t := fixed_group [ fixed_modifier "f" (Str 10) ].

(** A taxable line of 100.00 and a non-taxable line of 200.00. *)
Definition tagged_lines : list LineItem :=
  [ line "a" 100 1 Absent (Some "TAXABLE"%string) false;
    line "b" 200 1 Absent (Some "NON_TAXABLE"%string) false ].

Definition percent_group (setting : string) (v : Q) : Group.t :=
  {| Group.key := setting +:+ "|percentage";
     Group.attributes :=
       {| Attr.modifier_type := Some "percentage"%string;
          Attr.tax_setting := Some setting;
          Attr.application_type := Some "pre_tax"%string |};
     Group.modifiers :=
       [ {| Mod.id := "p";
            Mod.percent := Num v;
            Mod.fixed_amount := Absent;
            Mod.chain_priority := Absent;
            Mod.missing_cost_strategy := None;
            Mod.default_cost_pct := Absent;
            Mod.target_margin := Absent |} ] |}.

(** The use-tax sample. *)
Definition use_tax_lines : list LineItem := [ line "a" 0 1 (Str 1000) None true ].

(** The use-tax sample with its flags spelled as the specification
    spells them. *)
Definition use_tax_lines_as_worded : list LineItem :=
  [ {| line_item_id := None;
       id := None;
       unit_price := Absent;
       unitPrice := Str 0;
       price := Absent;
       quantity := Num 1;
       cost := Str 1000;
       tax_setting := None;
       use_tax_eligible := false;
       vendor_tax_collected := false;
       useTaxEligible := true;
       vendorTaxCollected := false |} ].

(** A line of 0.0049999 and two fixed groups of 0.00000004 each. *)
Definition half_cent_line : list LineItem :=
  [ line "a" (49999 # 10000000) 1 Absent None false ].

Definition tiny_fees : list Group.t :=
  [ fixed_group [ fixed_modifier "f" (Str (4 # 100000000)) ];
    fixed_group [ fixed_modifier "g" (Str (4 # 100000000)) ] ].

(** A line whose tax setting is neither TAXABLE nor NON_TAXABLE. *)
Definition exempt_line : LineItem := line "a" 100 1 Absent (Some "exempt"%string) false.

End C.

(** Two results of the same proposal and version with different totals. *)
Definition result_of_100 : CalculationResult.t :=
  {| CalculationResult.proposalId := Some "p1"%string;
     CalculationResult.version := Some "1"%string;
     CalculationResult.subtotalPrecise := "100.0000000";
     CalculationResult.modifierTotalPrecise := "0.0000000";
     CalculationResult.taxAmountPrecise := "0.0000000";
     CalculationResult.useTaxAmountPrecise := "0.0000000";
     CalculationResult.grandTotalPrecise := "100.0000000" |}.

Definition result_of_200 : CalculationResult.t :=
  {| CalculationResult.proposalId := Some "p1"%string;
     CalculationResult.version := Some "1"%string;
     CalculationResult.subtotalPrecise := "200.0000000";
     CalculationResult.modifierTotalPrecise := "0.0000000";
     CalculationResult.taxAmountPrecise := "0.0000000";
     CalculationResult.useTaxAmountPrecise := "0.0000000";
     CalculationResult.grandTotalPrecise := "200.0000000" |}.

(** Rules: a chain of [n] nested comparisons, and a full tree of
    comparisons of height [n]. *)
Fixpoint nested_rule (n : nat) : SafeRuleEvaluator.node :=
  match n with
  | O => SafeRuleEvaluator.Literal (SafeRuleEvaluator.VBool true)
  | S n' =>
      SafeRuleEvaluator.Comparison "=="
        (nested_rule n') (SafeRuleEvaluator.Literal (SafeRuleEvaluator.VBool true))
  end.

Fixpoint full_rule (n : nat) : SafeRuleEvaluator.node :=
  match n with
  | O => SafeRuleEvaluator.Literal (SafeRuleEvaluator.VBool true)
  | S n' => SafeRuleEvaluator.Comparison "==" (full_rule n') (full_rule n')
  end.

(** A result handed to the post-processor, and a world in which nothing
    has been stored yet. *)
Definition computed_result : PostProcessor.Result :=
  {| PostProcessor.checksum := "c0ffee";
     PostProcessor.proposalId := None;
     PostProcessor.subtotal := "200.00";
     PostProcessor.total := None;
     PostProcessor.customerGrandTotal := "220.00";
     PostProcessor.modifierCount := 0 |}.

Definition sample_request : PostProcessor.Request :=
  {| PostProcessor.req_proposalId := Some "p1"%string;
     PostProcessor.req_proposal_id := None |}.

Definition fresh_world : PostProcessor.World :=
  {| PostProcessor.idempotency := ∅;
     PostProcessor.db := [];
     PostProcessor.effects := [];
     PostProcessor.webhooks :=
       {[ "calculation"%string := ["https://example.test/hook"%string] ]} |}.

Definition no_faults : PostProcessor.Faults :=
  {| PostProcessor.beginTransaction_fails := false;
     PostProcessor.persist_fails := false;
     PostProcessor.outbox_fails := false;
     PostProcessor.cache_fails := false;
     PostProcessor.commit_fails := false;
     PostProcessor.persist_outside_transaction := false |}.

(** Two modifiers that require each other, and a chain of eleven
    modifiers in which each requires the one before it. *)
Definition cycle_of_two : list Dep.t :=
  [ Statements.requires "a" "b"; Statements.requires "b" "a" ].

Definition eleven_names : list string :=
  [ "a"; "b"; "c"; "d"; "e"; "f"; "g"; "h"; "i"; "j"; "k" ]%string.

Definition chained_request : Input :=
  {| lineItems := Some [];
     modifiers := Some [];
     dependencies := Statements.chain eleven_names;
     preTaxGroups := [];
     postTaxGroups := [];
     config := Some (tax_config "RETAIL" 0 0) |}.

(** A state with a running subtotal of 100.00, and two fixed groups. *)
Definition state_of_100 : State :=
  {| baseSubtotal := 100;
     runningSubtotal := 100;
     adjustments := [];
     retailTaxAmount := 0;
     useTaxAmount := 0 |}.

Definition state_of_0 : State :=
  {| baseSubtotal := 0;
     runningSubtotal := 0;
     adjustments := [];
     retailTaxAmount := 0;
     useTaxAmount := 0 |}.

Definition fixed_five_then_seven : list Group.t :=
  [ sample_group "fixed" [5]; sample_group "fixed" [7; 1] ].

Definition fixed_seven_then_five : list Group.t :=
  [ sample_group "fixed" [7; 1]; sample_group "fixed" [5] ].


(** Two lines without a quantity, one taxable at 100.00 and one
    non-taxable at 50.00. *)
Definition zero_quantity_lines : list LineItem :=
  List.map normalizeLineItem
    [ line "a" 100 0 Absent (Some "TAXABLE"%string) false;
      line "b" 50 0 Absent (Some "NON_TAXABLE"%string) false ].

(** The same object written with its keys in two orders, at two depths. *)
Definition unordered_props : list (string * json) :=
  [ ("b"%string, JNumber "1");
    ("a"%string, JObject [ ("y"%string, JNull); ("x"%string, JBool true) ]) ].

Definition reordered_props : list (string * json) :=
  [ ("a"%string, JObject [ ("x"%string, JBool true); ("y"%string, JNull) ]);
    ("b"%string, JNumber "1") ].

(** A run of the post-processor in which the commit fails. *)
Definition commit_fault : PostProcessor.Faults :=
  {| PostProcessor.beginTransaction_fails := false;
     PostProcessor.persist_fails := false;
     PostProcessor.outbox_fails := false;
     PostProcessor.cache_fails := false;
     PostProcessor.commit_fails := true;
     PostProcessor.persist_outside_transaction := false |}.

(** A run in which the insert into the outbox fails, on a database
    handle that runs the query of [persist] outside the transaction. *)
Definition outbox_fault_on_a_pool : PostProcessor.Faults :=
  {| PostProcessor.beginTransaction_fails := false;
     PostProcessor.persist_fails := false;
     PostProcessor.outbox_fails := true;
     PostProcessor.cache_fails := false;
     PostProcessor.commit_fails := false;
     PostProcessor.persist_outside_transaction := true |}.

(** A row of the outbox that may be retried three times, a run in which
    the event bus throws and a run in which nothing does. *)
Definition pending_row : EventOutbox.Row :=
  {| EventOutbox.event_type := "calculation.completed";
     EventOutbox.payload := "p1";
     EventOutbox.status := EventOutbox.PENDING;
     EventOutbox.retry_count := 0;
     EventOutbox.max_retries := 3;
     EventOutbox.next_retry_at := None;
     EventOutbox.error_message := None;
     EventOutbox.processed_at := None |}.

Definition bus_down : EventOutbox.Faults :=
  {| EventOutbox.mark_processing_fails := false;
     EventOutbox.emit_fails := true;
     EventOutbox.mark_completed_fails := false;
     EventOutbox.failure_update_fails := false;
     EventOutbox.dead_letter_fails := false;
     EventOutbox.error_text := "bus down" |}.

Definition all_well : EventOutbox.Faults :=
  {| EventOutbox.mark_processing_fails := false;
     EventOutbox.emit_fails := false;
     EventOutbox.mark_completed_fails := false;
     EventOutbox.failure_update_fails := false;
     EventOutbox.dead_letter_fails := false;
     EventOutbox.error_text := EmptyString |}.

End Samples.

(** * Properties *)

(** ** Rounding *)

Section RoundingFacts.

Lemma pow10_pos dp : (0 < Dec.pow10 dp)%Z.
Proof. unfold Dec.pow10. apply Z.pow_pos_nonneg; lia. Qed.

Lemma pow10_Q_pos dp : 0 < inject_Z (Dec.pow10 dp).
Proof.
  replace 0 with (inject_Z 0) by reflexivity.
  rewrite <- Zlt_Qlt. apply pow10_pos.
Qed.

Lemma pow10_Q_nonzero dp : ~ inject_Z (Dec.pow10 dp) == 0.
Proof. intro H. pose proof (pow10_Q_pos dp) as P. rewrite H in P. discriminate. Qed.

Lemma Qfloor_half (k : Z) : Qfloor (inject_Z k + (1 # 2)) = k.
Proof.
  unfold Qfloor, inject_Z, Qplus. simpl.
  rewrite Z.mul_1_r.
  replace (k * 2 + 1)%Z with (1 + k * 2)%Z by lia.
  rewrite Z.div_add by lia. reflexivity.
Qed.

Lemma round_half_up_Z (k : Z) : Dec.round_half_up (inject_Z k) = k.
Proof.
  unfold Dec.round_half_up.
  destruct (Qle_bool 0 (inject_Z k)).
  - apply Qfloor_half.
  - rewrite <- inject_Z_opp, Qfloor_half. lia.
Qed.

Lemma round_half_up_comp x y : x == y -> Dec.round_half_up x = Dec.round_half_up y.
Proof.
  intros H. unfold Dec.round_half_up.
  rewrite (Qleb_comp 0 0 (Qeq_refl 0) x y H).
  rewrite (Qfloor_comp (x + (1 # 2)) (y + (1 # 2))) by (rewrite H; reflexivity).
  rewrite (Qfloor_comp (- x + (1 # 2)) (- y + (1 # 2))) by (rewrite H; reflexivity).
  reflexivity.
Qed.

Lemma units_comp dp x y : x == y -> Dec.units dp x = Dec.units dp y.
Proof.
  intros H. unfold Dec.units. apply round_half_up_comp. rewrite H. reflexivity.
Qed.

Lemma of_units_scale dp k : Dec.of_units dp k * inject_Z (Dec.pow10 dp) == inject_Z k.
Proof. unfold Dec.of_units. field. apply pow10_Q_nonzero. Qed.

Lemma units_of_units dp k : Dec.units dp (Dec.of_units dp k) = k.
Proof.
  unfold Dec.units. rewrite (round_half_up_comp _ _ (of_units_scale dp k)).
  apply round_half_up_Z.
Qed.

Lemma of_units_plus dp a b :
  Dec.of_units dp a + Dec.of_units dp b == Dec.of_units dp (a + b).
Proof.
  unfold Dec.of_units. rewrite inject_Z_plus. field. apply pow10_Q_nonzero.
Qed.

Lemma of_units_inj dp a b : Dec.of_units dp a == Dec.of_units dp b -> a = b.
Proof.
  intros H. rewrite <- (units_of_units dp a), <- (units_of_units dp b).
  apply units_comp, H.
Qed.

Lemma Q7_unfold x : Q7 x = Dec.of_units 7 (Dec.units 7 x).
Proof. reflexivity. Qed.

Lemma Q7_comp x y : x == y -> Q7 x = Q7 y.
Proof. intros H. rewrite !Q7_unfold. f_equal. apply units_comp, H. Qed.

Lemma Q2_comp x y : x == y -> Q2 x = Q2 y.
Proof.
  intros H. unfold Q2, PrecisionPolicy.final, Dec.toDecimalPlaces.
  f_equal. apply units_comp, H.
Qed.

Lemma toFixed_comp dp x y : x == y -> Dec.toFixed dp x = Dec.toFixed dp y.
Proof.
  intros H. unfold Dec.toFixed.
  rewrite (units_comp dp x y H), (Qleb_comp 0 0 (Qeq_refl 0) x y H). reflexivity.
Qed.

Lemma Q7_of_units k : Q7 (Dec.of_units 7 k) = Dec.of_units 7 k.
Proof. rewrite Q7_unfold, units_of_units. reflexivity. Qed.

Lemma on_grid_Q7 x : Dec.on_grid 7 (Q7 x).
Proof. exists (Dec.units 7 x). reflexivity. Qed.

Lemma Q7_on_grid x : Dec.on_grid 7 x -> Q7 x == x.
Proof.
  intros [k Hk]. rewrite (Q7_comp _ _ Hk), Q7_of_units. symmetry. exact Hk.
Qed.

Lemma on_grid_0 dp : Dec.on_grid dp 0.
Proof. exists 0%Z. unfold Dec.of_units. reflexivity. Qed.

Lemma on_grid_of_units dp k : Dec.on_grid dp (Dec.of_units dp k).
Proof. exists k. reflexivity. Qed.

Lemma on_grid_plus dp x y :
  Dec.on_grid dp x -> Dec.on_grid dp y -> Dec.on_grid dp (x + y).
Proof.
  intros [a Ha] [b Hb]. exists (a + b)%Z. rewrite Ha, Hb. apply of_units_plus.
Qed.

Lemma on_grid_opp dp x : Dec.on_grid dp x -> Dec.on_grid dp (- x).
Proof.
  intros [a Ha]. exists (- a)%Z. rewrite Ha. unfold Dec.of_units.
  rewrite inject_Z_opp. field. apply pow10_Q_nonzero.
Qed.

Lemma on_grid_comp dp x y : x == y -> Dec.on_grid dp x -> Dec.on_grid dp y.
Proof. intros H [k Hk]. exists k. rewrite <- H. exact Hk. Qed.

Lemma round_half_up_bounds x :
  inject_Z (Dec.round_half_up x) - (1 # 2) <= x /\
  x <= inject_Z (Dec.round_half_up x) + (1 # 2).
Proof.
  unfold Dec.round_half_up. destruct (Qle_bool 0 x).
  - pose proof (Qfloor_le (x + (1 # 2))) as L.
    pose proof (Qlt_floor (x + (1 # 2))) as U.
    rewrite inject_Z_plus in U. change (inject_Z 1) with 1 in U. split; lra.
  - pose proof (Qfloor_le (- x + (1 # 2))) as L.
    pose proof (Qlt_floor (- x + (1 # 2))) as U.
    rewrite inject_Z_plus in U. change (inject_Z 1) with 1 in U.
    rewrite inject_Z_opp. split; lra.
Qed.

(** Rounding to 7 places moves a value by at most half a step. *)
Lemma Q7_bounds x :
  Q7 x - (1 # 20000000) <= x /\ x <= Q7 x + (1 # 20000000).
Proof.
  pose proof (round_half_up_bounds (x * inject_Z (Dec.pow10 7))) as [L U].
  unfold Q7, PrecisionPolicy.intermediate, Dec.toDecimalPlaces, Dec.of_units.
  change PrecisionPolicy.INTERMEDIATE_SCALE with 7%nat.
  fold (Dec.units 7 x) in L, U.
  change (inject_Z (Dec.pow10 7)) with (10000000 # 1) in *.
  generalize dependent (inject_Z (Dec.units 7 x)). intros u L U.
  unfold Qdiv. change (/ (10000000 # 1)) with (1 # 10000000).
  split; lra.
Qed.

Lemma inject_Z_sub a b : inject_Z (a - b) == inject_Z a - inject_Z b.
Proof. unfold Z.sub. rewrite inject_Z_plus, inject_Z_opp. reflexivity. Qed.

Lemma units_close x y :
  Qabs (x - y) < 1 # 100 ->
  (Z.abs (Dec.units 2 x - Dec.units 2 y) <= 1)%Z.
Proof.
  intros H.
  pose proof (round_half_up_bounds (x * inject_Z (Dec.pow10 2))) as [Lx Ux].
  pose proof (round_half_up_bounds (y * inject_Z (Dec.pow10 2))) as [Ly Uy].
  fold (Dec.units 2 x) in Lx, Ux. fold (Dec.units 2 y) in Ly, Uy.
  change (inject_Z (Dec.pow10 2)) with (100 # 1) in *.
  apply Qabs_Qlt_condition in H. destruct H as [H1 H2].
  assert (A : inject_Z (Dec.units 2 x - Dec.units 2 y) < inject_Z 2).
  { rewrite inject_Z_sub. change (inject_Z 2) with 2. lra. }
  assert (B : inject_Z (-2) < inject_Z (Dec.units 2 x - Dec.units 2 y)).
  { rewrite inject_Z_sub. change (inject_Z (-2)) with (-2). lra. }
  rewrite <- Zlt_Qlt in A, B. lia.
Qed.

(** Two values less than a cent apart round to 2 places at most a cent
    apart. *)
Lemma Q2_close x y :
  Qabs (x - y) < 1 # 100 -> Qabs (Q2 x - Q2 y) <= 1 # 100.
Proof.
  intros H. pose proof (units_close x y H) as U.
  unfold Q2, PrecisionPolicy.final, Dec.toDecimalPlaces, Dec.of_units.
  change PrecisionPolicy.FINAL_SCALE with 2%nat.
  change (inject_Z (Dec.pow10 2)) with (100 # 1).
  apply Qabs_Qle_condition.
  assert (A : inject_Z (Dec.units 2 x - Dec.units 2 y) <= inject_Z 1)
    by (rewrite <- Zle_Qle; lia).
  assert (B : inject_Z (-1) <= inject_Z (Dec.units 2 x - Dec.units 2 y))
    by (rewrite <- Zle_Qle; lia).
  rewrite inject_Z_sub in A, B.
  change (inject_Z 1) with 1 in A. change (inject_Z (-1)) with (-1) in B.
  unfold Qdiv. change (/ (100 # 1)) with (1 # 100).
  split; lra.
Qed.

Lemma Qabs_diff_self x : Qabs (x - x) <= 1 # 100.
Proof.
  assert (H : x - x == 0) by ring.
  rewrite (Qabs_wd _ _ H). discriminate.
Qed.

Example toFixed_of_an_integer : Dec.toFixed 2 (1000 # 1) = "1000.00"%string.
Proof. reflexivity. Qed.

Example toFixed_of_a_negative_third : Dec.toFixed 7 (- (1 # 3)) = "-0.3333333"%string.
Proof. reflexivity. Qed.

Example toFixed_rounds_half_away : Dec.toFixed 2 (23625 # 1000) = "23.63"%string.
Proof. reflexivity. Qed.

Example toFixed_keeps_the_sign_of_a_small_negative :
  Dec.toFixed 2 (- (1 # 1000)) = "-0.00"%string.
Proof. reflexivity. Qed.

End RoundingFacts.

(** ** The working precision *)

Section PrecisionFacts.

Lemma ten_nonzero : ~ 10 == 0.
Proof. discriminate. Qed.

Lemma ten_pow_pos (e : Z) : 0 < 10 ^ e.
Proof. apply Qpower_0_lt. reflexivity. Qed.

Lemma ten_pow_nonzero (e : Z) : ~ 10 ^ e == 0.
Proof. apply Qpower_not_0, ten_nonzero. Qed.

Lemma ten_pow_succ (e : Z) : 10 ^ (e + 1) == 10 ^ e * 10.
Proof. rewrite Qpower_plus by apply ten_nonzero. reflexivity. Qed.

Lemma ten_pow_pred (e : Z) : 10 ^ (e - 1) == 10 ^ e / 10.
Proof. rewrite Qpower_minus by apply ten_nonzero. reflexivity. Qed.

Lemma ten_pow_nat (n : nat) : 10 ^ Z.of_nat n == inject_Z (Dec.pow10 n).
Proof.
  unfold Dec.pow10. rewrite Zpower_Qpower by lia. reflexivity.
Qed.

Lemma scale_by_scale_by s x : Dec.scale_by (- s) (Dec.scale_by s x) == x.
Proof.
  unfold Dec.scale_by. rewrite Qpower_opp. field. apply ten_pow_nonzero.
Qed.

Lemma exp_up_spec fuel : forall a,
  1 <= a -> a < 10 ^ Z.of_nat fuel ->
  10 ^ Z.of_nat (Dec.exp_up fuel a) <= a /\ a < 10 ^ (Z.of_nat (Dec.exp_up fuel a) + 1).
Proof.
  induction fuel as [|f IH]; intros a H1 H2.
  - simpl in H2. change (10 ^ 0) with 1 in H2. lra.
  - simpl Dec.exp_up. destruct (Qle_bool 10 a) eqn:E.
    + apply Qle_bool_iff in E.
      assert (A1 : 1 <= a / 10) by (apply Qle_shift_div_l; lra).
      assert (A2 : a / 10 < 10 ^ Z.of_nat f).
      { apply Qlt_shift_div_r; [reflexivity|].
        rewrite <- ten_pow_succ. replace (Z.of_nat f + 1)%Z with (Z.of_nat (S f)) by lia.
        exact H2. }
      destruct (IH _ A1 A2) as [L U].
      replace (Z.of_nat (S (Dec.exp_up f (a / 10))))
        with (Z.of_nat (Dec.exp_up f (a / 10)) + 1)%Z by lia.
      split.
      * rewrite ten_pow_succ.
        generalize dependent (10 ^ Z.of_nat (Dec.exp_up f (a / 10))). intros p L.
        apply (Qmult_le_compat_r _ _ 10) in L; [|discriminate].
        assert (Ha : a / 10 * 10 == a) by (field).
        rewrite Ha in L. exact L.
      * rewrite ten_pow_succ.
        generalize dependent (10 ^ (Z.of_nat (Dec.exp_up f (a / 10)) + 1)). intros p U.
        apply (Qmult_lt_compat_r _ _ 10) in U; [|reflexivity].
        assert (Ha : a / 10 * 10 == a) by (field).
        rewrite Ha in U. exact U.
    + assert (a < 10).
      { apply Qnot_le_lt. intro C. apply Qle_bool_iff in C. congruence. }
      simpl. change (10 ^ 0) with 1. change (10 ^ 1) with 10. split; assumption.
Qed.

Lemma exp_down_at_least_1 fuel a : 1 <= a -> Dec.exp_down fuel a = O.
Proof.
  intros H. destruct fuel; [reflexivity|]. simpl.
  apply Qle_bool_iff in H. rewrite H. reflexivity.
Qed.

Lemma exp_down_spec fuel : forall a,
  a < 1 -> 10 ^ (- Z.of_nat fuel) <= a ->
  10 ^ (- Z.of_nat (Dec.exp_down fuel a)) <= a /\
  a < 10 ^ (- Z.of_nat (Dec.exp_down fuel a) + 1).
Proof.
  induction fuel as [|f IH]; intros a H1 H2.
  - simpl in H2. change (10 ^ (-0)) with 1 in H2. lra.
  - simpl Dec.exp_down. destruct (Qle_bool 1 a) eqn:E.
    { apply Qle_bool_iff in E. lra. }
    destruct (Qlt_le_dec (a * 10) 1) as [Hs|Hs].
    + assert (A2 : 10 ^ (- Z.of_nat f) <= a * 10).
      { replace (- Z.of_nat f)%Z with (- Z.of_nat (S f) + 1)%Z by lia.
        rewrite ten_pow_succ.
        apply Qmult_le_compat_r; [exact H2|discriminate]. }
      destruct (IH _ Hs A2) as [L U].
      set (k := Dec.exp_down f (a * 10)) in *.
      replace (- Z.of_nat (S k))%Z with (- Z.of_nat k - 1)%Z by lia.
      replace (- Z.of_nat k - 1 + 1)%Z with (- Z.of_nat k + 1 - 1)%Z by lia.
      rewrite !ten_pow_pred.
      split.
      * apply Qle_shift_div_r; [reflexivity|]. exact L.
      * apply Qlt_shift_div_l; [reflexivity|]. exact U.
    + rewrite (exp_down_at_least_1 f (a * 10) Hs).
      change (10 ^ (- Z.of_nat 1)) with (1 # 10).
      change (10 ^ (- Z.of_nat 1 + 1)) with 1.
      split; lra.
Qed.

Lemma Qabs_as_fraction x : Qabs x == inject_Z (Z.abs (Qnum x)) / inject_Z (Zpos (Qden x)).
Proof.
  destruct x as [n d]. unfold Qabs. simpl Qnum. simpl Qden.
  rewrite (Qmake_Qdiv (Z.abs n) d). reflexivity.
Qed.

Lemma two_pow_le_ten_pow (k : Z) : (0 <= k)%Z -> (2 ^ k <= 10 ^ k)%Z.
Proof. intros H. apply Z.pow_le_mono_l. lia. Qed.

(** An integer below [10^(log2 n + 1)]. *)
Lemma below_ten_pow_log2 (n : Z) : (0 < n)%Z -> (n < 10 ^ (Z.log2 n + 1))%Z.
Proof.
  intros H. destruct (Z.log2_spec n H) as [_ U].
  pose proof (Z.log2_nonneg n).
  pose proof (two_pow_le_ten_pow (Z.log2 n + 1)).
  unfold Z.succ in U. lia.
Qed.

Lemma exponent_spec x :
  ~ x == 0 -> 10 ^ Dec.exponent x <= Qabs x /\ Qabs x < 10 ^ (Dec.exponent x + 1).
Proof.
  intros Hx. unfold Dec.exponent. cbv zeta.
  set (fuel := S (Z.to_nat (Z.log2 (Z.abs (Qnum x)) + Z.log2 (Zpos (Qden x))))).
  pose proof (Z.log2_nonneg (Z.abs (Qnum x))) as Ln.
  pose proof (Z.log2_nonneg (Zpos (Qden x))) as Ld.
  assert (Hn : (0 < Z.abs (Qnum x))%Z).
  { destruct x as [n d]. simpl. destruct n; try lia. exfalso. apply Hx. reflexivity. }
  assert (Hd1 : 1 <= inject_Z (Zpos (Qden x))).
  { change 1 with (inject_Z 1). rewrite <- Zle_Qle. lia. }
  assert (Hn1 : 1 <= inject_Z (Z.abs (Qnum x))).
  { change 1 with (inject_Z 1). rewrite <- Zle_Qle. lia. }
  destruct (Qle_bool 1 (Qabs x)) eqn:E.
  - apply Qle_bool_iff in E. apply exp_up_spec; [exact E|].
    rewrite Qabs_as_fraction.
    apply Qlt_shift_div_r; [lra|].
    apply Qlt_le_trans with (inject_Z (10 ^ (Z.log2 (Z.abs (Qnum x)) + 1))).
    { rewrite <- Zlt_Qlt. apply below_ten_pow_log2, Hn. }
    rewrite Zpower_Qpower by lia. change (inject_Z 10) with 10.
    apply Qle_trans with (10 ^ Z.of_nat fuel * 1).
    { rewrite Qmult_1_r. apply Qpower_le_compat_l; [unfold fuel; lia|discriminate]. }
    apply Qmult_le_l; [apply ten_pow_pos|exact Hd1].
  - assert (Hlt : Qabs x < 1).
    { apply Qnot_le_lt. intro C. apply Qle_bool_iff in C. congruence. }
    apply exp_down_spec; [exact Hlt|].
    rewrite Qabs_as_fraction.
    apply Qle_shift_div_l; [lra|].
    rewrite Qpower_opp.
    apply Qle_trans with 1; [|exact Hn1].
    assert (Hd : inject_Z (Zpos (Qden x)) <= 10 ^ Z.of_nat fuel).
    { apply Qle_trans with (inject_Z (10 ^ (Z.log2 (Zpos (Qden x)) + 1))).
      { rewrite <- Zle_Qle. apply Z.lt_le_incl, below_ten_pow_log2. lia. }
      rewrite Zpower_Qpower by lia. change (inject_Z 10) with 10.
      apply Qpower_le_compat_l; [unfold fuel; lia|discriminate]. }
    pose proof (ten_pow_pos (Z.of_nat fuel)) as P.
    assert (Hr : / 10 ^ Z.of_nat fuel * inject_Z (Zpos (Qden x))
                 == inject_Z (Zpos (Qden x)) / 10 ^ Z.of_nat fuel) by (unfold Qdiv; ring).
    rewrite Hr.
    apply Qle_shift_div_r; [exact P|]. rewrite Qmult_1_l. exact Hd.
Qed.

(** The exponent is the only [e] with [10^e <= |x| < 10^(e+1)]. *)
Lemma exponent_unique x e :
  10 ^ e <= Qabs x -> Qabs x < 10 ^ (e + 1) -> ~ x == 0 -> Dec.exponent x = e.
Proof.
  intros L U Hx. destruct (exponent_spec x Hx) as [L' U'].
  assert (A : 10 ^ e < 10 ^ (Dec.exponent x + 1)) by (eapply Qle_lt_trans; eassumption).
  assert (B : 10 ^ Dec.exponent x < 10 ^ (e + 1)) by (eapply Qle_lt_trans; eassumption).
  apply Qpower_lt_compat_l_inv in A; [|reflexivity].
  apply Qpower_lt_compat_l_inv in B; [|reflexivity].
  lia.
Qed.

Lemma exponent_comp x y : x == y -> ~ x == 0 -> Dec.exponent x = Dec.exponent y.
Proof.
  intros H Hx. symmetry.
  assert (Hy : ~ y == 0) by (rewrite <- H; exact Hx).
  destruct (exponent_spec x Hx) as [L U].
  apply exponent_unique; [rewrite <- H; exact L|rewrite <- H; exact U|exact Hy].
Qed.

Lemma Qeq_bool_comp x y : x == y -> Qeq_bool x 0 = Qeq_bool y 0.
Proof.
  intros H. destruct (Qeq_bool x 0) eqn:E1, (Qeq_bool y 0) eqn:E2; try reflexivity.
  - apply Qeq_bool_iff in E1. rewrite H in E1. apply Qeq_bool_iff in E1. congruence.
  - apply Qeq_bool_iff in E2. rewrite <- H in E2. apply Qeq_bool_iff in E2. congruence.
Qed.

Lemma round_sd_comp x y : x == y -> Dec.round_sd x == Dec.round_sd y.
Proof.
  intros H. unfold Dec.round_sd. rewrite <- (Qeq_bool_comp x y H).
  destruct (Qeq_bool x 0) eqn:E; [reflexivity|].
  assert (Hx : ~ x == 0) by (intro C; apply Qeq_bool_iff in C; congruence).
  cbv zeta. rewrite <- (exponent_comp x y H Hx).
  unfold Dec.scale_by.
  rewrite (round_half_up_comp (x * 10 ^ (Dec.precision - 1 - Dec.exponent x))
             (y * 10 ^ (Dec.precision - 1 - Dec.exponent x)))
    by (apply Qmult_comp; [exact H|reflexivity]).
  reflexivity.
Qed.

#[global] Instance round_sd_proper : Proper (Qeq ==> Qeq) Dec.round_sd.
Proof. intros x y H. apply round_sd_comp, H. Qed.

#[global] Instance dec_plus_proper : Proper (Qeq ==> Qeq ==> Qeq) Dec.plus.
Proof. intros x y H a b H'. unfold Dec.plus. rewrite H, H'. reflexivity. Qed.

#[global] Instance dec_minus_proper : Proper (Qeq ==> Qeq ==> Qeq) Dec.minus.
Proof. intros x y H a b H'. unfold Dec.minus. rewrite H, H'. reflexivity. Qed.

#[global] Instance dec_times_proper : Proper (Qeq ==> Qeq ==> Qeq) Dec.times.
Proof. intros x y H a b H'. unfold Dec.times. rewrite H, H'. reflexivity. Qed.

#[global] Instance dec_div_proper : Proper (Qeq ==> Qeq ==> Qeq) Dec.div.
Proof. intros x y H a b H'. unfold Dec.div. rewrite H, H'. reflexivity. Qed.

Lemma round_sd_0 : Dec.round_sd 0 = 0.
Proof. reflexivity. Qed.

(** A value of at most 40 significant digits, [n * 10^-s] with
    [|n| < 10^40], is left as it is. *)
Lemma round_sd_representable x (n s : Z) :
  x == inject_Z n * 10 ^ (- s) -> (Z.abs n < 10 ^ 40)%Z -> Dec.round_sd x == x.
Proof.
  intros Hx Hn. unfold Dec.round_sd.
  destruct (Qeq_bool x 0) eqn:E.
  { apply Qeq_bool_iff in E. rewrite E. reflexivity. }
  assert (Hx0 : ~ x == 0) by (intro C; apply Qeq_bool_iff in C; congruence).
  cbv zeta. destruct (exponent_spec x Hx0) as [L _].
  set (e := Dec.exponent x) in *.
  assert (He : (e < 40 - s)%Z).
  { apply (Qpower_lt_compat_l_inv 10); [|reflexivity].
    eapply Qle_lt_trans; [exact L|].
    rewrite Hx, Qabs_Qmult, (Qabs_pos (10 ^ (- s))) by (apply Qlt_le_weak, ten_pow_pos).
    replace (40 - s)%Z with (40 + - s)%Z by lia.
    rewrite Qpower_plus by apply ten_nonzero.
    apply Qmult_lt_compat_r; [apply ten_pow_pos|].
    rewrite <- (Zpower_Qpower 10 40) by lia.
    change (Qabs (inject_Z n)) with (inject_Z (Z.abs n)).
    rewrite <- Zlt_Qlt. exact Hn. }
  change Dec.precision with 40%Z.
  set (t := (40 - 1 - e)%Z).
  assert (Ht : (0 <= t - s)%Z) by (unfold t; lia).
  assert (Hint : Dec.scale_by t x == inject_Z (n * 10 ^ (t - s))).
  { unfold Dec.scale_by. rewrite Hx, inject_Z_mult, Zpower_Qpower by exact Ht.
    change (inject_Z 10) with 10.
    replace (t - s)%Z with (- s + t)%Z by lia.
    rewrite (Qpower_plus 10 (- s) t) by apply ten_nonzero. ring. }
  rewrite (round_half_up_comp _ _ Hint), round_half_up_Z.
  unfold Dec.scale_by in *. rewrite <- Hint, Qpower_opp.
  field. apply ten_pow_nonzero.
Qed.

Lemma round_sd_on_grid (dp : nat) x :
  Dec.on_grid dp x -> Qabs x < 10 ^ (40 - Z.of_nat dp) -> Dec.round_sd x == x.
Proof.
  intros [k Hk] Hb.
  apply (round_sd_representable x k (Z.of_nat dp)).
  - rewrite Hk. unfold Dec.of_units. rewrite Qpower_opp, ten_pow_nat. reflexivity.
  - rewrite Hk in Hb. unfold Dec.of_units in Hb.
    assert (P := pow10_Q_pos dp).
    rewrite <- ten_pow_nat in Hb, P.
    assert (Hk' : Qabs (inject_Z k) < 10 ^ 40).
    { assert (Hr : inject_Z k == inject_Z k / 10 ^ Z.of_nat dp * 10 ^ Z.of_nat dp)
        by (field; apply ten_pow_nonzero).
      rewrite Hr.
      rewrite Qabs_Qmult, (Qabs_pos (10 ^ Z.of_nat dp)) by (apply Qlt_le_weak, P).
      replace 40%Z with (40 - Z.of_nat dp + Z.of_nat dp)%Z by lia.
      rewrite (Qpower_plus 10 (40 - Z.of_nat dp)) by apply ten_nonzero.
      apply Qmult_lt_compat_r; [exact P|exact Hb]. }
    rewrite <- (Zpower_Qpower 10 40) in Hk' by lia.
    change (Qabs (inject_Z k)) with (inject_Z (Z.abs k)) in Hk'.
    rewrite <- Zlt_Qlt in Hk'. exact Hk'.
Qed.

(** A rounded value has at most 40 significant digits. *)
Lemma round_sd_has_40_digits x :
  exists n s, Dec.round_sd x == inject_Z n * 10 ^ (- s) /\ (Z.abs n < 10 ^ 40)%Z.
Proof.
  unfold Dec.round_sd.
  destruct (Qeq_bool x 0) eqn:E.
  { exists 0%Z, 0%Z. split; [reflexivity|lia]. }
  assert (Hx0 : ~ x == 0) by (intro C; apply Qeq_bool_iff in C; congruence).
  cbv zeta. destruct (exponent_spec x Hx0) as [_ U].
  change Dec.precision with 40%Z.
  set (t := (40 - 1 - Dec.exponent x)%Z).
  set (N := Dec.round_half_up (Dec.scale_by t x)).
  assert (Hs : Qabs (Dec.scale_by t x) < 10 ^ 40).
  { unfold Dec.scale_by.
    rewrite Qabs_Qmult, (Qabs_pos (10 ^ t)) by (apply Qlt_le_weak, ten_pow_pos).
    replace 40%Z with (Dec.exponent x + 1 + t)%Z by (unfold t; lia).
    rewrite (Qpower_plus 10 (Dec.exponent x + 1)) by apply ten_nonzero.
    apply Qmult_lt_compat_r; [apply ten_pow_pos|exact U]. }
  assert (HN : (Z.abs N <= 10 ^ 40)%Z).
  { pose proof (round_half_up_bounds (Dec.scale_by t x)) as [L R]. fold N in L, R.
    apply Qabs_Qlt_condition in Hs. destruct Hs as [H1 H2].
    rewrite <- (Zpower_Qpower 10 40) in H1, H2 by lia.
    assert (A : inject_Z N < inject_Z (10 ^ 40 + 1)).
    { rewrite inject_Z_plus. change (inject_Z 1) with 1. lra. }
    assert (B : inject_Z (- (10 ^ 40) - 1) < inject_Z N).
    { unfold Z.sub. rewrite inject_Z_plus, inject_Z_opp.
      change (inject_Z (- (1))) with (-1). lra. }
    rewrite <- Zlt_Qlt in A, B. lia. }
  destruct (Z.eq_dec (Z.abs N) (10 ^ 40)) as [Heq|Hne].
  - assert (HN' : N = (Z.sgn N * 10 ^ 40)%Z) by lia.
    exists (Z.sgn N), (t - 40)%Z. split.
    + unfold Dec.scale_by. rewrite HN' at 1.
      rewrite inject_Z_mult, Zpower_Qpower by lia. change (inject_Z 10) with 10.
      replace (- (t - 40))%Z with (40 + - t)%Z by lia.
      rewrite (Qpower_plus 10 40) by apply ten_nonzero. ring.
    + destruct N; simpl; lia.
  - exists N, t. split; [reflexivity|lia].
Qed.

Lemma round_sd_idem x : Dec.round_sd (Dec.round_sd x) == Dec.round_sd x.
Proof.
  destruct (round_sd_has_40_digits x) as (n & s & H & Hn).
  exact (round_sd_representable _ n s H Hn).
Qed.

Lemma plus_0_l_rounded x : Dec.plus 0 (Dec.round_sd x) == Dec.round_sd x.
Proof.
  unfold Dec.plus. rewrite (round_sd_comp (0 + Dec.round_sd x) (Dec.round_sd x)) by ring.
  apply round_sd_idem.
Qed.

(** Two 7-place decimals whose sum is below 10^33 in magnitude are
    added without rounding. *)
Lemma plus_exact x y :
  Dec.on_grid 7 x -> Dec.on_grid 7 y -> Qabs (x + y) < 10 ^ 33 -> Dec.plus x y == x + y.
Proof.
  intros Hx Hy Hb. unfold Dec.plus.
  apply (round_sd_on_grid 7); [apply on_grid_plus; assumption|exact Hb].
Qed.

Lemma minus_exact x y :
  Dec.on_grid 7 x -> Dec.on_grid 7 y -> Qabs (x - y) < 10 ^ 33 -> Dec.minus x y == x - y.
Proof.
  intros Hx Hy Hb. unfold Dec.minus.
  apply (round_sd_on_grid 7); [|exact Hb].
  apply on_grid_plus; [exact Hx|apply on_grid_opp, Hy].
Qed.

Lemma Q7_plus_exact x y :
  Dec.on_grid 7 x -> Dec.on_grid 7 y -> Qabs (x + y) < 10 ^ 33 ->
  Q7 (Dec.plus x y) == x + y.
Proof.
  intros Hx Hy Hb.
  rewrite (Q7_comp _ _ (plus_exact x y Hx Hy Hb)).
  apply Q7_on_grid, on_grid_plus; assumption.
Qed.

Lemma Qabs_plus_lt a b c : Qabs a + Qabs b < c -> Qabs (a + b) < c.
Proof. intros H. eapply Qle_lt_trans; [apply Qabs_triangle|exact H]. Qed.

Lemma round_sd_40_digits x : Statements.has_40_digits x -> Dec.round_sd x == x.
Proof. intros (n & s & H & Hn). exact (round_sd_representable x n s H Hn). Qed.

Lemma has_40_digits_comp x y :
  x == y -> Statements.has_40_digits x -> Statements.has_40_digits y.
Proof. intros H (n & s & Hx & Hn). exists n, s. rewrite <- H. split; assumption. Qed.

Lemma has_40_digits_div_100 x :
  Statements.has_40_digits x -> Statements.has_40_digits (x / 100).
Proof.
  intros (n & s & Hx & Hn). exists n, (s + 2)%Z. split; [|exact Hn].
  rewrite Hx. replace (- (s + 2))%Z with (- s + - (2))%Z by lia.
  rewrite (Qpower_plus 10 (- s)) by apply ten_nonzero.
  change (10 ^ (- (2))) with (1 # 100). field.
Qed.

Lemma has_40_digits_on_grid (dp : nat) x :
  Dec.on_grid dp x -> Qabs x < 10 ^ (40 - Z.of_nat dp) -> Statements.has_40_digits x.
Proof.
  intros [k Hk] Hb. exists k, (Z.of_nat dp). split.
  - rewrite Hk. unfold Dec.of_units. rewrite Qpower_opp, ten_pow_nat. reflexivity.
  - rewrite Hk in Hb. unfold Dec.of_units in Hb.
    assert (P := pow10_Q_pos dp).
    rewrite <- ten_pow_nat in Hb, P.
    assert (Hk' : Qabs (inject_Z k) < 10 ^ 40).
    { assert (Hr : inject_Z k == inject_Z k / 10 ^ Z.of_nat dp * 10 ^ Z.of_nat dp)
        by (field; apply ten_pow_nonzero).
      rewrite Hr.
      rewrite Qabs_Qmult, (Qabs_pos (10 ^ Z.of_nat dp)) by (apply Qlt_le_weak, P).
      replace 40%Z with (40 - Z.of_nat dp + Z.of_nat dp)%Z by lia.
      rewrite (Qpower_plus 10 (40 - Z.of_nat dp)) by apply ten_nonzero.
      apply Qmult_lt_compat_r; [exact P|exact Hb]. }
    rewrite <- (Zpower_Qpower 10 40) in Hk' by lia.
    change (Qabs (inject_Z k)) with (inject_Z (Z.abs k)) in Hk'.
    rewrite <- Zlt_Qlt in Hk'. exact Hk'.
Qed.

(** A product of at most 40 significant digits is multiplied, and then
    divided by 100, without rounding. *)
Lemma percent_exact x y :
  Statements.has_40_digits (x * y) -> Dec.div (Dec.times x y) 100 == x * y / 100.
Proof.
  intros H. unfold Dec.div, Dec.times.
  rewrite (round_sd_comp (Dec.round_sd (x * y) / 100) (x * y / 100))
    by (rewrite (round_sd_40_digits _ H); reflexivity).
  apply round_sd_40_digits, has_40_digits_div_100, H.
Qed.

End PrecisionFacts.

(** ** Sorting *)

Section SortingFacts.

Lemma insert_sorted_perm {A} (lt : A -> A -> bool) x l :
  Permutation (insert_sorted lt x l) (x :: l).
Proof.
  induction l as [|y r IH]; simpl; [reflexivity|].
  destruct (lt y x); [|reflexivity].
  rewrite IH. apply perm_swap.
Qed.

Lemma sort_by_perm {A} (lt : A -> A -> bool) l : Permutation (sort_by lt l) l.
Proof.
  unfold sort_by. induction l as [|x r IH]; simpl; [reflexivity|].
  rewrite insert_sorted_perm, IH. reflexivity.
Qed.

End SortingFacts.

(** ** The pure engine: conservation of the customer total *)

Section PureConservation.

Import PureCalculationEngine Statements Samples.

Lemma fold_Q7_on_grid {A} (f : Q -> A -> Q) (items : list A) acc :
  Dec.on_grid 7 acc ->
  Dec.on_grid 7
    (fold_left (fun t item => PrecisionPolicy.intermediate (f t item)) items acc).
Proof.
  revert acc. induction items as [|i r IH]; intros acc H; simpl; auto.
  apply IH. apply on_grid_Q7.
Qed.

Lemma computeBaseSubtotal_on_grid items : Dec.on_grid 7 (computeBaseSubtotal items).
Proof.
  unfold computeBaseSubtotal.
  apply (fold_Q7_on_grid
           (fun sum item => Dec.plus sum (Dec.times (unitPrice item) (quantity item)))),
    on_grid_0.
Qed.

Lemma calculateGroupAdjustment_on_grid g basis items a :
  calculateGroupAdjustment g basis items = Ok a -> Dec.on_grid 7 a.
Proof.
  unfold calculateGroupAdjustment, calculateMarginAdjustment. intros Hres.
  repeat case_match; try discriminate; injection Hres as <-;
    try apply on_grid_Q7; try apply on_grid_0.
  apply (fold_Q7_on_grid (fun t item => Dec.plus t (lineDelta _ item))), on_grid_0.
Qed.


Lemma jurisdiction_taxes_on_grid base js : forall acc t,
  jurisdiction_taxes base js acc = Ok t -> Dec.on_grid 7 acc -> Dec.on_grid 7 t.
Proof.
  induction js as [|j r IH]; intros acc t H Hg; simpl in H.
  - injection H as <-. exact Hg.
  - destruct (toDecimal (rate j)) as [q|e]; simpl in H; [|discriminate].
    eapply IH; [exact H|apply on_grid_Q7].
Qed.

(** What [calculateTaxes] leaves as it is, and the grid of its taxes. *)
Lemma calculateTaxes_keeps host st cfg items st' :
  calculateTaxes host st cfg items = Ok st' ->
  baseSubtotal st' = baseSubtotal st /\
  runningSubtotal st' = runningSubtotal st /\
  adjustments st' = adjustments st /\
  Dec.on_grid 7 (retailTaxAmount st').
Proof.
  unfold calculateTaxes. cbv zeta. intros H.
  match type of H with
  | obind ?m _ = _ => destruct m as [retail|e] eqn:E
  end; simpl in H; [|discriminate].
  injection H as <-. cbn [with_taxes baseSubtotal runningSubtotal adjustments retailTaxAmount].
  repeat split.
  destruct (txt_is (tax_mode cfg) "RETAIL" || txt_is (tax_mode cfg) "MIXED").
  - destruct (jurisdictions cfg) as [|j js].
    + injection E as <-. apply on_grid_Q7.
    + eapply jurisdiction_taxes_on_grid; [exact E|apply on_grid_0].
  - injection E as <-. apply on_grid_0.
Qed.





Lemma sum_amounts_app l1 l2 :
  sum_amounts (l1 ++ l2) == sum_amounts l1 + sum_amounts l2.
Proof.
  induction l1 as [|a l IH]; simpl.
  - ring.
  - rewrite IH. ring.
Qed.

Lemma sum_abs_app l1 l2 : sum_abs (l1 ++ l2) == sum_abs l1 + sum_abs l2.
Proof.
  induction l1 as [|a l IH]; simpl.
  - ring.
  - rewrite IH. ring.
Qed.

Lemma sum_abs_nonneg l : 0 <= sum_abs l.
Proof.
  induction l as [|a l IH]; [simpl; discriminate|].
  change (sum_abs (a :: l)) with (Qabs a + sum_abs l).
  pose proof (Qabs_nonneg a). lra.
Qed.

Lemma sum_amounts_abs l : Qabs (sum_amounts l) <= sum_abs (List.map amount_decimal l).
Proof.
  induction l as [|a l IH]; [simpl; discriminate|].
  change (sum_amounts (a :: l)) with (amount_decimal a + sum_amounts l).
  change (sum_abs (List.map amount_decimal (a :: l)))
    with (Qabs (amount_decimal a) + sum_abs (List.map amount_decimal l)).
  pose proof (Qabs_triangle (amount_decimal a) (sum_amounts l)). lra.
Qed.

Lemma on_grid_sum_amounts l : Dec.on_grid 7 (sum_amounts l).
Proof.
  induction l as [|a l IH]; [apply on_grid_0|].
  change (sum_amounts (a :: l)) with (amount_decimal a + sum_amounts l).
  apply on_grid_plus; [apply on_grid_of_units|exact IH].
Qed.

(** The loop of [applyModifierGroups] appends one adjustment per group;
    as long as the magnitudes of the running subtotal and of the
    adjustments add up to less than 10^33, the running subtotal is the
    sum of where it started and of the adjustments. *)
Lemma applyGroups_loop_sum gs items : forall run adjs run' adjs',
  applyGroups_loop gs items run adjs = Ok (run', adjs') ->
  Dec.on_grid 7 run ->
  exists new,
    adjs' = adjs ++ new /\
    Dec.on_grid 7 run' /\
    (Qabs run + sum_abs (List.map amount_decimal new) < exact_below ->
     run' == run + sum_amounts new).
Proof.
  induction gs as [|g r IH]; intros run adjs run' adjs' H Hg; simpl in H.
  - injection H as <- <-. exists []. rewrite app_nil_r.
    split; [reflexivity|]. split; [exact Hg|]. intros _. simpl. ring.
  - destruct (calculateGroupAdjustment g run items) as [a|e] eqn:E;
      simpl in H; [|discriminate].
    pose proof (calculateGroupAdjustment_on_grid _ _ _ _ E) as Ha.
    apply IH in H; [|apply on_grid_Q7].
    destruct H as (new & -> & Hgrid & Hrun).
    set (adj := {| groupId := Group.id g;
                   amount := Dec.units 7 a;
                   adj_attributes := Group.attributes g |}) in *.
    exists (adj :: new). rewrite <- app_assoc.
    split; [reflexivity|]. split; [exact Hgrid|].
    change (sum_abs (List.map amount_decimal (adj :: new)))
      with (Qabs (Q7 a) + sum_abs (List.map amount_decimal new)).
    change (sum_amounts (adj :: new)) with (Q7 a + sum_amounts new).
    change PrecisionPolicy.intermediate with Q7 in *.
    rewrite (Qabs_wd _ _ (Q7_on_grid a Ha)), (Q7_on_grid a Ha).
    unfold exact_below in *. intros Hb.
    pose proof (sum_abs_nonneg (List.map amount_decimal new)) as Hn.
    pose proof (Qabs_triangle run a) as Ht.
    assert (Hs : Q7 (Dec.plus run a) == run + a)
      by (apply Q7_plus_exact; [exact Hg|exact Ha|lra]).
    rewrite Hrun.
    + rewrite Hs. ring.
    + rewrite (Qabs_wd _ _ Hs). lra.
Qed.

Lemma applyModifierGroups_sum st gs items st' :
  applyModifierGroups st gs items = Ok st' ->
  Dec.on_grid 7 (runningSubtotal st) ->
  exists new,
    adjustments st' = adjustments st ++ new /\
    Dec.on_grid 7 (runningSubtotal st') /\
    (Qabs (runningSubtotal st) + sum_abs (List.map amount_decimal new) < exact_below ->
     runningSubtotal st' == runningSubtotal st + sum_amounts new) /\
    baseSubtotal st' = baseSubtotal st /\
    retailTaxAmount st' = retailTaxAmount st /\
    useTaxAmount st' = useTaxAmount st.
Proof.
  unfold applyModifierGroups. intros H Hg.
  destruct (applyGroups_loop gs items (runningSubtotal st) (adjustments st))
    as [[run adjs]|e] eqn:E; simpl in H; [|discriminate].
  injection H as <-. simpl.
  destruct (applyGroups_loop_sum _ _ _ _ _ _ E Hg) as (new & -> & Hgr & Hr).
  exists new. repeat split; auto.
Qed.

(** C1, as the code has it.  When the pure engine returns a result
    built from a state whose base subtotal, recorded adjustments and
    retail tax add up, in magnitude, to less than 10^33, the customer
    grand total it emits is the 2-place rounding of the 7-place base
    subtotal plus the 7-place adjustments recorded before tax plus the
    7-place retail tax plus the 7-place adjustments recorded after tax;
    the difference between the two is 0, hence within 0.01. *)
Theorem customer_grand_total_conservation host input result final :
  calculate host input = Ok result ->
  finalState host (normalizeInput host input) = Ok final ->
  magnitude final < exact_below ->
  exists afterPreTax post,
    let n := normalizeInput host input in
    let expected :=
      Q2 (computeBaseSubtotal (n_lineItems n) + sum_amounts (adjustments afterPreTax)
          + retailTaxAmount final + sum_amounts post) in
    applyModifierGroups (initialState n) (n_preTaxGroups n) (n_lineItems n)
      = Ok afterPreTax /\
    adjustments final = adjustments afterPreTax ++ post /\
    customerGrandTotal result = Dec.toFixed 2 expected /\
    Qabs (customerGrandTotal_of final - expected) <= 1 # 100.
Proof.
  unfold calculate. intros H Ef Hm.
  destruct (validateInput input) as [[]|e]; simpl in H; [|discriminate].
  set (n := normalizeInput host input) in *.
  rewrite Ef in H. simpl in H. injection H as <-.
  unfold finalState in Ef.
  destruct (applyModifierGroups (initialState n) (n_preTaxGroups n) (n_lineItems n))
    as [afterPreTax|e] eqn:Epre; cbn [obind] in Ef; [|discriminate].
  destruct (calculateTaxes host afterPreTax (n_config n) (n_lineItems n))
    as [afterTax|e] eqn:Etax; cbn [obind] in Ef; [|discriminate].
  destruct (calculateTaxes_keeps _ _ _ _ _ Etax) as (Tb & Tr & Ta & Tg).
  destruct (applyModifierGroups_sum _ _ _ _ Epre (computeBaseSubtotal_on_grid _))
    as (new1 & Hadj1 & Hgrid1 & Hrun1 & Hbase1 & _ & _).
  rewrite <- Tr in Hgrid1.
  destruct (applyModifierGroups_sum _ _ _ _ Ef Hgrid1)
    as (post & Hadj2 & Hgrid2 & Hrun2 & Hbase2 & Htax2 & _).
  cbn [initialState adjustments runningSubtotal baseSubtotal app] in Hadj1, Hrun1, Hbase1.
  rewrite Tr in Hrun2. rewrite Ta in Hadj2. rewrite Tb, Hbase1 in Hbase2.
  exists afterPreTax, post. cbv zeta.
  unfold magnitude, exact_below in *. rewrite Hbase2, Hadj2, Hadj1 in Hm.
  rewrite map_app, sum_abs_app in Hm.
  pose proof (sum_abs_nonneg (List.map amount_decimal new1)) as N1.
  pose proof (sum_abs_nonneg (List.map amount_decimal post)) as N2.
  pose proof (Qabs_nonneg (retailTaxAmount final)) as N3.
  pose proof (Qabs_nonneg (computeBaseSubtotal (n_lineItems n))) as N4.
  pose proof (sum_amounts_abs new1) as A1.
  pose proof (sum_amounts_abs post) as A2.
  assert (R1 : runningSubtotal afterPreTax
               == computeBaseSubtotal (n_lineItems n) + sum_amounts new1)
    by (apply Hrun1; lra).
  assert (R2 : runningSubtotal final == runningSubtotal afterPreTax + sum_amounts post).
  { apply Hrun2. rewrite (Qabs_wd _ _ R1).
    pose proof (Qabs_triangle (computeBaseSubtotal (n_lineItems n)) (sum_amounts new1)).
    lra. }
  assert (Heq : Dec.plus (runningSubtotal final) (retailTaxAmount final) ==
                computeBaseSubtotal (n_lineItems n) + sum_amounts (adjustments afterPreTax)
                + retailTaxAmount final + sum_amounts post).
  { rewrite plus_exact.
    - rewrite R2, R1, Hadj1. ring.
    - exact Hgrid2.
    - rewrite Htax2. exact Tg.
    - assert (E : runningSubtotal final + retailTaxAmount final
                  == computeBaseSubtotal (n_lineItems n) + sum_amounts new1
                     + sum_amounts post + retailTaxAmount final)
        by (rewrite R2, R1; ring).
      rewrite (Qabs_wd _ _ E).
      pose proof (Qabs_triangle
                    (computeBaseSubtotal (n_lineItems n) + sum_amounts new1 + sum_amounts post)
                    (retailTaxAmount final)).
      pose proof (Qabs_triangle
                    (computeBaseSubtotal (n_lineItems n) + sum_amounts new1)
                    (sum_amounts post)).
      pose proof (Qabs_triangle (computeBaseSubtotal (n_lineItems n)) (sum_amounts new1)).
      lra. }
  repeat split; auto.
  - simpl. unfold customerGrandTotal_of. change PrecisionPolicy.final with Q2.
    rewrite (Q2_comp _ _ Heq). reflexivity.
  - unfold customerGrandTotal_of. change PrecisionPolicy.final with Q2.
    rewrite (Q2_comp _ _ Heq). apply Qabs_diff_self.
Qed.

Lemma customer_grand_total_conservation_witness :
  exists result final,
    calculate sample_host mixed_request = Ok result /\
    finalState sample_host (normalizeInput sample_host mixed_request) = Ok final /\
    magnitude final < exact_below /\
    customerGrandTotal result = "519.16"%string /\
    exists afterPreTax post,
      let n := normalizeInput sample_host mixed_request in
      let expected :=
        Q2 (computeBaseSubtotal (n_lineItems n) + sum_amounts (adjustments afterPreTax)
            + retailTaxAmount final + sum_amounts post) in
      applyModifierGroups (initialState n) (n_preTaxGroups n) (n_lineItems n)
        = Ok afterPreTax /\
      adjustments final = adjustments afterPreTax ++ post /\
      customerGrandTotal result = Dec.toFixed 2 expected /\
      Qabs (customerGrandTotal_of final - expected) <= 1 # 100.
Proof.
  eexists. eexists.
  split; [vm_compute; reflexivity|].
  split; [vm_compute; reflexivity|].
  split; [vm_compute; reflexivity|].
  split; [reflexivity|].
  apply (customer_grand_total_conservation sample_host mixed_request).
  - vm_compute. reflexivity.
  - vm_compute. reflexivity.
  - vm_compute. reflexivity.
Defined.

(** C1, as stated, fails on an accepted input.  One line of 10^39 and a
    fixed amount of 0.40 before tax: adding 0.40 to 10^39 at 40
    significant digits leaves 10^39, so the customer grand total is
    10^39 where the claimed sum rounds to 10^39 + 0.40, 0.40 away. *)
Lemma customer_grand_total_can_miss_by_40_cents :
  exists result final,
    let n := normalizeInput sample_host huge_request in
    let expected :=
      Q2 (computeBaseSubtotal (n_lineItems n) + sum_amounts (adjustments final)
          + retailTaxAmount final) in
    calculate sample_host huge_request = Ok result /\
    finalState sample_host n = Ok final /\
    customerGrandTotal result = "1000000000000000000000000000000000000000.00"%string /\
    Dec.toFixed 2 expected = "1000000000000000000000000000000000000000.40"%string /\
    Qabs (customerGrandTotal_of final - expected) == 4 # 10 /\
    ~ Qabs (customerGrandTotal_of final - expected) <= 1 # 100.
Proof.
  eexists. eexists. cbv zeta.
  split; [vm_compute; reflexivity|].
  split; [vm_compute; reflexivity|].
  split; [vm_compute; reflexivity|].
  split; [vm_compute; reflexivity|].
  split; [vm_compute; reflexivity|].
  vm_compute. intros H. apply H. reflexivity.
Qed.

End PureConservation.

(** ** The archived engine: the customer total *)

Section CompliantConservation.

Import CompliantCalculationEngine Statements Samples.

(** The two can be a whole cent apart: a line of 0.0049999 and two fixed
    groups of 0.00000004 are recorded as 0.0049999, 0.0000000 and
    0.0000000, the total adjustment as 0.0000001, and the customer total
    is 0.01. *)
Example compliant_total_can_differ_by_a_cent :
  exists b m t totals,
    calculate_phases sample_host C.half_cent_line C.tiny_fees
      (C.legacy_config "RETAIL" 0 0) []
    = Ok (b, m, t, totals) /\
    Dec.toFixed 7 (subtotal b) = "0.0049999"%string /\
    List.map (fun g => XDec.toFixed 7 (ag_adjustment g)) (appliedGroups m)
    = ["0.0000000"; "0.0000000"]%string /\
    XDec.toFixed 7 (totalAdjustment m) = "0.0000001"%string /\
    XDec.toFixed 7 (retailTax t) = "0.0000000"%string /\
    customerGrandTotal totals = "0.01"%string /\
    Dec.toFixed 2 (Q2 (subtotal b + 0 + 0 + 0)) = "0.00"%string.
Proof.
  do 4 eexists. split; [vm_compute; reflexivity|].
  repeat split; vm_compute; reflexivity.
Qed.

End CompliantConservation.

(** ** Percentage groups *)

Section PercentageGroups.

Import PureCalculationEngine Statements Samples.

Lemma percentage_dispatch g basis items :
  modifierType g = Some "percentage"%string ->
  calculateGroupAdjustment g basis items
  = Ok (Q7 (Dec.div (Dec.times basis (totalPercent g)) 100)).
Proof. unfold calculateGroupAdjustment. intros ->. reflexivity. Qed.

(** C2, as the code has it.  In the pure engine the adjustment of a
    percentage group is the 7-place rounding of [running * rate / 100]
    as decimal.js computes it (the product and the quotient at 40
    significant digits, so exactly when the product has no more than
    that), where [rate] is the additive sum of the values of the group's
    modifiers and [running] is the whole running subtotal that the loop
    carries, whatever the tax setting of the group.  In the archived
    compliant engine the base is the sum of the original line totals of
    the items tagged TAXABLE for a taxable group, of those tagged
    NON_TAXABLE for a non_taxable group, and the running total otherwise;
    the product is not rounded to 7 places by [applyGroup]. *)
Theorem percentage_adjustment_uses_whole_running_subtotal
    (host : Host) (g : Group.t) (running : Q) (items : list LineItem)
    (rest : list Group.t) (adjs : list Adjustment)
    (cg : CompliantCalculationEngine.Group.t) (crunning : xdec)
    (citems : list CompliantCalculationEngine.LineItem) :
  modifierType g = Some "percentage"%string ->
  CompliantCalculationEngine.Attr.modifier_type
    (CompliantCalculationEngine.Group.attributes cg) = Some "percentage"%string ->
  let adjustment := Q7 (Dec.div (Dec.times running (totalPercent g)) 100) in
  (Group.modifiers g <> [] ->
   totalPercent g = sum_decimals percentValue (Group.modifiers g)) /\
  calculateGroupAdjustment g running items = Ok adjustment /\
  (has_40_digits (running * totalPercent g) ->
   adjustment = Q7 (running * totalPercent g / 100)) /\
  applyGroups_loop (g :: rest) items running adjs =
    applyGroups_loop rest items (Q7 (Dec.plus running adjustment))
      (adjs ++ [{| groupId := Group.id g;
                   amount := Dec.units 7 adjustment;
                   adj_attributes := Group.attributes g |}]) /\
  let setting :=
    toLowerCase
      (txt_default (CompliantCalculationEngine.Attr.tax_setting
                      (CompliantCalculationEngine.Group.attributes cg)) "taxable") in
  let rate :=
    CompliantCalculationEngine.combinedRate
      (sort_by (CompliantCalculationEngine.byPriorityThenId host)
         (CompliantCalculationEngine.Group.modifiers cg)) in
  let base :=
    if String.eqb setting "taxable"
    then Fin (CompliantCalculationEngine.tagged_base "TAXABLE" citems)
    else if String.eqb setting "non_taxable"
    then Fin (CompliantCalculationEngine.tagged_base "NON_TAXABLE" citems)
    else crunning in
  CompliantCalculationEngine.applyGroup host cg crunning citems =
    Ok {| CompliantCalculationEngine.adjustment := XDec.times base (Fin (Dec.div rate 100));
          CompliantCalculationEngine.skipped := [];
          CompliantCalculationEngine.allocations := [] |}.
Proof.
  intros Hp Hc. cbv zeta. repeat split.
  - unfold totalPercent. destruct (Group.modifiers g); [congruence|reflexivity].
  - apply percentage_dispatch, Hp.
  - intros H. apply Q7_comp, percent_exact, H.
  - simpl. rewrite (percentage_dispatch _ _ _ Hp). reflexivity.
  - unfold CompliantCalculationEngine.applyGroup. rewrite Hc. simpl. reflexivity.
Qed.

Lemma percentage_adjustment_uses_whole_running_subtotal_witness :
  modifierType taxable_ten_percent = Some "percentage"%string /\
  CompliantCalculationEngine.Attr.modifier_type
    (CompliantCalculationEngine.Group.attributes (C.percent_group "taxable" 10))
    = Some "percentage"%string /\
  calculateGroupAdjustment taxable_ten_percent 200 two_lines
  = Ok (Q7 (Dec.div (Dec.times 200 (totalPercent taxable_ten_percent)) 100)) /\
  Q7 (Dec.div (Dec.times 200 (totalPercent taxable_ten_percent)) 100) == 20.
Proof.
  split; [reflexivity|]. split; [reflexivity|]. split; [|vm_compute; reflexivity].
  refine (proj1 (proj2
    (percentage_adjustment_uses_whole_running_subtotal sample_host taxable_ten_percent
       200 two_lines [] [] (C.percent_group "taxable" 10) (Fin 200) [] _ _))).
  - reflexivity.
  - reflexivity.
Defined.

(** C2, as stated, fails: with a taxable line of 100.00 and a non-taxable
    line of 100.00, a taxable group of 10% applied first is computed on
    200.00 and gives 20.0000000, while the taxable part of the subtotal
    would give 10.0000000. *)
Lemma percentage_base_is_not_the_partition :
  exists a,
    calculateGroupAdjustment taxable_ten_percent (computeBaseSubtotal two_lines) two_lines
      = Ok a /\
    (match Group.attributes taxable_ten_percent with
     | Some attrs => Attr.tax_setting attrs
     | None => None
     end) = Some "taxable"%string /\
    totalPercent taxable_ten_percent == 10 /\
    a == 20 /\
    spec_percentage_adjustment "TAXABLE" 10 two_lines == 10 /\
    ~ a == spec_percentage_adjustment "TAXABLE" 10 two_lines.
Proof.
  eexists. split; [vm_compute; reflexivity|].
  split; [reflexivity|].
  split; [vm_compute; reflexivity|].
  split; [vm_compute; reflexivity|].
  split; [vm_compute; reflexivity|].
  vm_compute. discriminate.
Qed.

Example compliant_taxable_percentage_uses_the_tagged_lines :
  exists a,
    CompliantCalculationEngine.applyGroup sample_host (C.percent_group "taxable" 10)
      (Fin 300) C.tagged_lines
    = Ok {| CompliantCalculationEngine.adjustment := Fin a;
            CompliantCalculationEngine.skipped := [];
            CompliantCalculationEngine.allocations := [] |} /\
    a == 10.
Proof. eexists. split; [reflexivity|]. vm_compute. reflexivity. Qed.

Example compliant_taxable_percentage_leaves_out_untagged_lines :
  exists a,
    CompliantCalculationEngine.applyGroup sample_host (C.percent_group "taxable" 10)
      (Fin 300) C.two_priced
    = Ok {| CompliantCalculationEngine.adjustment := Fin a;
            CompliantCalculationEngine.skipped := [];
            CompliantCalculationEngine.allocations := [] |} /\
    a == 0.
Proof. eexists. split; [reflexivity|]. vm_compute. reflexivity. Qed.

End PercentageGroups.

(** ** Margin groups *)

Section MarginGroups.

Import PureCalculationEngine Statements Samples.












Example margin_sample_of_the_specification :
  exists r,
    calculate sample_host (margin_request 50) = Ok r /\
    modifierTotal r = "20.00"%string /\
    customerGrandTotal r = "120.00"%string.
Proof. eexists. split; [vm_compute; reflexivity|]. split; reflexivity. Qed.

End MarginGroups.

(** ** Summing the values of a group *)

Section GroupSums.

Import PureCalculationEngine Statements Samples.

Lemma modifierType_with_single_modifier g v :
  modifierType (with_single_modifier g v) = modifierType g.
Proof. reflexivity. Qed.

Lemma sum_decimals_is_rounded {A} (f : A -> Q) (l : list A) :
  l <> [] -> exists x, sum_decimals f l = Dec.round_sd x.
Proof.
  intros Hne. destruct (exists_last Hne) as (l' & a & ->).
  unfold sum_decimals. rewrite fold_left_app. cbn [fold_left].
  unfold Dec.plus. eauto.
Qed.

Lemma sum_decimals_single {A} (f : A -> Q) (a : A) : sum_decimals f [a] = Dec.plus 0 (f a).
Proof. reflexivity. Qed.

(** What holds of the sums.  For a group with at least one modifier: a
    percentage group and a fixed group yield the adjustment of a single
    modifier whose value is the sum of the values the code reads from the
    group's modifiers; a margin group yields the adjustment of a single
    modifier that carries the value of the group's first modifier. *)
Theorem group_acts_as_one_modifier_of_the_summed_value g basis items :
  Group.modifiers g <> [] ->
  (modifierType g = Some "percentage"%string ->
   calculateGroupAdjustment g basis items
   = calculateGroupAdjustment
       (with_single_modifier g (sum_decimals percentValue (Group.modifiers g)))
       basis items) /\
  (modifierType g = Some "fixed"%string ->
   calculateGroupAdjustment g basis items
   = calculateGroupAdjustment
       (with_single_modifier g (sum_decimals fixedValue (Group.modifiers g)))
       basis items) /\
  (modifierType g = Some "margin"%string ->
   calculateGroupAdjustment g basis items
   = calculateGroupAdjustment
       (with_single_modifier g
          (match Group.modifiers g with
           | first :: _ => decimal (or_else (Mod.value first) (Str 0))
           | [] => 0
           end))
       basis items).
Proof.
  intros Hne.
  assert (Tp : forall v,
             totalPercent (with_single_modifier g v) = Dec.plus 0 v) by reflexivity.
  assert (Tf : forall v,
             totalFixed (with_single_modifier g v) = Dec.plus 0 v) by reflexivity.
  split; [|split]; intros Hk; unfold calculateGroupAdjustment;
    rewrite modifierType_with_single_modifier, Hk.
  - apply (f_equal Ok), Q7_comp. rewrite Tp.
    destruct (sum_decimals_is_rounded percentValue _ Hne) as [x Hx].
    assert (E : totalPercent g = Dec.round_sd x).
    { unfold totalPercent. destruct (Group.modifiers g); [congruence|exact Hx]. }
    rewrite Hx, E, plus_0_l_rounded. reflexivity.
  - apply (f_equal Ok), Q7_comp. rewrite Tf.
    destruct (sum_decimals_is_rounded fixedValue _ Hne) as [x Hx].
    assert (E : totalFixed g = Dec.round_sd x).
    { unfold totalFixed. destruct (Group.modifiers g); [congruence|exact Hx]. }
    rewrite Hx, E, plus_0_l_rounded. reflexivity.
  - destruct (Group.modifiers g) as [|first others] eqn:Emods; [congruence|].
    unfold calculateMarginAdjustment.
    assert (E : targetMargin
                  (with_single_modifier g (decimal (or_else (Mod.value first) (Str 0))))
                = targetMargin g).
    { unfold targetMargin, marginValue. rewrite Emods. reflexivity. }
    rewrite E. reflexivity.
Qed.

Lemma group_acts_as_one_modifier_of_the_summed_value_witness :
  Group.modifiers (sample_group "percentage" [-5; -5]) <> [] /\
  calculateGroupAdjustment (sample_group "percentage" [-5; -5]) 200 two_lines
  = calculateGroupAdjustment
      (with_single_modifier (sample_group "percentage" [-5; -5]) (0 + -5 + -5))
      200 two_lines /\
  calculateGroupAdjustment (sample_group "percentage" [-5; -5]) 200 two_lines
  = Ok (Q7 (-20)).
Proof.
  split; [discriminate|]. split.
  - refine (proj1 (group_acts_as_one_modifier_of_the_summed_value
                     (sample_group "percentage" [-5; -5]) 200 two_lines _) _).
    + discriminate.
    + reflexivity.
  - reflexivity.
Defined.

(** C7 on the code.  A margin group of two modifiers of values 10 and 20,
    on a line of cost 1.00, price 0.00 and quantity 3, is computed from
    the first value alone, with the margin 10%: the adjustment is
    3.3333333.  A single margin modifier of the summed value 30 gives
    4.2857142. *)
Lemma margin_group_does_not_sum_its_values :
  exists a b,
    modifierType (margin_group [10; 20]) = Some "margin"%string /\
    sum_of_values (margin_group [10; 20]) == 30 /\
    calculateGroupAdjustment (margin_group [10; 20]) 0 margin_lines = Ok a /\
    calculateGroupAdjustment
      (with_single_modifier (margin_group [10; 20]) (sum_of_values (margin_group [10; 20])))
      0 margin_lines = Ok b /\
    a == 33333333 # 10000000 /\
    b == 42857142 # 10000000 /\
    ~ a == b.
Proof.
  eexists. eexists.
  split; [reflexivity|].
  split; [vm_compute; reflexivity|].
  split; [vm_compute; reflexivity|].
  split; [vm_compute; reflexivity|].
  split; [vm_compute; reflexivity|].
  split; [vm_compute; reflexivity|].
  vm_compute; discriminate.
Qed.

End GroupSums.

(** ** Fixed groups of the compliant engine: per-line allocations *)

Section FixedAllocations.

Import CompliantCalculationEngine Statements Samples.

Lemma sum_allocations_on_grid allocs : Dec.on_grid 7 (sum_allocations allocs).
Proof.
  induction allocs as [|a r IH]; [apply on_grid_0|].
  change (sum_allocations (a :: r))
    with (Dec.of_units 7 (allocation_precise a) + sum_allocations r).
  apply on_grid_plus; [apply on_grid_of_units|exact IH].
Qed.

Lemma sum_allocations_app l1 l2 :
  sum_allocations (l1 ++ l2) == sum_allocations l1 + sum_allocations l2.
Proof.
  induction l1 as [|a l IH]; [simpl; ring|].
  change (sum_allocations ((a :: l) ++ l2))
    with (Dec.of_units 7 (allocation_precise a) + sum_allocations (l ++ l2)).
  change (sum_allocations (a :: l))
    with (Dec.of_units 7 (allocation_precise a) + sum_allocations l).
  rewrite IH. ring.
Qed.

Lemma sum_allocations_abs l : Qabs (sum_allocations l) <= sum_abs (allocation_amounts l).
Proof.
  induction l as [|a l IH]; [simpl; discriminate|].
  change (sum_allocations (a :: l))
    with (Dec.of_units 7 (allocation_precise a) + sum_allocations l).
  change (sum_abs (allocation_amounts (a :: l)))
    with (Qabs (Dec.of_units 7 (allocation_precise a)) + sum_abs (allocation_amounts l)).
  pose proof (Qabs_triangle (Dec.of_units 7 (allocation_precise a)) (sum_allocations l)).
  lra.
Qed.

Lemma allocation_amounts_app l1 l2 :
  allocation_amounts (l1 ++ l2) = allocation_amounts l1 ++ allocation_amounts l2.
Proof. unfold allocation_amounts. apply map_app. Qed.

(** The shares are added without rounding as long as their magnitudes
    add up to less than 10^33. *)
Lemma allocatedSum_fold allocs : forall acc,
  Dec.on_grid 7 acc ->
  Qabs acc + sum_abs (allocation_amounts allocs) < exact_below ->
  fold_left (fun sum a => Dec.plus sum (Dec.of_units 7 (allocation_precise a))) allocs acc
  == acc + sum_allocations allocs.
Proof.
  unfold exact_below.
  induction allocs as [|a r IH]; intros acc Hg Hb.
  - simpl. ring.
  - change (sum_abs (allocation_amounts (a :: r)))
      with (Qabs (Dec.of_units 7 (allocation_precise a)) + sum_abs (allocation_amounts r))
      in Hb.
    change (sum_allocations (a :: r))
      with (Dec.of_units 7 (allocation_precise a) + sum_allocations r).
    cbn [fold_left].
    set (v := Dec.of_units 7 (allocation_precise a)) in *.
    pose proof (sum_abs_nonneg (allocation_amounts r)) as Hn.
    pose proof (Qabs_triangle acc v) as Ht.
    assert (Hs : Dec.plus acc v == acc + v)
      by (apply plus_exact; [exact Hg|apply on_grid_of_units|lra]).
    rewrite IH.
    + rewrite Hs. ring.
    + eapply on_grid_comp; [symmetry; exact Hs|].
      apply on_grid_plus; [exact Hg|apply on_grid_of_units].
    + rewrite (Qabs_wd _ _ Hs). lra.
Qed.

Lemma allocatedSum_sum allocs :
  sum_abs (allocation_amounts allocs) < exact_below ->
  allocatedSum allocs == sum_allocations allocs.
Proof.
  intros Hb. unfold allocatedSum. rewrite allocatedSum_fold.
  - ring.
  - apply on_grid_0.
  - change (Qabs 0) with 0. lra.
Qed.

Lemma adjust_last_app diff init last :
  adjust_last diff (init ++ [last])
  = init ++ [{| a_line_item_id := a_line_item_id last;
                allocation_precise :=
                  Dec.units 7
                    (Q7 (Dec.plus (Dec.of_units 7 (allocation_precise last)) diff)) |}].
Proof.
  induction init as [|a r IH]; [reflexivity|].
  change ((a :: r) ++ [last]) with (a :: (r ++ [last])).
  destruct (r ++ [last]) as [|b t] eqn:E.
  - destruct r; discriminate.
  - change (adjust_last diff (a :: b :: t)) with (a :: adjust_last diff (b :: t)).
    rewrite IH. reflexivity.
Qed.

Lemma sum_allocations_zero items :
  sum_allocations
    (List.map (fun item => {| a_line_item_id := allocation_id item;
                              allocation_precise := 0 |}) items) == 0.
Proof.
  induction items as [|i r IH]; [reflexivity|].
  cbn [List.map].
  change (sum_allocations (?a :: ?l))
    with (Dec.of_units 7 (allocation_precise a) + sum_allocations l).
  rewrite IH. reflexivity.
Qed.

Lemma greaterThan_true x y : x < y -> Dec.greaterThan y x = true.
Proof.
  intros H. unfold Dec.greaterThan.
  destruct (Qle_bool y x) eqn:E; [|reflexivity].
  apply Qle_bool_iff in E. exfalso. apply (Qlt_not_le _ _ H E).
Qed.

Lemma greaterThan_false x y : y <= x -> Dec.greaterThan y x = false.
Proof.
  intros H. unfold Dec.greaterThan. apply Qle_bool_iff in H. rewrite H. reflexivity.
Qed.

Lemma fixed_allocations_sum adj items :
  0 < totalBase items ->
  Dec.on_grid 7 adj ->
  Qabs adj + sum_abs (allocation_amounts (first_pass adj items)) < exact_below ->
  sum_allocations (fixed_allocations adj items) == adj.
Proof.
  intros Hb Hg Hm. unfold fixed_allocations. rewrite (greaterThan_true _ _ Hb).
  cbv zeta. set (allocs := first_pass adj items) in *.
  unfold exact_below in *.
  pose proof (Qabs_nonneg adj) as Na.
  pose proof (sum_abs_nonneg (allocation_amounts allocs)) as Ns.
  pose proof (sum_allocations_abs allocs) as As.
  assert (A1 : allocatedSum allocs == sum_allocations allocs)
    by (apply allocatedSum_sum; unfold exact_below; lra).
  assert (G1 : Dec.on_grid 7 (allocatedSum allocs))
    by (eapply on_grid_comp; [symmetry; exact A1|apply sum_allocations_on_grid]).
  assert (A2 : Q7 (Dec.minus adj (allocatedSum allocs)) == adj - sum_allocations allocs).
  { assert (E : Dec.minus adj (allocatedSum allocs) == adj - allocatedSum allocs).
    { apply minus_exact; [exact Hg|exact G1|].
      rewrite A1. pose proof (Qabs_triangle adj (- sum_allocations allocs)) as T.
      rewrite Qabs_opp in T. unfold Qminus. lra. }
    rewrite (Q7_comp _ _ E), <- A1.
    apply Q7_on_grid, on_grid_plus; [exact Hg|apply on_grid_opp, G1]. }
  set (diff := Q7 (Dec.minus adj (allocatedSum allocs))) in *.
  destruct (Dec.isZero diff) eqn:Ez; cbn [negb].
  - unfold Dec.isZero in Ez. apply Qeq_bool_eq in Ez. rewrite A2 in Ez. lra.
  - assert (Hne : allocs <> []).
    { subst allocs. unfold first_pass. destruct items; [|discriminate].
      exfalso. revert Hb. unfold totalBase. simpl. apply Qlt_irrefl. }
    destruct (exists_last Hne) as (init & last & El).
    rewrite El in *. rewrite adjust_last_app.
    rewrite sum_allocations_app in *. rewrite allocation_amounts_app, sum_abs_app in *.
    set (v := Dec.of_units 7 (allocation_precise last)) in *.
    change (sum_allocations [last]) with (v + 0) in *.
    change (sum_abs (allocation_amounts [last])) with (Qabs v + 0) in *.
    match goal with
    | |- context [sum_allocations [?a]] =>
        change (sum_allocations [a]) with (Q7 (Q7 (Dec.plus v diff)) + 0)
    end.
    pose proof (sum_allocations_abs init) as Ai.
    pose proof (sum_abs_nonneg (allocation_amounts init)) as Ni.
    pose proof (Qabs_nonneg v) as Nv.
    assert (Gd : Dec.on_grid 7 diff) by apply on_grid_Q7.
    assert (Gv : Dec.on_grid 7 v) by apply on_grid_of_units.
    assert (E : Q7 (Dec.plus v diff) == v + diff).
    { apply Q7_plus_exact; [exact Gv|exact Gd|].
      assert (R : v + diff == adj + - sum_allocations init) by (rewrite A2; ring).
      rewrite (Qabs_wd _ _ R).
      pose proof (Qabs_triangle adj (- sum_allocations init)) as T.
      rewrite Qabs_opp in T. lra. }
    rewrite (Q7_comp _ _ E), (Q7_on_grid (v + diff))
      by (apply on_grid_plus; assumption).
    rewrite A2. ring.
Qed.

Lemma fixed_dispatch host g running items :
  Attr.modifier_type (Group.attributes g) = Some "fixed"%string ->
  applyGroup host g running items =
    Ok {| adjustment :=
            Fin (fixed_adjustment (sort_by (byPriorityThenId host) (Group.modifiers g)));
          skipped := [];
          allocations :=
            fixed_allocations
              (fixed_adjustment (sort_by (byPriorityThenId host) (Group.modifiers g)))
              items |}.
Proof. unfold applyGroup. intros ->. reflexivity. Qed.

(** C3, as the code has it.  For a fixed group of the compliant engine:
    when the line totals sum to more than 0, the group's adjustment
    (the sum of the fixed amounts) has at most 7 fractional digits and
    the magnitudes of the adjustment and of the first-pass shares add
    up to less than 10^33, the per-line allocations sum exactly to the
    adjustment; when the line totals do not sum to more than 0, there is
    one allocation per line and every allocation is 0.0000000. *)
Theorem fixed_allocations_sum_to_the_adjustment host g running items res :
  Attr.modifier_type (Group.attributes g) = Some "fixed"%string ->
  applyGroup host g running items = Ok res ->
  exists adj,
    adjustment res = Fin adj /\
    (0 < totalBase items -> Dec.on_grid 7 adj ->
     Qabs adj + sum_abs (allocation_amounts (first_pass adj items)) < exact_below ->
     sum_allocations (allocations res) == adj) /\
    (totalBase items <= 0 ->
     List.map a_line_item_id (allocations res) = List.map allocation_id items /\
     List.Forall (fun a => allocation_precise a = 0%Z) (allocations res) /\
     sum_allocations (allocations res) == 0).
Proof.
  intros Hk Hres. rewrite (fixed_dispatch _ _ _ _ Hk) in Hres. injection Hres as <-.
  eexists. split; [reflexivity|]. cbn [allocations]. split.
  - apply fixed_allocations_sum.
  - intros Hb. unfold fixed_allocations. rewrite (greaterThan_false _ _ Hb).
    split; [|split].
    + rewrite List.map_map. reflexivity.
    + apply List.Forall_forall. intros a Ha. apply List.in_map_iff in Ha.
      destruct Ha as (item & <- & _). reflexivity.
    + apply sum_allocations_zero.
Qed.

Lemma fixed_allocations_sum_to_the_adjustment_witness :
  exists res,
    Attr.modifier_type (Group.attributes C.fee_10) = Some "fixed"%string /\
    applyGroup sample_host C.fee_10 (Fin 300) C.two_priced = Ok res /\
    List.map allocation_precise (allocations res) = [33333333; 66666667]%Z /\
    0 < totalBase C.two_priced /\
    Qabs 10 + sum_abs (allocation_amounts (first_pass 10 C.two_priced)) < exact_below /\
    exists adj,
      adjustment res = Fin adj /\
      (0 < totalBase C.two_priced -> Dec.on_grid 7 adj ->
       Qabs adj + sum_abs (allocation_amounts (first_pass adj C.two_priced)) < exact_below ->
       sum_allocations (allocations res) == adj) /\
      (totalBase C.two_priced <= 0 ->
       List.map a_line_item_id (allocations res) = List.map allocation_id C.two_priced /\
       List.Forall (fun a => allocation_precise a = 0%Z) (allocations res) /\
       sum_allocations (allocations res) == 0).
Proof.
  eexists. split; [reflexivity|]. split; [vm_compute; reflexivity|].
  split; [vm_compute; reflexivity|].
  split; [vm_compute; reflexivity|].
  split; [vm_compute; reflexivity|].
  apply (fixed_allocations_sum_to_the_adjustment sample_host C.fee_10 (Fin 300) C.two_priced).
  - reflexivity.
  - vm_compute. reflexivity.
Defined.

(** C3, as stated, fails: a fixed amount of 25.00 on a single line of
    price 0.00 is given the allocation 0.0000000. *)
Lemma fixed_allocations_are_zero_without_a_base :
  exists res adj,
    applyGroup sample_host C.fee_25 (Fin 0) C.zero_priced = Ok res /\
    adjustment res = Fin adj /\
    adj == 25 /\
    List.map allocation_precise (allocations res) = [0]%Z /\
    sum_allocations (allocations res) == 0 /\
    ~ sum_allocations (allocations res) == adj.
Proof.
  eexists. eexists. split; [vm_compute; reflexivity|].
  split; [reflexivity|].
  split; [vm_compute; reflexivity|].
  split; [vm_compute; reflexivity|].
  split; [vm_compute; reflexivity|].
  vm_compute. discriminate.
Qed.

(** With an adjustment of 8 fractional digits the residual step can miss:
    0.00000015 over two equal lines is allocated as 0.0000001 and
    0.0000000, while the adjustment is emitted as 0.0000002. *)
Example fixed_allocations_of_an_eight_digit_amount :
  exists r,
    applyModifierGroups sample_host
      [C.fixed_group [C.fixed_modifier "f" (Str (15 # 100000000))]] 2
      [C.line "a" 1 1 Absent None false; C.line "b" 1 1 Absent None false] = Ok r /\
    List.map (fun g => (XDec.toFixed 7 (ag_adjustment g),
                        List.map allocation_precise (ag_allocations g)))
      (appliedGroups r)
    = [("0.0000002"%string, [1; 0]%Z)].
Proof. eexists. split; [vm_compute; reflexivity|]. vm_compute. reflexivity. Qed.

(** The ratio of a share is rounded to 40 significant digits before it
    is multiplied: of 2.0000001 over lines of 5 and of 9, the first
    line gets 0.7142857, where its exact share 0.71428575 would round to
    0.7142858. *)
Example fixed_allocations_round_the_ratio :
  List.map allocation_precise
    (fixed_allocations (20000001 # 10000000)
       [C.line "a" 5 1 Absent None false; C.line "b" 9 1 Absent None false])
  = [7142857; 12857144]%Z /\
  Dec.units 7 ((20000001 # 10000000) * (5 / 14)) = 7142858%Z.
Proof. split; vm_compute; reflexivity. Qed.

End FixedAllocations.

(** ** The use-tax sample *)

Section UseTaxSample.

Import Statements Samples.

(** C4, as the code has it.  The engines read the flag
    [use_tax_eligible]; a line that carries [useTaxEligible] and
    [vendorTaxCollected] instead is normalized as if it carried
    neither.  For the sample as the specification words it (one line of
    unit price 0.00, quantity 1, cost 1000.00, useTaxEligible true, use
    tax rate 0.08) the pure engine returns subtotal 0.00, retail tax
    0.00 and customer grand total 0.00; in mode USE_TAX it emits no
    [useTax] and no [internalGrandTotal], and the use tax base and
    amount of its state are 0.00; in mode MIXED it returns use tax 0.00
    and internal grand total 0.00.  With the flag spelled
    [use_tax_eligible] the use tax base is 1000.00 and the use tax of
    the state is 80.00; mode USE_TAX still emits neither field, and
    mode MIXED returns use tax 80.00 and internal grand total 80.00.
    The archived compliant engine in mode USE_TAX computes use tax base
    0.00 for the line as worded and 1000.00, with use tax 80.00, for
    the flag it reads, and sets both grand totals to 0.00 either way. *)
Theorem use_tax_sample_results (host : Host) :
  (forall item eligible collected,
     PureCalculationEngine.normalizeLineItem (with_worded_flags item eligible collected)
     = PureCalculationEngine.normalizeLineItem item) /\
  (exists r st,
     PureCalculationEngine.calculate host (use_tax_request_as_worded "USE_TAX") = Ok r /\
     PureCalculationEngine.subtotal r = "0.00"%string /\
     PureCalculationEngine.retailTax r = "0.00"%string /\
     PureCalculationEngine.customerGrandTotal r = "0.00"%string /\
     PureCalculationEngine.useTax r = None /\
     PureCalculationEngine.internalGrandTotal r = None /\
     PureCalculationEngine.finalState host
       (PureCalculationEngine.normalizeInput host (use_tax_request_as_worded "USE_TAX"))
     = Ok st /\
     Dec.toFixed 2
       (PureCalculationEngine.calculateUseTaxBase
          (PureCalculationEngine.n_lineItems
             (PureCalculationEngine.normalizeInput host
                (use_tax_request_as_worded "USE_TAX"))))
     = "0.00"%string /\
     Dec.toFixed 2 (PureCalculationEngine.useTaxAmount st) = "0.00"%string) /\
  (exists r,
     PureCalculationEngine.calculate host (use_tax_request_as_worded "MIXED") = Ok r /\
     PureCalculationEngine.customerGrandTotal r = "0.00"%string /\
     PureCalculationEngine.useTax r = Some "0.00"%string /\
     PureCalculationEngine.internalGrandTotal r = Some "0.00"%string) /\
  (exists r st,
     PureCalculationEngine.calculate host (use_tax_request "USE_TAX") = Ok r /\
     PureCalculationEngine.subtotal r = "0.00"%string /\
     PureCalculationEngine.retailTax r = "0.00"%string /\
     PureCalculationEngine.customerGrandTotal r = "0.00"%string /\
     PureCalculationEngine.useTax r = None /\
     PureCalculationEngine.internalGrandTotal r = None /\
     PureCalculationEngine.finalState host
       (PureCalculationEngine.normalizeInput host (use_tax_request "USE_TAX")) = Ok st /\
     Dec.toFixed 2
       (PureCalculationEngine.calculateUseTaxBase
          (PureCalculationEngine.n_lineItems
             (PureCalculationEngine.normalizeInput host (use_tax_request "USE_TAX"))))
     = "1000.00"%string /\
     Dec.toFixed 2 (PureCalculationEngine.useTaxAmount st) = "80.00"%string) /\
  (exists r,
     PureCalculationEngine.calculate host (use_tax_request "MIXED") = Ok r /\
     PureCalculationEngine.customerGrandTotal r = "0.00"%string /\
     PureCalculationEngine.useTax r = Some "80.00"%string /\
     PureCalculationEngine.internalGrandTotal r = Some "80.00"%string) /\
  (exists b m t totals,
     CompliantCalculationEngine.calculate_phases host C.use_tax_lines_as_worded []
       (C.legacy_config "USE_TAX" 0 (8 # 100)) [] = Ok (b, m, t, totals) /\
     Dec.toFixed 2 (CompliantCalculationEngine.useTaxBase t) = "0.00"%string /\
     Dec.toFixed 2 (CompliantCalculationEngine.useTaxAmount t) = "0.00"%string /\
     CompliantCalculationEngine.customerGrandTotal totals = "0.00"%string /\
     CompliantCalculationEngine.internalGrandTotal totals = "0.00"%string) /\
  (exists b m t totals,
     CompliantCalculationEngine.calculate_phases host C.use_tax_lines []
       (C.legacy_config "USE_TAX" 0 (8 # 100)) [] = Ok (b, m, t, totals) /\
     Dec.toFixed 2 (CompliantCalculationEngine.useTaxBase t) = "1000.00"%string /\
     Dec.toFixed 2 (CompliantCalculationEngine.useTaxAmount t) = "80.00"%string /\
     CompliantCalculationEngine.customerGrandTotal totals = "0.00"%string /\
     CompliantCalculationEngine.internalGrandTotal totals = "0.00"%string).
Proof.
  split; [reflexivity|].
  split; [|split; [|split; [|split; [|split]]]].
  - do 2 eexists. split; [vm_compute; reflexivity|].
    do 5 (split; [reflexivity|]).
    split; [vm_compute; reflexivity|]. split; vm_compute; reflexivity.
  - eexists. split; [vm_compute; reflexivity|]. repeat split; reflexivity.
  - do 2 eexists. split; [vm_compute; reflexivity|].
    do 5 (split; [reflexivity|]).
    split; [vm_compute; reflexivity|]. split; vm_compute; reflexivity.
  - eexists. split; [vm_compute; reflexivity|]. repeat split; reflexivity.
  - do 4 eexists. split; [vm_compute; reflexivity|]. repeat split; vm_compute; reflexivity.
  - do 4 eexists. split; [vm_compute; reflexivity|]. repeat split; vm_compute; reflexivity.
Qed.

(** C4, as stated, fails: for the line as worded neither engine
    computes a use tax, in mode USE_TAX the pure engine emits no use
    tax and no internal grand total, and neither engine gives an
    internal grand total of 80.00; in mode MIXED the pure engine
    returns use tax 0.00 and internal grand total 0.00. *)
Lemma use_tax_sample_is_not_as_claimed :
  exists r r' b m t totals,
    PureCalculationEngine.calculate sample_host (use_tax_request_as_worded "USE_TAX")
    = Ok r /\
    PureCalculationEngine.useTax r <> Some "80.00"%string /\
    PureCalculationEngine.internalGrandTotal r <> Some "80.00"%string /\
    PureCalculationEngine.calculate sample_host (use_tax_request_as_worded "MIXED")
    = Ok r' /\
    PureCalculationEngine.useTax r' <> Some "80.00"%string /\
    PureCalculationEngine.internalGrandTotal r' <> Some "80.00"%string /\
    CompliantCalculationEngine.calculate_phases sample_host C.use_tax_lines_as_worded []
      (C.legacy_config "USE_TAX" 0 (8 # 100)) [] = Ok (b, m, t, totals) /\
    Dec.toFixed 2 (CompliantCalculationEngine.useTaxBase t) <> "1000.00"%string /\
    Dec.toFixed 2 (CompliantCalculationEngine.useTaxAmount t) <> "80.00"%string /\
    CompliantCalculationEngine.internalGrandTotal totals <> "80.00"%string.
Proof.
  do 6 eexists. split; [vm_compute; reflexivity|].
  split; [discriminate|]. split; [discriminate|].
  split; [vm_compute; reflexivity|].
  split; [discriminate|]. split; [discriminate|].
  split; [vm_compute; reflexivity|].
  split; [vm_compute; discriminate|].
  split; [vm_compute; discriminate|].
  vm_compute. discriminate.
Qed.

(** With the flag the code reads, mode USE_TAX still gives neither an
    emitted use tax nor an internal grand total of 80.00. *)
Lemma use_tax_mode_emits_no_use_tax :
  exists r b m t totals,
    PureCalculationEngine.calculate sample_host (use_tax_request "USE_TAX") = Ok r /\
    PureCalculationEngine.useTax r <> Some "80.00"%string /\
    PureCalculationEngine.internalGrandTotal r <> Some "80.00"%string /\
    CompliantCalculationEngine.calculate_phases sample_host C.use_tax_lines []
      (C.legacy_config "USE_TAX" 0 (8 # 100)) [] = Ok (b, m, t, totals) /\
    CompliantCalculationEngine.internalGrandTotal totals <> "80.00"%string.
Proof.
  do 5 eexists. split; [vm_compute; reflexivity|].
  split; [discriminate|]. split; [discriminate|].
  split; [vm_compute; reflexivity|].
  vm_compute. discriminate.
Qed.

End UseTaxSample.

(** ** Checksums *)

Section Checksums.

Import Statements Samples.

Lemma sorted_data_keys r :
  JSON.sort_keys (JSON.keys (CalculationResult.data r))
  = ["precise"; "proposalId"; "version"]%string.
Proof. reflexivity. Qed.

(** The array replacer holds the three top-level keys only, so the five
    amounts under [precise] are never written. *)
Lemma generateChecksum_reads_only_proposal_and_version host r1 r2 :
  CalculationResult.proposalId r1 = CalculationResult.proposalId r2 ->
  CalculationResult.version r1 = CalculationResult.version r2 ->
  CalculationResult.generateChecksum host r1 = CalculationResult.generateChecksum host r2.
Proof.
  intros Hp Hv. unfold CalculationResult.generateChecksum. f_equal.
  unfold CalculationResult.canonicalize. rewrite !sorted_data_keys.
  unfold CalculationResult.data. rewrite Hp, Hv.
  destruct (CalculationResult.proposalId r2), (CalculationResult.version r2); reflexivity.
Qed.

(** C5 fails on [CalculationResult.generateChecksum]: two results of the
    same proposal and version whose subtotals and grand totals differ
    (100.0000000 and 200.0000000) are encoded as the same text, in which
    [precise] is the empty object, and so have the same checksum whatever
    the hash function is. *)
Theorem calculation_result_checksum_ignores_the_amounts (host : Host) :
  CalculationResult.grandTotalPrecise result_of_100
    <> CalculationResult.grandTotalPrecise result_of_200 /\
  CalculationResult.canonicalize (CalculationResult.data result_of_100)
  = ("{" +:+ JSON.quote "precise" +:+ ":{}," +:+ JSON.quote "proposalId" +:+ ":"
     +:+ JSON.quote "p1" +:+ "," +:+ JSON.quote "version" +:+ ":1}")%string /\
  CalculationResult.canonicalize (CalculationResult.data result_of_200)
  = CalculationResult.canonicalize (CalculationResult.data result_of_100) /\
  CalculationResult.generateChecksum host result_of_100
  = CalculationResult.generateChecksum host result_of_200.
Proof.
  split; [discriminate|]. split; [reflexivity|]. split; [reflexivity|].
  apply generateChecksum_reads_only_proposal_and_version; reflexivity.
Qed.

(** The pure engine hashes the recursively canonicalized result. *)
Lemma pure_checksum_is_the_hash_of_the_canonical_encoding host input result :
  PureCalculationEngine.calculate host input = Ok result ->
  exists unsigned,
    PureCalculationEngine.checksum unsigned = None /\
    result = PureCalculationEngine.with_checksum unsigned
               (sha256 host
                  (JSON.stringify None
                     (PureCalculationEngine.canonicalize
                        (PureCalculationEngine.result_json host unsigned)))).
Proof.
  unfold PureCalculationEngine.calculate. intros H.
  destruct (PureCalculationEngine.validateInput input) as [[]|e]; simpl in H; [|discriminate].
  destruct (PureCalculationEngine.finalState host _) as [st|e]; simpl in H; [|discriminate].
  injection H as <-. eexists. split; [|reflexivity]. reflexivity.
Qed.

Example pure_encodings_of_different_totals_differ :
  exists r1 r2,
    PureCalculationEngine.calculate sample_host (use_tax_request "MIXED") = Ok r1 /\
    PureCalculationEngine.calculate sample_host exempt_request = Ok r2 /\
    PureCalculationEngine.checksum r1 <> PureCalculationEngine.checksum r2.
Proof.
  do 2 eexists. split; [vm_compute; reflexivity|]. split; [vm_compute; reflexivity|].
  discriminate.
Qed.

End Checksums.

(** ** Tax classification of line items *)

Section TaxClassification.

Import Statements Samples.

Lemma absent_tax_setting_is_taxable (item : PureCalculationEngine.Raw.LineItem) :
  PureCalculationEngine.Raw.tax_setting item = None ->
  PureCalculationEngine.Raw.taxSetting item = None ->
  PureCalculationEngine.taxSetting (PureCalculationEngine.normalizeLineItem item)
  = "TAXABLE"%string.
Proof.
  intros H1 H2. unfold PureCalculationEngine.normalizeLineItem. simpl.
  rewrite H1, H2. reflexivity.
Qed.

Lemma compliant_classifies_absent_as_taxable (item : CompliantCalculationEngine.LineItem) :
  CompliantCalculationEngine.tax_setting item = None ->
  CompliantCalculationEngine.classify item = CompliantCalculationEngine.Taxable.
Proof.
  intros H. unfold CompliantCalculationEngine.classify. rewrite H. reflexivity.
Qed.

Lemma compliant_classifies_unrecognised_as_taxable (item : CompliantCalculationEngine.LineItem) :
  toUpperCase (txt_default (CompliantCalculationEngine.tax_setting item) "TAXABLE")
    <> "NON_TAXABLE"%string ->
  CompliantCalculationEngine.classify item = CompliantCalculationEngine.Taxable.
Proof.
  intros H. unfold CompliantCalculationEngine.classify.
  destruct (String.eqb _ "TAXABLE"); [reflexivity|].
  destruct (String.eqb_spec
              (toUpperCase (txt_default (CompliantCalculationEngine.tax_setting item) "TAXABLE"))
              "NON_TAXABLE") as [E|E]; [contradiction|reflexivity].
Qed.

Lemma taxable_lines_fold_filter items : forall acc,
  fold_left
    (fun taxableBase item =>
       let itemTaxSetting :=
         toUpperCase (txt_default (Some (PureCalculationEngine.taxSetting item)) "TAXABLE") in
       if String.eqb itemTaxSetting "TAXABLE"
       then PrecisionPolicy.intermediate
              (Dec.plus taxableBase
                 (PrecisionPolicy.intermediate
                    (Dec.times (PureCalculationEngine.unitPrice item)
                       (PureCalculationEngine.quantity_or_one item))))
       else taxableBase)
    items acc
  = fold_left
      (fun taxableBase item =>
         PrecisionPolicy.intermediate
           (Dec.plus taxableBase
              (PrecisionPolicy.intermediate
                 (Dec.times (PureCalculationEngine.unitPrice item)
                    (PureCalculationEngine.quantity_or_one item)))))
      (List.filter marked_taxable items) acc.
Proof.
  induction items as [|i r IH]; intros acc; [reflexivity|].
  cbn [fold_left List.filter]. cbv zeta. unfold marked_taxable at 1.
  destruct (String.eqb _ "TAXABLE"); cbn [fold_left]; apply IH.
Qed.

(** C10, as the code has it.  Both engines take a line without a tax
    setting as TAXABLE.  The archived compliant engine classifies as
    taxable every line whose setting, in upper case, is not NON_TAXABLE.
    The pure engine adds to the retail-taxable base the lines whose
    setting, in upper case, is TAXABLE and no other: its taxable base is
    the one of those lines alone, and a line with any other setting
    leaves it as it is. *)
Theorem pure_engine_taxes_only_the_lines_marked_taxable :
  (forall item,
     PureCalculationEngine.Raw.tax_setting item = None ->
     PureCalculationEngine.Raw.taxSetting item = None ->
     marked_taxable (PureCalculationEngine.normalizeLineItem item) = true) /\
  (forall item,
     CompliantCalculationEngine.tax_setting item = None ->
     CompliantCalculationEngine.classify item = CompliantCalculationEngine.Taxable) /\
  (forall item,
     toUpperCase (txt_default (CompliantCalculationEngine.tax_setting item) "TAXABLE")
       <> "NON_TAXABLE"%string ->
     CompliantCalculationEngine.classify item = CompliantCalculationEngine.Taxable) /\
  (forall items,
     PureCalculationEngine.taxable_lines_base items
     = PureCalculationEngine.taxable_lines_base (List.filter marked_taxable items)) /\
  (forall items item,
     marked_taxable item = false ->
     PureCalculationEngine.taxable_lines_base (items ++ [item])
     = PureCalculationEngine.taxable_lines_base items).
Proof.
  split; [|split; [|split; [|split]]].
  - intros item H1 H2. unfold marked_taxable.
    rewrite (absent_tax_setting_is_taxable item H1 H2). reflexivity.
  - apply compliant_classifies_absent_as_taxable.
  - apply compliant_classifies_unrecognised_as_taxable.
  - intros items. unfold PureCalculationEngine.taxable_lines_base.
    rewrite !taxable_lines_fold_filter.
    assert (E : forall l, List.filter marked_taxable (List.filter marked_taxable l)
                          = List.filter marked_taxable l).
    { induction l as [|x l IH]; [reflexivity|]. cbn [List.filter].
      destruct (marked_taxable x) eqn:Ex; [|exact IH].
      cbn [List.filter]. rewrite Ex, IH. reflexivity. }
    rewrite E. reflexivity.
  - intros items item H. unfold PureCalculationEngine.taxable_lines_base.
    rewrite !taxable_lines_fold_filter, List.filter_app. cbn [List.filter].
    rewrite H, app_nil_r. reflexivity.
Qed.

(** The two engines on one line of 100.00 whose tax setting is "exempt",
    at a retail rate of 0.10: [calculateBase] of the compliant engine puts it
    in the taxable subtotal, and [resolveModifierTaxSetting] of the pure
    engine resolves a modifier that inherits from it to taxable, but
    [calculateTaxes] of the pure engine leaves it out of the taxable base:
    the retail tax is 0.00 and the customer grand total 100.00. *)
Theorem unrecognised_tax_setting_is_left_out_of_the_tax_base (host : Host) :
  (exists r,
     PureCalculationEngine.calculate host exempt_request = Ok r /\
     PureCalculationEngine.subtotal r = "100.00"%string /\
     PureCalculationEngine.retailTax r = "0.00"%string /\
     PureCalculationEngine.customerGrandTotal r = "100.00"%string) /\
  List.map PureCalculationEngine.taxSetting
    (PureCalculationEngine.n_lineItems
       (PureCalculationEngine.normalizeInput host exempt_request)) = ["EXEMPT"%string] /\
  PureCalculationEngine.taxable_lines_base
    (PureCalculationEngine.n_lineItems
       (PureCalculationEngine.normalizeInput host exempt_request)) == 0 /\
  (forall m,
     PureCalculationEngine.Mod.tax_setting m = Some "inherit"%string ->
     PureCalculationEngine.Mod.line_item_id m = Some "a"%string ->
     PureCalculationEngine.resolveModifierTaxSetting m
       (PureCalculationEngine.n_lineItems
          (PureCalculationEngine.normalizeInput host exempt_request)) = "taxable"%string) /\
  CompliantCalculationEngine.classify C.exempt_line = CompliantCalculationEngine.Taxable /\
  Dec.toFixed 7
    (CompliantCalculationEngine.taxableSubtotal
       (CompliantCalculationEngine.calculateBase [C.exempt_line])) = "100.0000000"%string.
Proof.
  split; [|split; [|split; [|split; [|split]]]].
  - eexists. split; [vm_compute; reflexivity|]. repeat split; reflexivity.
  - reflexivity.
  - vm_compute. reflexivity.
  - intros m H1 H2. unfold PureCalculationEngine.resolveModifierTaxSetting.
    rewrite H1, H2. reflexivity.
  - reflexivity.
  - vm_compute. reflexivity.
Qed.

(** C10, as stated, fails in the pure engine: the line of 100.00 marked
    "exempt" is not taken as taxable, at the retail rate of 0.10 the
    retail tax is 0.00 and not the 10.00 of a taxable line. *)
Lemma exempt_line_is_not_taxed :
  exists r item,
    PureCalculationEngine.calculate sample_host exempt_request = Ok r /\
    PureCalculationEngine.n_lineItems
      (PureCalculationEngine.normalizeInput sample_host exempt_request) = [item] /\
    PureCalculationEngine.taxSetting item = "EXEMPT"%string /\
    marked_taxable item = false /\
    PureCalculationEngine.retailTax r = "0.00"%string /\
    PureCalculationEngine.customerGrandTotal r = "100.00"%string /\
    PureCalculationEngine.retailTax r <> "10.00"%string.
Proof.
  do 2 eexists. split; [vm_compute; reflexivity|].
  split; [vm_compute; reflexivity|].
  split; [reflexivity|]. split; [reflexivity|].
  split; [reflexivity|]. split; [reflexivity|]. discriminate.
Qed.

End TaxClassification.

(** ** The commit stage *)

Section Idempotency.

Import PostProcessor Samples.

Lemma process_hit faults result request (w : World) stored :
  idempotency w !! checksum result = Some stored ->
  process faults result request w = (Ok stored, w).
Proof.
  intros H. unfold process, IdempotencyChecker.check. rewrite H. reflexivity.
Qed.

Lemma process_miss_ok faults result request (w : World) response w1 :
  idempotency w !! checksum result = None ->
  process faults result request w = (Ok response, w1) ->
  response = with_proposalId result request /\
  idempotency w1 = <[checksum result := response]> (idempotency w) /\
  db w1 = db w ++ [persist response; publishWithinTransaction response] /\
  webhooks w1 = webhooks w.
Proof.
  intros Hm. unfold process, IdempotencyChecker.check, IdempotencyChecker.store.
  rewrite Hm.
  destruct (beginTransaction_fails faults); [discriminate|].
  destruct (persist_fails faults); [discriminate|].
  destruct (outbox_fails faults); [discriminate|].
  destruct (cache_fails faults); [discriminate|].
  destruct (commit_fails faults); [discriminate|].
  intros [= <- <-]. simpl. repeat split; reflexivity.
Qed.

(** C8, as the code has it.  When the idempotency store holds a result
    under the checksum of the submitted result, [process] returns the
    stored result and leaves the world as it was: no row, no outbox
    event, no cache entry, no metric, no webhook call.  When the store
    has no such entry and [process] succeeds, a second submission of the
    same result returns the same response and changes nothing, so the
    two submissions together wrote one row of [calculation_results], one
    outbox event and no audit row. *)
Theorem commit_is_idempotent faults faults' result request (w : World) :
  (forall stored,
     idempotency w !! checksum result = Some stored ->
     process faults result request w = (Ok stored, w)) /\
  (forall response w1,
     idempotency w !! checksum result = None ->
     process faults result request w = (Ok response, w1) ->
     process faults' result request w1 = (Ok response, w1) /\
     exists written,
       db w1 = db w ++ written /\
       count_where is_upsert written = 1%nat /\
       count_where is_outbox written = 1%nat /\
       count_where is_audit written = 0%nat).
Proof.
  split.
  - intros stored H. apply process_hit, H.
  - intros response w1 Hm Hp.
    destruct (process_miss_ok _ _ _ _ _ _ Hm Hp) as (Hr & Hi & Hd & Hw).
    split.
    + apply process_hit. rewrite Hi. apply lookup_insert_eq.
    + eexists. split; [exact Hd|]. repeat split; reflexivity.
Qed.

Lemma commit_is_idempotent_witness :
  exists response w1,
    idempotency fresh_world !! checksum computed_result = None /\
    process no_faults computed_result sample_request fresh_world = (Ok response, w1) /\
    process no_faults computed_result sample_request w1 = (Ok response, w1) /\
    count_where is_upsert (db w1) = 1%nat /\
    count_where is_outbox (db w1) = 1%nat.
Proof.
  do 2 eexists. split; [reflexivity|]. split; [reflexivity|].
  split.
  - refine (proj1 (proj2 (commit_is_idempotent no_faults no_faults computed_result
                            sample_request fresh_world) _ _ _ _)); reflexivity.
  - split; reflexivity.
Defined.

(** C8, as stated, fails in one point: after the same result is submitted
    twice to a world in which nothing was stored, the database holds one
    result row and one outbox event, and no audit row. *)
Lemma no_audit_row_is_written :
  exists response w1 w2,
    process no_faults computed_result sample_request fresh_world = (Ok response, w1) /\
    process no_faults computed_result sample_request w1 = (Ok response, w2) /\
    count_where is_upsert (db w2) = 1%nat /\
    count_where is_outbox (db w2) = 1%nat /\
    count_where is_audit (db w2) = 0%nat /\
    count_where is_audit (db w2) <> 1%nat.
Proof.
  do 3 eexists. split; [reflexivity|]. split; [reflexivity|].
  repeat split; try reflexivity. discriminate.
Qed.

End Idempotency.

(** ** The safe rule evaluator *)

Section RuleEvaluation.

Import SafeRuleEvaluator Statements Samples.

Lemma evalNode_unfold host context n depth count :
  evalNode host context n depth count =
    if (limits_maxDepth <? depth)%nat then (Err RuleDepthExceeded, count)
    else if (limits_maxOperations <? S count)%nat then (Err RuleOperationsExceeded, S count)
    else match n with
         | Comparison op l r =>
             evalComparison_with (evalNode host context) host op l r depth (S count)
         | Logical op l r =>
             evalLogical_with (evalNode host context) op l r depth (S count)
         | Literal v => (Ok v, S count)
         | Field path => (Ok (getFieldValue path context), S count)
         | Unknown _ => (Err InvalidRuleType, S count)
         end.
Proof. destruct n; reflexivity. Qed.



Lemma evalNode_within_the_limits host context n depth count :
  within_the_limits depth count ->
  evalNode host context n depth count =
    match n with
    | Comparison op l r =>
        evalComparison_with (evalNode host context) host op l r depth (S count)
    | Logical op l r =>
        evalLogical_with (evalNode host context) op l r depth (S count)
    | Literal v => (Ok v, S count)
    | Field path => (Ok (getFieldValue path context), S count)
    | Unknown _ => (Err InvalidRuleType, S count)
    end.
Proof.
  intros [Hd Hc]. rewrite evalNode_unfold.
  replace (limits_maxDepth <? depth)%nat with false by (symmetry; apply Nat.ltb_ge; lia).
  replace (limits_maxOperations <? S count)%nat with false
    by (symmetry; apply Nat.ltb_ge; lia).
  reflexivity.
Qed.



(** The calls that the evaluation of a comparison or of a logical node
    makes are those of [calls]: the left child, and the right child
    when the left one has returned and the operator goes on. *)
Lemma comparison_calls_both_children host context op l r depth count left c1 :
  within_the_limits depth count ->
  evalNode host context l (depth + 1) (S count) = (Ok left, c1) ->
  evalNode host context (Comparison op l r) depth count
  = match evalNode host context r (depth + 1) c1 with
    | (Ok v, c2) => (compare host left v op, c2)
    | (Err e, c2) => (Err e, c2)
    end.
Proof.
  intros Hw Hl. rewrite (evalNode_within_the_limits _ _ _ _ _ Hw).
  unfold evalComparison_with, bind. rewrite Hl. reflexivity.
Qed.



Example deep_rule_is_aborted :
  evaluate sample_host (nested_rule 11) VNull = (Err RuleDepthExceeded, 11%nat) /\
  exists v, evaluate sample_host (nested_rule 10) VNull = (Ok v, 21%nat).
Proof. split; [vm_compute; reflexivity|]. eexists. vm_compute. reflexivity. Qed.

Example wide_rule_is_aborted :
  evaluate sample_host (full_rule 10) VNull = (Err RuleOperationsExceeded, 1001%nat).
Proof. vm_compute. reflexivity. Qed.

(** An error under the right operand of an AND whose left operand is
    true ends the evaluation. *)
Example error_under_a_right_operand :
  evaluate sample_host
    (Logical (Some "and"%string) (Literal (VBool true)) (Unknown "call"))
    VNull
  = (Err InvalidRuleType, 3%nat).
Proof. vm_compute. reflexivity. Qed.

End RuleEvaluation.

(** ** The precision policy *)

Section PrecisionPolicyFacts.

Lemma toDecimalPlaces_idem dp x :
  Dec.toDecimalPlaces dp (Dec.toDecimalPlaces dp x) = Dec.toDecimalPlaces dp x.
Proof. unfold Dec.toDecimalPlaces. rewrite units_of_units. reflexivity. Qed.

Lemma Q2_bounds x :
  Q2 x - (1 # 200) <= x /\ x <= Q2 x + (1 # 200).
Proof.
  pose proof (round_half_up_bounds (x * inject_Z (Dec.pow10 2))) as [L U].
  unfold Q2, PrecisionPolicy.final, Dec.toDecimalPlaces, Dec.of_units.
  change PrecisionPolicy.FINAL_SCALE with 2%nat.
  fold (Dec.units 2 x) in L, U.
  change (inject_Z (Dec.pow10 2)) with (100 # 1) in *.
  generalize dependent (inject_Z (Dec.units 2 x)). intros u L U.
  unfold Qdiv. change (/ (100 # 1)) with (1 # 100).
  split; lra.
Qed.

(** X1. Rounding a second time changes nothing, for the 7-place and for
    the 2-place rounding of the precision policy, and a rounded amount
    is within half a step of the amount: 0.00000005 at 7 places, 0.005
    at 2 places. *)
Theorem rounding_is_idempotent_and_within_half_a_step x :
  PrecisionPolicy.intermediate (PrecisionPolicy.intermediate x) = PrecisionPolicy.intermediate x /\
  PrecisionPolicy.final (PrecisionPolicy.final x) = PrecisionPolicy.final x /\
  Qabs (PrecisionPolicy.intermediate x - x) <= 1 # 20000000 /\
  Qabs (PrecisionPolicy.final x - x) <= 1 # 200.
Proof.
  split; [apply toDecimalPlaces_idem|]. split; [apply toDecimalPlaces_idem|].
  split.
  - pose proof (Q7_bounds x) as [L U]. apply Qabs_Qle_condition.
    change PrecisionPolicy.intermediate with Q7. split; lra.
  - pose proof (Q2_bounds x) as [L U]. apply Qabs_Qle_condition.
    change PrecisionPolicy.final with Q2. split; lra.
Qed.

Lemma round_half_up_mono x y : x <= y -> (Dec.round_half_up x <= Dec.round_half_up y)%Z.
Proof.
  intros H. unfold Dec.round_half_up.
  destruct (Qle_bool 0 x) eqn:Ex; destruct (Qle_bool 0 y) eqn:Ey.
  - apply Qfloor_resp_le. lra.
  - apply Qle_bool_iff in Ex.
    assert (~ 0 <= y) by (intros C; apply Qle_bool_iff in C; congruence). lra.
  - assert (Hx : x < 0).
    { apply Qnot_le_lt. intros C. apply Qle_bool_iff in C. congruence. }
    apply Qle_bool_iff in Ey.
    assert (A : (0 <= Qfloor (y + (1 # 2)))%Z).
    { change 0%Z with (Qfloor 0). apply Qfloor_resp_le. lra. }
    assert (B : (0 <= Qfloor (- x + (1 # 2)))%Z).
    { change 0%Z with (Qfloor 0). apply Qfloor_resp_le. lra. }
    lia.
  - assert (A : (Qfloor (- y + (1 # 2)) <= Qfloor (- x + (1 # 2)))%Z).
    { apply Qfloor_resp_le. lra. }
    lia.
Qed.

Lemma toDecimalPlaces_mono dp x y :
  x <= y -> Dec.toDecimalPlaces dp x <= Dec.toDecimalPlaces dp y.
Proof.
  intros H. unfold Dec.toDecimalPlaces, Dec.of_units, Dec.units.
  assert (P := pow10_Q_pos dp).
  assert (M : (Dec.round_half_up (x * inject_Z (Dec.pow10 dp))
               <= Dec.round_half_up (y * inject_Z (Dec.pow10 dp)))%Z).
  { apply round_half_up_mono. apply Qmult_le_compat_r; [exact H|]. apply Qlt_le_weak, P. }
  rewrite Zle_Qle in M.
  unfold Qdiv. apply Qmult_le_compat_r; [exact M|].
  apply Qlt_le_weak, Qinv_lt_0_compat, P.
Qed.

Lemma round_half_up_opp x : Dec.round_half_up (- x) = (- Dec.round_half_up x)%Z.
Proof.
  unfold Dec.round_half_up.
  destruct (Qle_bool 0 x) eqn:Ex; destruct (Qle_bool 0 (- x)) eqn:Ey.
  - apply Qle_bool_iff in Ex, Ey.
    assert (E : x == 0) by lra.
    rewrite (Qfloor_comp (- x + (1 # 2)) (1 # 2)) by (rewrite E; reflexivity).
    rewrite (Qfloor_comp (x + (1 # 2)) (1 # 2)) by (rewrite E; reflexivity).
    reflexivity.
  - rewrite (Qfloor_comp (- - x + (1 # 2)) (x + (1 # 2))) by ring. reflexivity.
  - rewrite Z.opp_involutive. reflexivity.
  - exfalso.
    assert (~ 0 <= x) by (intros C; apply Qle_bool_iff in C; congruence).
    assert (~ 0 <= - x) by (intros C; apply Qle_bool_iff in C; congruence).
    lra.
Qed.

(** X2. Both roundings of the precision policy keep the order of two
    amounts, and round a negated amount to the negated rounding: a
    discount and the surcharge of the same size round to opposite
    values. *)
Theorem rounding_is_monotone_and_odd x y :
  x <= y ->
  PrecisionPolicy.intermediate x <= PrecisionPolicy.intermediate y /\
  PrecisionPolicy.final x <= PrecisionPolicy.final y /\
  PrecisionPolicy.intermediate (- x) == - PrecisionPolicy.intermediate x /\
  PrecisionPolicy.final (- x) == - PrecisionPolicy.final x.
Proof.
  intros H. split; [apply toDecimalPlaces_mono, H|]. split; [apply toDecimalPlaces_mono, H|].
  assert (O : forall dp, Dec.toDecimalPlaces dp (- x) == - Dec.toDecimalPlaces dp x).
  { intros dp. unfold Dec.toDecimalPlaces, Dec.units.
    rewrite (round_half_up_comp (- x * inject_Z (Dec.pow10 dp))
               (- (x * inject_Z (Dec.pow10 dp)))) by ring.
    rewrite round_half_up_opp. unfold Dec.of_units. rewrite inject_Z_opp.
    field. apply pow10_Q_nonzero. }
  split; apply O.
Qed.

Lemma rounding_is_monotone_and_odd_witness :
  (1 # 8) <= (1 # 4) /\
  PrecisionPolicy.final (1 # 8) <= PrecisionPolicy.final (1 # 4) /\
  PrecisionPolicy.final (- (1 # 8)) == - PrecisionPolicy.final (1 # 8).
Proof.
  assert (H : (1 # 8) <= (1 # 4)) by (unfold Qle; simpl; lia).
  split; [exact H|].
  split; [exact (proj1 (proj2 (rounding_is_monotone_and_odd (1 # 8) (1 # 4) H)))
         |exact (proj2 (proj2 (proj2 (rounding_is_monotone_and_odd (1 # 8) (1 # 4) H))))].
Defined.

End PrecisionPolicyFacts.

(** ** Input validation *)

Section InputValidation.

Import PureCalculationEngine Statements Samples.

Lemma has_duplicate_id_None seen mods :
  has_duplicate_id seen mods = None <->
  List.NoDup (List.map Mod.id mods) /\ (forall m, In m mods -> ~ In (Mod.id m) seen).
Proof.
  revert seen. induction mods as [|m r IH]; intros seen; simpl.
  - split; [intros _; split; [constructor|intros ? []]|reflexivity].
  - destruct (existsb (String.eqb (Mod.id m)) seen) eqn:E.
    + split; [discriminate|]. intros [_ H]. exfalso.
      apply existsb_exists in E. destruct E as (x & Hx & Ex).
      apply String.eqb_eq in Ex. subst x. apply (H m); auto.
    + rewrite IH. split.
      * intros [Hnd Hs]. split.
        -- constructor; [|exact Hnd].
           intros Hin. apply in_map_iff in Hin. destruct Hin as (m' & Em & Hm').
           apply (Hs m' Hm'). left. symmetry. exact Em.
        -- intros m' [<-|Hm'] Hin.
           ++ assert (existsb (String.eqb (Mod.id m)) seen = true); [|congruence].
              apply existsb_exists. exists (Mod.id m). split; [exact Hin|apply String.eqb_refl].
           ++ apply (Hs m' Hm'). right. exact Hin.
      * intros [Hnd Hs]. apply List.NoDup_cons_iff in Hnd. destruct Hnd as [Hni Hnd].
        split; [exact Hnd|].
        intros m' Hm' [E'|Hin].
        -- apply Hni. rewrite E'. apply in_map. exact Hm'.
        -- apply (Hs m'); auto.
Qed.


(** X3. [validateInput] accepts an input exactly when it has line items,
    modifiers and a configuration with a schema version, at most 1000
    modifiers and 5000 line items, a dependency depth of at most 10
    when dependencies are given, and no modifier id twice; [calculate]
    returns a result only for such an input.  (Prices are finite
    decimals here, so the check on them always passes.) *)
Theorem validateInput_accepts_exactly_within_limits host input :
  (validateInput input = Ok tt <-> within_limits input) /\
  (forall result, calculate host input = Ok result -> within_limits input).
Proof.
  assert (V : validateInput input = Ok tt <-> within_limits input).
  { unfold validateInput, within_limits.
    destruct (lineItems input) as [items|];
      [|split; [discriminate|intros (? & ? & ? & ? & _); discriminate]].
    destruct (modifiers input) as [mods|];
      [|split; [discriminate|intros (? & ? & ? & _ & ? & _); discriminate]].
    destruct (config input) as [cfg|];
      [|split; [discriminate|intros (? & ? & ? & _ & _ & ? & _); discriminate]].
    destruct (txt_truthy (schemaVersion cfg)) eqn:Es; simpl;
      [|split; [discriminate|intros (? & ? & c & _ & _ & [= <-] & ? & _); congruence]].
    destruct (limits_maxModifiers <? length mods)%nat eqn:Em.
    { split; [discriminate|]. intros (? & ? & ? & _ & [= <-] & _ & _ & H & _).
      apply Nat.ltb_lt in Em. lia. }
    apply Nat.ltb_ge in Em.
    destruct (limits_maxLineItems <? length items)%nat eqn:Ei.
    { split; [discriminate|]. intros (? & ? & ? & [= <-] & _ & _ & _ & _ & H & _).
      apply Nat.ltb_lt in Ei. lia. }
    apply Nat.ltb_ge in Ei.
    assert (D : (match dependencies input with
                 | [] => Ok tt
                 | _ :: _ =>
                     match calculateDependencyDepth (dependencies input) with
                     | Some depth =>
                         if (limits_maxDependencyDepth <? depth)%nat
                         then Err (ResourceLimit "Dependency chain too deep")
                         else Ok tt
                     | None => Err (ResourceLimit "Maximum call stack size exceeded")
                     end
                 end = Ok tt) <->
                (dependencies input <> [] ->
                 exists depth,
                   calculateDependencyDepth (dependencies input) = Some depth /\
                   (depth <= limits_maxDependencyDepth)%nat)).
    { destruct (dependencies input) as [|d ds] eqn:Ed.
      - split; [intros _ H; congruence|reflexivity].
      - destruct (calculateDependencyDepth (d :: ds)) as [depth|].
        + destruct (limits_maxDependencyDepth <? depth)%nat eqn:El.
          * split; [discriminate|]. intros H. destruct H as (x & [= <-] & Hx); [discriminate|].
            apply Nat.ltb_lt in El. lia.
          * split; [|reflexivity]. intros _ _. exists depth. split; [reflexivity|].
            apply Nat.ltb_ge in El. exact El.
        + split; [discriminate|]. intros H. destruct H as (x & Hx & _); discriminate. }
    split.
    - intros H. exists items, mods, cfg. repeat split; auto.
      + apply D. destruct (dependencies input) as [|d ds]; [reflexivity|].
        destruct (calculateDependencyDepth (d :: ds)) as [depth|]; [|discriminate H].
        destruct (limits_maxDependencyDepth <? depth)%nat; [discriminate H|reflexivity].
      + assert (Hd : has_duplicate_id [] mods = None).
        { destruct (dependencies input) as [|d ds].
          - simpl in H. destruct (has_duplicate_id [] mods); [discriminate|reflexivity].
          - destruct (calculateDependencyDepth (d :: ds)) as [depth|]; [|discriminate H].
            destruct (limits_maxDependencyDepth <? depth)%nat; [discriminate H|].
            simpl in H. destruct (has_duplicate_id [] mods); [discriminate|reflexivity]. }
        apply has_duplicate_id_None in Hd. apply Hd.
    - intros (items' & mods' & cfg' & [= <-] & [= <-] & [= <-] & _ & _ & _ & Hdep & Hnd).
      apply D in Hdep.
      assert (Hd : has_duplicate_id [] mods = None).
      { apply has_duplicate_id_None. split; [exact Hnd|]. intros ? _ []. }
      destruct (dependencies input) as [|d ds].
      + simpl. rewrite Hd. reflexivity.
      + destruct (calculateDependencyDepth (d :: ds)) as [depth|]; [|discriminate Hdep].
        destruct (limits_maxDependencyDepth <? depth)%nat; [discriminate Hdep|].
        simpl. rewrite Hd. reflexivity. }
  split; [exact V|].
  intros result H. apply V. unfold calculate in H.
  destruct (validateInput input) as [[]|e]; [reflexivity|discriminate].
Qed.

Lemma chain_cons2 a b r : chain (a :: b :: r) = requires b a :: chain (b :: r).
Proof. reflexivity. Qed.

Lemma dep_neighbors_cons d deps node :
  dep_neighbors (d :: deps) node =
    (if is_requires d && String.eqb (Dep.depends_on d) node
     then [Dep.modifier_id d] else []) ++ dep_neighbors deps node.
Proof.
  unfold dep_neighbors. simpl.
  destruct (is_requires d && String.eqb (Dep.depends_on d) node); reflexivity.
Qed.

Lemma dep_neighbors_chain_notin a names :
  ~ In a names -> dep_neighbors (chain names) a = [].
Proof.
  induction names as [|x r IH]; intros H; [reflexivity|].
  destruct r as [|y r']; [reflexivity|].
  rewrite chain_cons2, dep_neighbors_cons. simpl.
  destruct (String.eqb_spec x a) as [->|_].
  - exfalso. apply H. left. reflexivity.
  - simpl. apply IH. intros Hin. apply H. right. exact Hin.
Qed.

Lemma dep_neighbors_chain a names :
  List.NoDup names -> dep_neighbors (chain names) a = next_of a names.
Proof.
  induction names as [|x r IH]; intros H; [reflexivity|].
  destruct r as [|y r']; [reflexivity|].
  rewrite chain_cons2, dep_neighbors_cons.
  apply List.NoDup_cons_iff in H. destruct H as [Hx Hr].
  cbn [requires is_requires Dep.type Dep.depends_on Dep.modifier_id next_of].
  unfold is_requires. cbn [requires Dep.type]. rewrite String.eqb_refl. cbn [andb].
  destruct (String.eqb_spec x a) as [->|_].
  - rewrite dep_neighbors_chain_notin by exact Hx. reflexivity.
  - simpl. apply IH, Hr.
Qed.

Lemma next_of_app pre a suf :
  ~ In a pre ->
  next_of a (pre ++ a :: suf) = match suf with b :: _ => [b] | [] => [] end.
Proof.
  induction pre as [|x r IH]; intros H.
  - simpl. destruct suf; [reflexivity|]. rewrite String.eqb_refl. reflexivity.
  - assert (Hx : x <> a) by (intros ->; apply H; left; reflexivity).
    assert (Hr : ~ In a r) by (intros Hin; apply H; right; exact Hin).
    change ((x :: r) ++ a :: suf) with (x :: (r ++ a :: suf)).
    destruct (r ++ a :: suf) as [|y l] eqn:E.
    + destruct r; discriminate.
    + change (next_of a (x :: y :: l))
        with (if String.eqb x a then [y] else next_of a (y :: l)).
      destruct (String.eqb_spec x a) as [?|_]; [contradiction|].
      apply IH, Hr.
Qed.

Lemma findLongestPath_chain names : forall suf pre a fuel,
  names = pre ++ a :: suf ->
  List.NoDup names ->
  (List.length (a :: suf) <= fuel)%nat ->
  findLongestPath fuel (chain names) a = Some (List.length (a :: suf)).
Proof.
  induction suf as [|b r IH]; intros pre a fuel E Hnd Hf.
  - destruct fuel as [|fuel']; [simpl in Hf; lia|].
    cbn [findLongestPath]. rewrite (dep_neighbors_chain _ _ Hnd), E, next_of_app.
    + reflexivity.
    + rewrite E in Hnd. apply List.NoDup_remove_2 in Hnd.
      intros Hin. apply Hnd. apply in_or_app. left. exact Hin.
  - destruct fuel as [|fuel']; [simpl in Hf; lia|].
    cbn [findLongestPath]. rewrite (dep_neighbors_chain _ _ Hnd).
    rewrite E at 1. rewrite next_of_app.
    + cbn [fold_left].
      rewrite (IH (pre ++ [a]) b fuel').
      * reflexivity.
      * rewrite E, <- app_assoc. reflexivity.
      * exact Hnd.
      * simpl in *. lia.
    + rewrite E in Hnd. apply List.NoDup_remove_2 in Hnd.
      intros Hin. apply Hnd. apply in_or_app. left. exact Hin.
Qed.

Lemma chain_all_requires names : Forall (fun d => is_requires d = true) (chain names).
Proof.
  induction names as [|a r IH]; [constructor|].
  destruct r as [|b r']; [constructor|].
  rewrite chain_cons2. constructor; [reflexivity|exact IH].
Qed.

Lemma chain_modifier_ids names : List.map Dep.modifier_id (chain names) = List.tl names.
Proof.
  induction names as [|a r IH]; [reflexivity|].
  destruct r as [|b r']; [reflexivity|].
  rewrite chain_cons2. cbn [List.map]. rewrite IH. reflexivity.
Qed.

Lemma dep_inDegree_0 deps node :
  ~ In node (List.map Dep.modifier_id deps) -> dep_inDegree deps node = 0%nat.
Proof.
  intros H. unfold dep_inDegree.
  induction deps as [|d r IH]; [reflexivity|]. simpl.
  destruct (String.eqb_spec (Dep.modifier_id d) node) as [E|_].
  - exfalso. apply H. left. exact E.
  - rewrite andb_false_r. apply IH. intros Hin. apply H. right. exact Hin.
Qed.

Lemma dep_inDegree_pos deps node :
  (exists d, In d deps /\ is_requires d = true /\ Dep.modifier_id d = node) ->
  dep_inDegree deps node <> 0%nat.
Proof.
  intros (d & Hin & Hr & Hn). unfold dep_inDegree.
  assert (H : In d (List.filter
                      (fun d => is_requires d && String.eqb (Dep.modifier_id d) node) deps)).
  { apply filter_In. split; [exact Hin|]. rewrite Hr, Hn, String.eqb_refl. reflexivity. }
  destruct (List.filter _ deps); [destruct H|discriminate].
Qed.

Lemma depth_fold_one_root deps root L nodes : forall m,
  (forall node, In node nodes -> node <> root -> dep_inDegree deps node <> 0%nat) ->
  dep_inDegree deps root = 0%nat ->
  findLongestPath (S (List.length (dep_nodes deps))) deps root = Some L ->
  fold_left
    (fun acc node =>
       match acc with
       | None => None
       | Some m =>
           if (dep_inDegree deps node =? 0)%nat
           then match findLongestPath (S (List.length (dep_nodes deps))) deps node with
                | Some d => Some (Nat.max m d)
                | None => None
                end
           else Some m
       end)
    nodes (Some m)
  = Some (if existsb (String.eqb root) nodes then Nat.max m L else m).
Proof.
  induction nodes as [|n r IH]; intros m H H0 HL; [reflexivity|].
  cbn [fold_left existsb].
  destruct (String.eqb_spec root n) as [<-|Hne].
  - rewrite H0. cbn [Nat.eqb]. rewrite HL. cbn [orb].
    rewrite IH; auto.
    + destruct (existsb _ r); [f_equal; lia|reflexivity].
    + intros node Hn. apply H. right. exact Hn.
  - assert (E : (dep_inDegree deps n =? 0)%nat = false).
    { apply Nat.eqb_neq. apply H; [left; reflexivity|congruence]. }
    rewrite E. cbn [orb]. apply IH; auto.
    intros node Hn. apply H. right. exact Hn.
Qed.

Lemma dep_nodes_chain_length names :
  List.length (dep_nodes (chain names)) = (2 * (List.length names - 1))%nat.
Proof.
  unfold dep_nodes.
  induction names as [|a r IH]; [reflexivity|].
  destruct r as [|b r']; [reflexivity|].
  rewrite chain_cons2. cbn [List.filter]. 
  replace (is_requires (requires b a)) with true by reflexivity.
  cbn [flat_map app List.length]. rewrite IH. simpl. lia.
Qed.

Lemma depth_fold_no_root deps nodes m :
  (forall node, In node nodes -> dep_inDegree deps node <> 0%nat) ->
  fold_left
    (fun acc node =>
       match acc with
       | None => None
       | Some m =>
           if (dep_inDegree deps node =? 0)%nat
           then match findLongestPath (S (List.length (dep_nodes deps))) deps node with
                | Some d => Some (Nat.max m d)
                | None => None
                end
           else Some m
       end)
    nodes (Some m) = Some m.
Proof.
  induction nodes as [|n r IH]; intros H; simpl; [reflexivity|].
  assert (E : (dep_inDegree deps n =? 0)%nat = false).
  { apply Nat.eqb_neq. apply H. left. reflexivity. }
  rewrite E. apply IH. intros node Hn. apply H. right. exact Hn.
Qed.

(** X4. When every modifier that a REQUIRES dependency depends on is
    itself the dependent of some REQUIRES dependency, as in a cycle, no
    node is a root and [calculateDependencyDepth] returns 0, whatever
    the number of dependencies. *)
Theorem dependencies_without_a_root_have_depth_0 deps :
  (forall d, In d deps -> is_requires d = true ->
     exists d', In d' deps /\ is_requires d' = true /\
                Dep.modifier_id d' = Dep.depends_on d) ->
  calculateDependencyDepth deps = Some 0%nat.
Proof.
  intros H. unfold calculateDependencyDepth. apply depth_fold_no_root.
  intros node Hn. unfold dep_nodes in Hn. apply in_flat_map in Hn.
  destruct Hn as (d & Hd & Hin). apply filter_In in Hd. destruct Hd as [Hd Hr].
  apply dep_inDegree_pos.
  destruct Hin as [<-|[<-|[]]].
  - exists d. auto.
  - apply H; assumption.
Qed.

Lemma dependencies_without_a_root_have_depth_0_witness :
  calculateDependencyDepth cycle_of_two = Some 0%nat.
Proof.
  apply (dependencies_without_a_root_have_depth_0 cycle_of_two).
  intros d [<-|[<-|[]]] _.
  - exists (requires "b" "a"). simpl. auto.
  - exists (requires "a" "b"). simpl. auto.
Defined.

Lemma chain_depth a b r :
  List.NoDup (a :: b :: r) ->
  calculateDependencyDepth (chain (a :: b :: r)) = Some (List.length (a :: b :: r)).
Proof.
  intros Hnd. unfold calculateDependencyDepth.
  set (names := a :: b :: r) in *. set (deps := chain names).
  rewrite (depth_fold_one_root deps a (List.length names)).
  - assert (E : existsb (String.eqb a) (dep_nodes deps) = true).
    { apply existsb_exists. exists a. split; [|apply String.eqb_refl].
      subst deps names. rewrite chain_cons2. unfold dep_nodes. simpl. right. left. reflexivity. }
    rewrite E. reflexivity.
  - intros node Hn Hne. apply dep_inDegree_pos.
    unfold dep_nodes in Hn. apply in_flat_map in Hn. destruct Hn as (d & Hd & Hin).
    apply filter_In in Hd. destruct Hd as [Hd Hr].
    destruct Hin as [<-|[<-|[]]]; [exists d; auto|].
    (* a depended-on name other than the first is the modifier of the step before *)
    assert (Hm : In (Dep.depends_on d) (List.map Dep.modifier_id deps)).
    { subst deps. rewrite chain_modifier_ids. subst names. cbn [List.tl].
      clear - Hd Hne. revert a Hd Hne. induction (b :: r) as [|y l IH]; intros a Hd Hne.
      - destruct Hd.
      - rewrite chain_cons2 in Hd. destruct Hd as [<-|Hd].
        + exfalso. apply Hne. reflexivity.
        + destruct l as [|z l']; [destruct Hd|].
          destruct (String.eqb_spec (Dep.depends_on d) y) as [->|Hy].
          * left. reflexivity.
          * right. apply (IH y); [exact Hd|exact Hy]. }
    apply in_map_iff in Hm. destruct Hm as (d' & Ed' & Hd').
    exists d'. split; [exact Hd'|]. split; [|exact Ed'].
    pose proof (chain_all_requires names) as F. rewrite List.Forall_forall in F.
    apply F. exact Hd'.
  - apply dep_inDegree_0. subst deps. rewrite chain_modifier_ids. subst names. cbn [List.tl].
    apply List.NoDup_cons_iff in Hnd. apply Hnd.
  - apply (findLongestPath_chain names (b :: r) [] a); [reflexivity|exact Hnd|].
    subst deps. rewrite dep_nodes_chain_length. subst names. simpl. lia.
Qed.

(** X5. The depth of a chain of REQUIRES dependencies through distinct
    modifiers is the number of modifiers on it, not the number of
    dependencies: an input that passes the earlier checks and whose
    dependencies are such a chain of more than 10 modifiers is rejected
    with "Dependency chain too deep", by [validateInput] and so by
    [calculate]. *)
Theorem dependency_chain_depth_counts_the_modifiers host input items mods cfg a b r :
  List.NoDup (a :: b :: r) ->
  lineItems input = Some items ->
  modifiers input = Some mods ->
  config input = Some cfg ->
  txt_truthy (schemaVersion cfg) = true ->
  (List.length mods <= limits_maxModifiers)%nat ->
  (List.length items <= limits_maxLineItems)%nat ->
  dependencies input = chain (a :: b :: r) ->
  calculateDependencyDepth (dependencies input) = Some (List.length (a :: b :: r)) /\
  ((limits_maxDependencyDepth < List.length (a :: b :: r))%nat ->
   validateInput input = Err (ResourceLimit "Dependency chain too deep") /\
   calculate host input = Err (ResourceLimit "Dependency chain too deep")).
Proof.
  intros Hnd Hi Hm Hc Hs Hlm Hli Hd.
  assert (E : calculateDependencyDepth (dependencies input)
              = Some (List.length (a :: b :: r))).
  { rewrite Hd. apply chain_depth, Hnd. }
  split; [exact E|]. intros Hlen.
  assert (V : validateInput input = Err (ResourceLimit "Dependency chain too deep")).
  { unfold validateInput. rewrite Hi, Hm, Hc, Hs. cbn [negb].
    apply Nat.leb_le in Hlm, Hli.
    rewrite Nat.ltb_antisym, Hlm. cbn [negb].
    rewrite Nat.ltb_antisym, Hli. cbn [negb].
    destruct (dependencies input) as [|d ds] eqn:Ed;
      [rewrite chain_cons2 in Hd; discriminate|].
    cbv beta iota. rewrite E.
    apply Nat.ltb_lt in Hlen. rewrite Hlen. reflexivity. }
  split; [exact V|]. unfold calculate. rewrite V. reflexivity.
Qed.

Lemma dependency_chain_depth_counts_the_modifiers_witness :
  calculateDependencyDepth (dependencies chained_request) = Some 11%nat /\
  calculate sample_host chained_request = Err (ResourceLimit "Dependency chain too deep").
Proof.
  assert (Hnd : List.NoDup eleven_names).
  { unfold eleven_names. repeat (constructor; [simpl; intuition discriminate|]). constructor. }
  destruct (dependency_chain_depth_counts_the_modifiers sample_host chained_request [] []
              (tax_config "RETAIL" 0 0) "a" "b"
              [ "c"; "d"; "e"; "f"; "g"; "h"; "i"; "j"; "k" ]%string
              Hnd eq_refl eq_refl eq_refl eq_refl
              ltac:(simpl; lia) ltac:(simpl; lia) eq_refl) as [D R].
  split; [exact D|]. apply R. simpl. unfold limits_maxDependencyDepth. lia.
Defined.

End InputValidation.

(** ** Grouping *)

Section GroupingFacts.

Import PureCalculationEngine Statements Samples.

Context (host : Host) (items : list LineItem).


Lemma groupMap_push_keys key fresh m gm :
  Group.key fresh = key ->
  List.map Group.key (groupMap_push key fresh m gm)
  = if existsb (String.eqb key) (List.map Group.key gm)
    then List.map Group.key gm
    else List.map Group.key gm ++ [key].
Proof.
  intros Hk. induction gm as [|g r IH]; simpl.
  - rewrite Hk. reflexivity.
  - rewrite (String.eqb_sym key). destruct (String.eqb (Group.key g) key); simpl; [reflexivity|].
    rewrite IH. destruct (existsb _ _); reflexivity.
Qed.

Lemma groupMap_push_modifiers key fresh m gm :
  Group.modifiers fresh = [] ->
  Permutation (flat_map Group.modifiers (groupMap_push key fresh m gm))
              (m :: flat_map Group.modifiers gm).
Proof.
  intros Hf. induction gm as [|g r IH]; simpl.
  - rewrite Hf. reflexivity.
  - destruct (String.eqb (Group.key g) key); simpl.
    + rewrite <- app_assoc. simpl. symmetry. apply Permutation_middle.
    + rewrite IH. symmetry. apply Permutation_middle.
Qed.

Lemma groupMap_push_well_formed m gm :
  Forall (well_formed host items) gm ->
  Forall (well_formed host items)
    (groupMap_push (key_of host items m)
       (new_group (key_of host items m) (resolveModifierTaxSetting m items) m) m gm).
Proof.
  intros H. induction gm as [|g r IH]; simpl.
  - constructor; [|constructor]. split; [discriminate|].
    simpl. constructor; [reflexivity|constructor].
  - inversion H as [|? ? [Hne Hk] Hr]; subst.
    destruct (String.eqb_spec (Group.key g) (key_of host items m)) as [E|_].
    + constructor; [|exact Hr]. split.
      * simpl. destruct (Group.modifiers g); discriminate.
      * simpl. apply Forall_app. split; [exact Hk|].
        constructor; [symmetry; exact E|constructor].
    + constructor; [split; assumption|]. apply IH, Hr.
Qed.

Lemma NoDup_snoc_str (l : list string) x :
  List.NoDup l -> existsb (String.eqb x) l = false -> List.NoDup (l ++ [x]).
Proof.
  intros Hnd Hx.
  apply List.NoDup_rev in Hnd. rewrite <- (rev_involutive (l ++ [x])).
  apply List.NoDup_rev. rewrite rev_app_distr. simpl. constructor; [|exact Hnd].
  intros Hin. apply in_rev in Hin.
  assert (existsb (String.eqb x) l = true); [|congruence].
  apply existsb_exists. exists x. split; [exact Hin|apply String.eqb_refl].
Qed.

Lemma group_fold_invariant (todo : list Mod.t) : forall gm done,
  Permutation (flat_map Group.modifiers gm) done ->
  List.NoDup (List.map Group.key gm) ->
  Forall (well_formed host items) gm ->
  let out :=
    fold_left
      (fun groupMap modifier =>
         let resolvedTaxSetting := resolveModifierTaxSetting modifier items in
         let groupKey := group_key host resolvedTaxSetting modifier in
         groupMap_push groupKey (new_group groupKey resolvedTaxSetting modifier)
           modifier groupMap)
      todo gm in
  Permutation (flat_map Group.modifiers out) (done ++ todo) /\
  List.NoDup (List.map Group.key out) /\
  Forall (well_formed host items) out.
Proof.
  induction todo as [|m r IH]; intros gm done Hp Hnd Hwf; cbn zeta.
  - simpl. rewrite app_nil_r. auto.
  - cbn [fold_left].
    specialize (IH (groupMap_push (key_of host items m)
                      (new_group (key_of host items m) (resolveModifierTaxSetting m items) m) m gm)
                   (done ++ [m])).
    cbn zeta in IH. rewrite <- app_assoc in IH. apply IH.
    + rewrite groupMap_push_modifiers by reflexivity.
      rewrite Hp. apply Permutation_cons_append.
    + rewrite groupMap_push_keys by reflexivity.
      destruct (existsb _ _) eqn:E; [exact Hnd|]. apply NoDup_snoc_str; assumption.
    + apply groupMap_push_well_formed, Hwf.
Qed.

Lemma groupModifiers_perm (mods : list Mod.t) :
  Permutation (flat_map Group.modifiers (groupModifiers host mods items)) mods.
Proof.
  unfold groupModifiers.
  destruct (group_fold_invariant (sort_by (byChainPriorityThenId host) mods) [] [])
    as (Hp & _ & _); [reflexivity|constructor|constructor|].
  cbn zeta in Hp. rewrite Hp. simpl. apply sort_by_perm.
Qed.

(** X6. [groupModifiers] partitions the modifiers: the groups together
    hold exactly the modifiers given, each once; no two groups have the
    same key; no group is empty, and every modifier is in the group of
    its own key. *)
Theorem groupModifiers_partitions_the_modifiers (mods : list Mod.t) :
  let groups := groupModifiers host mods items in
  Permutation (flat_map Group.modifiers groups) mods /\
  List.NoDup (List.map Group.key groups) /\
  Forall (well_formed host items) groups.
Proof.
  cbn zeta. unfold groupModifiers.
  destruct (group_fold_invariant (sort_by (byChainPriorityThenId host) mods) [] [])
    as (Hp & Hnd & Hwf); [reflexivity|constructor|constructor|].
  split; [|split; assumption].
  cbn zeta in Hp. rewrite Hp. simpl. apply sort_by_perm.
Qed.
End GroupingFacts.

Section AppliedGroups.

Import PureCalculationEngine Statements Samples.

Lemma flat_map_filter_split {A B} (f : A -> list B) (p : A -> bool) l :
  Permutation
    (flat_map f (List.filter (fun a => negb (p a)) l ++ List.filter p l))
    (flat_map f l).
Proof.
  induction l as [|a r IH]; simpl; [reflexivity|].
  destruct (p a); simpl.
  - rewrite flat_map_app in *. simpl.
    rewrite <- IH. rewrite !app_assoc.
    apply Permutation_app_tail. apply Permutation_app_comm.
  - apply Permutation_app_head. exact IH.
Qed.

(** X25. When an input brings no groups of its own, every normalized
    modifier is in exactly one of the groups that [calculate] applies:
    the groups applied before tax are those whose application type is
    not post_tax, the groups applied after tax are the others, and
    together they hold the normalized modifiers, each once. *)
Theorem every_modifier_is_in_one_applied_group host input :
  preTaxGroups input = [] ->
  postTaxGroups input = [] ->
  let n := normalizeInput host input in
  Permutation (flat_map Group.modifiers (applied_groups host input)) (n_modifiers n) /\
  Forall (fun g => txt_is (Group.application_type g) "post_tax" = false) (n_preTaxGroups n) /\
  Forall (fun g => txt_is (Group.application_type g) "post_tax" = true) (n_postTaxGroups n).
Proof.
  intros Hpre Hpost. cbn zeta. unfold applied_groups, normalizeInput.
  cbn [n_preTaxGroups n_postTaxGroups n_modifiers]. rewrite Hpre, Hpost.
  destruct (List.map normalizeModifier (default [] (modifiers input))) as [|m ms] eqn:E.
  - simpl. auto.
  - split; [|split].
    + rewrite flat_map_filter_split.
      apply (groupModifiers_perm host).
    + apply List.Forall_forall. intros g Hg. apply filter_In in Hg.
      destruct Hg as [_ Hg]. apply negb_true_iff in Hg. exact Hg.
    + apply List.Forall_forall. intros g Hg. apply filter_In in Hg. apply Hg.
Qed.

Lemma every_modifier_is_in_one_applied_group_witness :
  Permutation
    (flat_map Group.modifiers (applied_groups sample_host mixed_request))
    (n_modifiers (normalizeInput sample_host mixed_request)) /\
  List.length (applied_groups sample_host mixed_request) = 2%nat.
Proof.
  split; [|reflexivity].
  apply (every_modifier_is_in_one_applied_group sample_host mixed_request); reflexivity.
Defined.

End AppliedGroups.

(** ** The adjustments of a calculation *)

Section AdjustmentBookkeeping.

Import PureCalculationEngine Statements Samples.

Lemma applyGroups_loop_app g1 g2 items : forall run adjs,
  applyGroups_loop (g1 ++ g2) items run adjs =
    obind (applyGroups_loop g1 items run adjs)
      (fun r => applyGroups_loop g2 items (fst r) (snd r)).
Proof.
  induction g1 as [|g r IH]; intros run adjs; simpl; [reflexivity|].
  destruct (calculateGroupAdjustment g run items) as [a|e]; simpl; [|reflexivity].
  apply IH.
Qed.

Lemma applyGroups_loop_records gs items : forall run adjs run' adjs',
  applyGroups_loop gs items run adjs = Ok (run', adjs') ->
  exists new,
    adjs' = adjs ++ new /\
    List.map groupId new = List.map Group.id gs /\
    List.map adj_attributes new = List.map Group.attributes gs.
Proof.
  induction gs as [|g r IH]; intros run adjs run' adjs' H; simpl in H.
  - injection H as <- <-. exists []. rewrite app_nil_r. auto.
  - destruct (calculateGroupAdjustment g run items) as [a|e]; simpl in H; [|discriminate].
    apply IH in H. destruct H as (new & -> & Hi & Ha).
    eexists (_ :: new). rewrite <- app_assoc. split; [reflexivity|].
    simpl. rewrite Hi, Ha. auto.
Qed.

(** X7. Applying two lists of groups one after the other is applying
    their concatenation, errors included.  A successful application
    appends one adjustment per group, in the order of the groups, with
    the id and the attributes of its group, and leaves the earlier
    adjustments, the base subtotal and the tax amounts as they were. *)
Theorem applyModifierGroups_bookkeeping st g1 g2 items :
  applyModifierGroups st (g1 ++ g2) items =
    obind (applyModifierGroups st g1 items)
      (fun st' => applyModifierGroups st' g2 items) /\
  (forall st',
     applyModifierGroups st g1 items = Ok st' ->
     exists new,
       adjustments st' = adjustments st ++ new /\
       List.map groupId new = List.map Group.id g1 /\
       List.map adj_attributes new = List.map Group.attributes g1 /\
       baseSubtotal st' = baseSubtotal st /\
       retailTaxAmount st' = retailTaxAmount st /\
       useTaxAmount st' = useTaxAmount st).
Proof.
  split.
  - unfold applyModifierGroups. rewrite applyGroups_loop_app.
    destruct (applyGroups_loop g1 items (runningSubtotal st) (adjustments st))
      as [[run adjs]|e]; simpl; reflexivity.
  - unfold applyModifierGroups. intros st' H.
    destruct (applyGroups_loop g1 items (runningSubtotal st) (adjustments st))
      as [[run adjs]|e] eqn:E; simpl in H; [|discriminate].
    injection H as <-. simpl.
    destruct (applyGroups_loop_records _ _ _ _ _ _ E) as (new & -> & Hi & Ha).
    exists new. repeat split; auto.
Qed.

Lemma modifierTotal_fold adjs : forall acc,
  Dec.on_grid 7 acc ->
  Qabs acc + sum_abs (List.map amount_decimal adjs) < exact_below ->
  fold_left
    (fun sum adj => PrecisionPolicy.intermediate (Dec.plus sum (amount_decimal adj))) adjs acc
  == acc + sum_amounts adjs.
Proof.
  unfold exact_below.
  induction adjs as [|a r IH]; intros acc H Hb.
  - simpl. ring.
  - change (sum_abs (List.map amount_decimal (a :: r)))
      with (Qabs (amount_decimal a) + sum_abs (List.map amount_decimal r)) in Hb.
    change (sum_amounts (a :: r)) with (amount_decimal a + sum_amounts r).
    cbn [fold_left]. change PrecisionPolicy.intermediate with Q7 in *.
    pose proof (sum_abs_nonneg (List.map amount_decimal r)) as Hn.
    pose proof (Qabs_triangle acc (amount_decimal a)) as Ht.
    assert (Hs : Q7 (Dec.plus acc (amount_decimal a)) == acc + amount_decimal a)
      by (apply Q7_plus_exact; [exact H|apply on_grid_of_units|lra]).
    rewrite IH.
    + rewrite Hs. ring.
    + apply on_grid_Q7.
    + rewrite (Qabs_wd _ _ Hs). lra.
Qed.

(** X8. When the base subtotal, the recorded adjustments and the retail
    tax of the final state add up, in magnitude, to less than 10^33,
    the modifier total of the result is the 2-place rounding of the
    exact sum of the recorded 7-place adjustments (neither the addition
    of decimal.js nor the 7-place rounding after each addition in
    [buildResult] changes the sum), and the running subtotal of the
    final state is the base subtotal plus that sum. *)
Theorem modifier_total_is_the_sum_of_the_adjustments host input result final :
  calculate host input = Ok result ->
  finalState host (normalizeInput host input) = Ok final ->
  magnitude final < exact_below ->
  modifierTotal result = Dec.toFixed 2 (Q2 (sum_amounts (adjustments final))) /\
  List.length (r_adjustments result) = List.length (adjustments final) /\
  runningSubtotal final == baseSubtotal final + sum_amounts (adjustments final).
Proof.
  unfold calculate. intros H Ef Hmag.
  destruct (validateInput input) as [[]|e]; simpl in H; [|discriminate].
  set (n := normalizeInput host input) in *.
  rewrite Ef in H. simpl in H. injection H as <-.
  unfold magnitude, exact_below in Hmag.
  pose proof (sum_abs_nonneg (List.map amount_decimal (adjustments final))) as N0.
  pose proof (Qabs_nonneg (retailTaxAmount final)) as N3.
  pose proof (Qabs_nonneg (baseSubtotal final)) as N4.
  assert (Hm : modifierTotal_of final == sum_amounts (adjustments final)).
  { unfold modifierTotal_of. rewrite modifierTotal_fold.
    - ring.
    - apply on_grid_0.
    - unfold exact_below. change (Qabs 0) with 0. lra. }
  unfold finalState in Ef.
  destruct (applyModifierGroups (initialState n) (n_preTaxGroups n) (n_lineItems n))
    as [afterPreTax|e] eqn:Epre; cbn [obind] in Ef; [|discriminate].
  destruct (calculateTaxes host afterPreTax (n_config n) (n_lineItems n))
    as [afterTax|e] eqn:Etax; cbn [obind] in Ef; [|discriminate].
  destruct (calculateTaxes_keeps _ _ _ _ _ Etax) as (Tb & Tr & Ta & Tg).
  destruct (applyModifierGroups_sum _ _ _ _ Epre (computeBaseSubtotal_on_grid _))
    as (new1 & Hadj1 & Hgrid1 & Hrun1 & Hbase1 & _ & _).
  rewrite <- Tr in Hgrid1.
  destruct (applyModifierGroups_sum _ _ _ _ Ef Hgrid1)
    as (post & Hadj2 & Hgrid2 & Hrun2 & Hbase2 & Htax2 & _).
  cbn [initialState adjustments runningSubtotal baseSubtotal app] in Hadj1, Hrun1, Hbase1.
  rewrite Tr in Hrun2. rewrite Ta in Hadj2. rewrite Tb, Hbase1 in Hbase2.
  unfold exact_below in *. rewrite Hbase2, Hadj2, Hadj1 in Hmag.
  rewrite map_app, sum_abs_app in Hmag.
  pose proof (sum_abs_nonneg (List.map amount_decimal new1)) as N1.
  pose proof (sum_abs_nonneg (List.map amount_decimal post)) as N2.
  pose proof (sum_amounts_abs new1) as A1.
  assert (R1 : runningSubtotal afterPreTax
               == computeBaseSubtotal (n_lineItems n) + sum_amounts new1)
    by (apply Hrun1; lra).
  assert (R2 : runningSubtotal final == runningSubtotal afterPreTax + sum_amounts post).
  { apply Hrun2. rewrite (Qabs_wd _ _ R1).
    pose proof (Qabs_triangle (computeBaseSubtotal (n_lineItems n)) (sum_amounts new1)).
    lra. }
  split; [|split].
  - simpl. change PrecisionPolicy.final with Q2. rewrite (Q2_comp _ _ Hm). reflexivity.
  - simpl. apply length_map.
  - rewrite R2, R1, Hadj2, Hadj1, sum_amounts_app, Hbase2. ring.
Qed.

Lemma modifier_total_is_the_sum_of_the_adjustments_witness :
  exists result final,
    calculate sample_host mixed_request = Ok result /\
    finalState sample_host (normalizeInput sample_host mixed_request) = Ok final /\
    magnitude final < exact_below /\
    modifierTotal result = "-27.50"%string /\
    modifierTotal result = Dec.toFixed 2 (Q2 (sum_amounts (adjustments final))) /\
    List.length (r_adjustments result) = List.length (adjustments final) /\
    runningSubtotal final == baseSubtotal final + sum_amounts (adjustments final).
Proof.
  eexists. eexists.
  split; [vm_compute; reflexivity|].
  split; [vm_compute; reflexivity|].
  split; [vm_compute; reflexivity|].
  split; [reflexivity|].
  apply (modifier_total_is_the_sum_of_the_adjustments sample_host mixed_request).
  - vm_compute. reflexivity.
  - vm_compute. reflexivity.
  - vm_compute. reflexivity.
Defined.

(** Without the bound the running subtotal can lose an adjustment: for
    a line of 10^39 and a fixed amount of 0.40 it stays at 10^39. *)
Example running_subtotal_can_lose_an_adjustment :
  exists final,
    finalState sample_host (normalizeInput sample_host huge_request) = Ok final /\
    sum_amounts (adjustments final) == 4 # 10 /\
    runningSubtotal final == baseSubtotal final /\
    ~ magnitude final < exact_below.
Proof.
  eexists. split; [vm_compute; reflexivity|].
  split; [vm_compute; reflexivity|]. split; [vm_compute; reflexivity|].
  vm_compute. discriminate.
Qed.

Lemma fixed_group_dispatch g basis items :
  modifierType g = Some "fixed"%string ->
  calculateGroupAdjustment g basis items = Ok (Q7 (totalFixed g)).
Proof. unfold calculateGroupAdjustment. intros ->. reflexivity. Qed.

Lemma fixed_amounts_cons g gs :
  fixed_amounts (g :: gs) = Q7 (totalFixed g) :: fixed_amounts gs.
Proof. reflexivity. Qed.

Lemma applyGroups_loop_fixed gs items : forall run adjs,
  Forall (fun g => modifierType g = Some "fixed"%string) gs ->
  Dec.on_grid 7 run ->
  Qabs run + sum_abs (fixed_amounts gs) < exact_below ->
  exists run' adjs',
    applyGroups_loop gs items run adjs = Ok (run', adjs') /\
    run' == run + sum_fixed gs.
Proof.
  unfold exact_below.
  induction gs as [|g r IH]; intros run adjs H Hg Hb.
  - simpl. do 2 eexists. split; [reflexivity|]. ring.
  - inversion H as [|? ? Hf Hr]; subst.
    cbn [applyGroups_loop]. rewrite (fixed_group_dispatch _ _ _ Hf). cbn [obind].
    rewrite fixed_amounts_cons in Hb.
    change (sum_abs (Q7 (totalFixed g) :: fixed_amounts r))
      with (Qabs (Q7 (totalFixed g)) + sum_abs (fixed_amounts r)) in Hb.
    change (sum_fixed (g :: r)) with (Q7 (totalFixed g) + sum_fixed r).
    change PrecisionPolicy.intermediate with Q7 in *.
    pose proof (sum_abs_nonneg (fixed_amounts r)) as Hn.
    pose proof (Qabs_triangle run (Q7 (totalFixed g))) as Ht.
    assert (Hs : Q7 (Dec.plus run (Q7 (totalFixed g))) == run + Q7 (totalFixed g))
      by (apply Q7_plus_exact; [exact Hg|apply on_grid_Q7|lra]).
    destruct (IH (Q7 (Dec.plus run (Q7 (totalFixed g))))
                 (adjs ++ [{| groupId := Group.id g;
                              amount := Dec.units 7 (Q7 (totalFixed g));
                              adj_attributes := Group.attributes g |}]) Hr)
      as (run' & adjs' & E & Hrun).
    + apply on_grid_Q7.
    + rewrite (Qabs_wd _ _ Hs). lra.
    + exists run', adjs'. split; [exact E|]. rewrite Hrun, Hs. ring.
Qed.

Lemma sum_fixed_perm gs gs' : Permutation gs gs' -> sum_fixed gs == sum_fixed gs'.
Proof.
  induction 1 as [|x l l' Hp IH|x y l|l l' l'' H1 IH1 H2 IH2].
  - reflexivity.
  - change (sum_fixed (x :: ?t)) with (Q7 (totalFixed x) + sum_fixed t).
    change (sum_fixed (x :: l)) with (Q7 (totalFixed x) + sum_fixed l).
    change (sum_fixed (x :: l')) with (Q7 (totalFixed x) + sum_fixed l').
    rewrite IH. reflexivity.
  - change (sum_fixed (y :: x :: l))
      with (Q7 (totalFixed y) + (Q7 (totalFixed x) + sum_fixed l)).
    change (sum_fixed (x :: y :: l))
      with (Q7 (totalFixed x) + (Q7 (totalFixed y) + sum_fixed l)).
    ring.
  - etransitivity; eassumption.
Qed.

Lemma sum_abs_perm l l' : Permutation l l' -> sum_abs l == sum_abs l'.
Proof.
  induction 1 as [|x l l' Hp IH|x y l|l l' l'' H1 IH1 H2 IH2].
  - reflexivity.
  - change (sum_abs (x :: l)) with (Qabs x + sum_abs l).
    change (sum_abs (x :: l')) with (Qabs x + sum_abs l').
    rewrite IH. reflexivity.
  - change (sum_abs (y :: x :: l)) with (Qabs y + (Qabs x + sum_abs l)).
    change (sum_abs (x :: y :: l)) with (Qabs x + (Qabs y + sum_abs l)).
    ring.
  - etransitivity; eassumption.
Qed.

(** X9. Fixed groups always apply, each adding the 7-place rounding of
    the sum of its amounts whatever the subtotal is; as long as the
    magnitudes of the running subtotal and of these amounts add up to
    less than 10^33, a list of fixed groups leaves the same running
    subtotal in any order. *)
Theorem fixed_groups_apply_in_any_order st gs gs' items :
  Forall (fun g => modifierType g = Some "fixed"%string) gs ->
  Permutation gs gs' ->
  Dec.on_grid 7 (runningSubtotal st) ->
  Qabs (runningSubtotal st) + sum_abs (fixed_amounts gs) < exact_below ->
  exists st1 st2,
    applyModifierGroups st gs items = Ok st1 /\
    applyModifierGroups st gs' items = Ok st2 /\
    runningSubtotal st1 == runningSubtotal st + sum_fixed gs /\
    runningSubtotal st2 == runningSubtotal st1.
Proof.
  intros Hf Hp Hg Hb.
  assert (Hf' : Forall (fun g => modifierType g = Some "fixed"%string) gs').
  { rewrite <- Hp. exact Hf. }
  assert (Hb' : Qabs (runningSubtotal st) + sum_abs (fixed_amounts gs') < exact_below).
  { rewrite <- (sum_abs_perm (fixed_amounts gs) (fixed_amounts gs')); [exact Hb|].
    unfold fixed_amounts. apply Permutation_map, Hp. }
  destruct (applyGroups_loop_fixed gs items (runningSubtotal st) (adjustments st) Hf Hg Hb)
    as (r1 & a1 & E1 & H1).
  destruct (applyGroups_loop_fixed gs' items (runningSubtotal st) (adjustments st) Hf' Hg Hb')
    as (r2 & a2 & E2 & H2).
  unfold applyModifierGroups. rewrite E1, E2. cbn [obind].
  do 2 eexists. split; [reflexivity|]. split; [reflexivity|].
  cbn [with_running runningSubtotal fst].
  split; [exact H1|]. rewrite H1, H2. rewrite (sum_fixed_perm _ _ Hp). reflexivity.
Qed.

Lemma fixed_groups_apply_in_any_order_witness :
  exists st1 st2,
    applyModifierGroups state_of_100 fixed_five_then_seven [] = Ok st1 /\
    applyModifierGroups state_of_100 fixed_seven_then_five [] = Ok st2 /\
    runningSubtotal st1 == 113 /\
    runningSubtotal st2 == runningSubtotal st1.
Proof.
  destruct (fixed_groups_apply_in_any_order state_of_100
              fixed_five_then_seven fixed_seven_then_five [])
    as (st1 & st2 & E1 & E2 & H1 & H2).
  - repeat constructor.
  - apply perm_swap.
  - exists 1000000000%Z. vm_compute. reflexivity.
  - vm_compute. reflexivity.
  - exists st1, st2. split; [exact E1|]. split; [exact E2|]. split; [|exact H2].
    rewrite H1. vm_compute. reflexivity.
Defined.

(** Without the bound the order matters: from 0, fixed groups of 10^39,
    of 0.40 and of -10^39 leave 0 in this order and 0.40 when the two
    large ones come first. *)
Example large_fixed_groups_do_not_commute :
  exists st1 st2,
    applyModifierGroups state_of_0
      [ sample_group "fixed" [inject_Z (10 ^ 39)]; sample_group "fixed" [4 # 10];
        sample_group "fixed" [- inject_Z (10 ^ 39)] ] [] = Ok st1 /\
    applyModifierGroups state_of_0
      [ sample_group "fixed" [inject_Z (10 ^ 39)];
        sample_group "fixed" [- inject_Z (10 ^ 39)]; sample_group "fixed" [4 # 10] ] []
    = Ok st2 /\
    runningSubtotal st1 == 0 /\
    runningSubtotal st2 == 4 # 10.
Proof.
  do 2 eexists. split; [vm_compute; reflexivity|]. split; [vm_compute; reflexivity|].
  split; vm_compute; reflexivity.
Qed.

End AdjustmentBookkeeping.

(** ** Taxes *)

Section TaxFacts.

Import PureCalculationEngine Statements Samples.






(** A jurisdiction without a rate makes [calculateTaxes] throw. *)
Example jurisdiction_without_a_rate :
  calculateTaxes sample_host state_of_100
    {| schemaVersion := Some "1.0"%string;
       tax_rate := Str (1 # 10);
       use_tax_rate := Str 0;
       tax_mode := Some "RETAIL"%string;
       jurisdictions := [ {| order := Num 1; code := "state"; rate := Absent |} ] |}
    two_lines
  = Err DecimalError.
Proof. reflexivity. Qed.

Lemma times_zero p q : q == 0 -> Dec.times p q == 0.
Proof.
  intros H. unfold Dec.times.
  rewrite (round_sd_comp (p * q) 0) by (rewrite H; ring). reflexivity.
Qed.

Lemma computeBaseSubtotal_zero_quantities items : forall acc,
  Forall (fun item => quantity item == 0) items ->
  acc == 0 ->
  fold_left
    (fun sum item =>
       PrecisionPolicy.intermediate
         (Dec.plus sum (Dec.times (unitPrice item) (quantity item))))
    items acc == 0.
Proof.
  induction items as [|i r IH]; intros acc H Ha; [exact Ha|].
  inversion H as [|? ? Hq Hr]; subst.
  cbn [fold_left]. apply IH; [exact Hr|].
  change PrecisionPolicy.intermediate with Q7.
  assert (E : Dec.plus acc (Dec.times (unitPrice i) (quantity i)) == 0).
  { unfold Dec.plus.
    rewrite (round_sd_comp (acc + Dec.times (unitPrice i) (quantity i)) 0)
      by (rewrite Ha, (times_zero _ _ Hq); ring).
    reflexivity. }
  rewrite (Q7_comp _ _ E). reflexivity.
Qed.

Lemma quantity_or_one_zero item : quantity item == 0 -> quantity_or_one item = 1.
Proof.
  intros H. unfold quantity_or_one.
  apply Qeq_bool_iff in H. rewrite H. reflexivity.
Qed.

Lemma taxable_lines_zero_quantities items : forall acc,
  Forall (fun item => quantity item == 0) items ->
  Dec.on_grid 7 acc ->
  Qabs acc + sum_abs (List.map one_unit (List.filter marked_taxable items)) < exact_below ->
  fold_left
    (fun taxableBase item =>
       let itemTaxSetting := toUpperCase (txt_default (Some (taxSetting item)) "TAXABLE") in
       if String.eqb itemTaxSetting "TAXABLE"
       then PrecisionPolicy.intermediate
              (Dec.plus taxableBase
                 (PrecisionPolicy.intermediate
                    (Dec.times (unitPrice item) (quantity_or_one item))))
       else taxableBase)
    items acc == acc + sum_taxable_unit_prices items.
Proof.
  unfold exact_below.
  induction items as [|i r IH]; intros acc H Hg Hb; [simpl; ring|].
  inversion H as [|? ? Hq Hr]; subst.
  cbn [fold_left List.filter] in *. cbv zeta.
  change (sum_taxable_unit_prices (i :: r))
    with (if marked_taxable i then one_unit i + sum_taxable_unit_prices r
          else sum_taxable_unit_prices r).
  fold (marked_taxable i). destruct (marked_taxable i).
  - change (sum_abs (List.map one_unit (i :: List.filter marked_taxable r)))
      with (Qabs (one_unit i) + sum_abs (List.map one_unit (List.filter marked_taxable r)))
      in Hb.
    change PrecisionPolicy.intermediate with Q7 in *.
    rewrite (quantity_or_one_zero _ Hq). fold (one_unit i).
    pose proof (sum_abs_nonneg (List.map one_unit (List.filter marked_taxable r))) as Hn.
    pose proof (Qabs_triangle acc (one_unit i)) as Ht.
    assert (Hs : Q7 (Dec.plus acc (one_unit i)) == acc + one_unit i)
      by (apply Q7_plus_exact; [exact Hg|apply on_grid_Q7|lra]).
    rewrite IH.
    + rewrite Hs. ring.
    + exact Hr.
    + apply on_grid_Q7.
    + rewrite (Qabs_wd _ _ Hs). lra.
  - apply IH; assumption.
Qed.

(** X11. For normalized lines whose quantity is 0 (which is what a
    missing, zero or negative quantity is normalized to),
    [computeBaseSubtotal] is 0 while the taxable base of
    [calculateTaxes] counts every taxable line at one unit: as long as
    the magnitudes of the 7-place unit prices of the taxable lines add
    up to less than 10^33, it is their sum. *)
Theorem zero_quantity_lines_are_taxed_on_their_unit_price items :
  Forall (fun item => quantity item == 0) items ->
  sum_abs (List.map one_unit (List.filter marked_taxable items)) < exact_below ->
  computeBaseSubtotal items == 0 /\
  taxable_lines_base items == sum_taxable_unit_prices items.
Proof.
  intros H Hb. split.
  - unfold computeBaseSubtotal.
    apply computeBaseSubtotal_zero_quantities; [exact H|reflexivity].
  - unfold taxable_lines_base.
    rewrite taxable_lines_zero_quantities.
    + ring.
    + exact H.
    + apply on_grid_0.
    + change (Qabs 0) with 0. unfold exact_below in *. lra.
Qed.

Lemma zero_quantity_lines_are_taxed_on_their_unit_price_witness :
  computeBaseSubtotal zero_quantity_lines == 0 /\
  taxable_lines_base zero_quantity_lines == sum_taxable_unit_prices zero_quantity_lines /\
  taxable_lines_base zero_quantity_lines == 100.
Proof.
  destruct (zero_quantity_lines_are_taxed_on_their_unit_price zero_quantity_lines) as [B T].
  - repeat constructor.
  - vm_compute. reflexivity.
  - split; [exact B|]. split; [exact T|]. vm_compute. reflexivity.
Defined.

Lemma calculateTaxes_same_but_use_tax host s cfg cfg' items t1 :
  tax_rate cfg' = tax_rate cfg ->
  tax_mode cfg' = tax_mode cfg ->
  jurisdictions cfg' = jurisdictions cfg ->
  calculateTaxes host s cfg items = Ok t1 ->
  exists t2, calculateTaxes host s cfg' items = Ok t2 /\ same_but_use_tax t1 t2.
Proof.
  intros Hrate Hmode Hjs. unfold calculateTaxes. cbv zeta.
  rewrite Hrate, Hmode, Hjs. intros H.
  match type of H with
  | obind ?m _ = _ => destruct m as [retail|e]
  end; cbn [obind] in *; [|discriminate].
  injection H as <-. eexists. split; [reflexivity|].
  unfold same_but_use_tax, with_taxes. simpl. auto.
Qed.

Lemma applyModifierGroups_same_but_use_tax s1 s2 gs items t1 :
  same_but_use_tax s1 s2 ->
  applyModifierGroups s1 gs items = Ok t1 ->
  exists t2, applyModifierGroups s2 gs items = Ok t2 /\ same_but_use_tax t1 t2.
Proof.
  intros (Hb & Hr & Ha & Ht). unfold applyModifierGroups. rewrite <- Hr, <- Ha.
  destruct (applyGroups_loop gs items (runningSubtotal s1) (adjustments s1)) as [[run adjs]|e];
    simpl; [|discriminate].
  intros [= <-]. eexists. split; [reflexivity|].
  repeat split; simpl; assumption.
Qed.

(** X12. The use tax rate never reaches what the customer is shown:
    when [calculate] returns a result, it returns one for the same
    input with any other use tax rate, with the same subtotal, modifier
    total, retail tax, customer grand total and adjustments. *)
Theorem use_tax_rate_never_changes_what_the_customer_pays host input rate result :
  calculate host input = Ok result ->
  exists result',
    calculate host (with_use_tax_rate input rate) = Ok result' /\
    subtotal result' = subtotal result /\
    modifierTotal result' = modifierTotal result /\
    retailTax result' = retailTax result /\
    customerGrandTotal result' = customerGrandTotal result /\
    r_adjustments result' = r_adjustments result.
Proof.
  unfold calculate. intros H.
  destruct (validateInput input) as [[]|e] eqn:Ev; simpl in H; [|discriminate].
  assert (Ev' : validateInput (with_use_tax_rate input rate) = Ok tt).
  { revert Ev. unfold validateInput, with_use_tax_rate. simpl.
    destruct (lineItems input), (modifiers input), (config input); auto. }
  rewrite Ev'. simpl.
  destruct (finalState host (normalizeInput host input)) as [final|e] eqn:Ef;
    simpl in H; [|discriminate].
  injection H as <-.
  assert (Hn : exists cfg',
             normalizeInput host (with_use_tax_rate input rate) =
             {| n_lineItems := n_lineItems (normalizeInput host input);
                n_modifiers := n_modifiers (normalizeInput host input);
                n_dependencies := n_dependencies (normalizeInput host input);
                n_preTaxGroups := n_preTaxGroups (normalizeInput host input);
                n_postTaxGroups := n_postTaxGroups (normalizeInput host input);
                n_config := cfg' |} /\
             tax_rate cfg' = tax_rate (n_config (normalizeInput host input)) /\
             tax_mode cfg' = tax_mode (n_config (normalizeInput host input)) /\
             jurisdictions cfg' = jurisdictions (n_config (normalizeInput host input))).
  { unfold normalizeInput, with_use_tax_rate. simpl.
    eexists. split; [reflexivity|]. destruct (config input); simpl; auto. }
  destruct Hn as (cfg' & -> & Hrate & Hmode & Hjs).
  set (n := normalizeInput host input) in *.
  match goal with
  | |- context [finalState host ?r] => set (n2 := r)
  end.
  assert (Ei : initialState n2 = initialState n) by reflexivity.
  unfold finalState in *. rewrite Ei.
  subst n2. cbn [n_preTaxGroups n_lineItems n_config n_postTaxGroups].
  destruct (applyModifierGroups (initialState n) (n_preTaxGroups n) (n_lineItems n))
    as [afterPreTax|e] eqn:Epre; cbn [obind] in Ef; [|discriminate].
  cbn [obind].
  destruct (calculateTaxes host afterPreTax (n_config n) (n_lineItems n))
    as [afterTax|e] eqn:Etax; cbn [obind] in Ef; [|discriminate].
  destruct (calculateTaxes_same_but_use_tax _ _ _ cfg' _ _ Hrate Hmode Hjs Etax)
    as (afterTax' & Etax' & S).
  rewrite Etax'. cbn [obind].
  destruct (applyModifierGroups_same_but_use_tax _ _ _ _ _ S Ef)
    as (t2 & E2 & (Hb & Hr & Ha & Ht)).
  rewrite E2. cbn [obind]. eexists. split; [reflexivity|].
  unfold buildResult, modifierTotal_of, customerGrandTotal_of. simpl.
  rewrite Hb, Hr, Ha, Ht. repeat split; reflexivity.
Qed.

Lemma use_tax_rate_never_changes_what_the_customer_pays_witness :
  exists result,
    calculate sample_host (use_tax_request "MIXED") = Ok result /\
    useTax result = Some "80.00"%string /\
    exists result',
      calculate sample_host (with_use_tax_rate (use_tax_request "MIXED") (Str (1 # 2)))
        = Ok result' /\
      subtotal result' = subtotal result /\
      modifierTotal result' = modifierTotal result /\
      retailTax result' = retailTax result /\
      customerGrandTotal result' = customerGrandTotal result /\
      r_adjustments result' = r_adjustments result.
Proof.
  eexists. split; [vm_compute; reflexivity|]. split; [reflexivity|].
  apply (use_tax_rate_never_changes_what_the_customer_pays sample_host
           (use_tax_request "MIXED") (Str (1 # 2))).
  vm_compute. reflexivity.
Defined.

End TaxFacts.

(** ** The canonical form *)

Section CanonicalForm.

Import PureCalculationEngine Statements Samples.

Lemma ascii_compare_lt_trans a b c :
  Ascii.compare a b = Lt -> Ascii.compare b c = Lt -> Ascii.compare a c = Lt.
Proof.
  unfold Ascii.compare. rewrite !N.compare_lt_iff. lia.
Qed.

Lemma string_compare_lt_trans : forall a b c,
  String.compare a b = Lt -> String.compare b c = Lt -> String.compare a c = Lt.
Proof.
  induction a as [|x a IH]; intros [|y b] [|z c]; simpl; try discriminate; auto.
  destruct (Ascii.compare x y) eqn:Exy; try discriminate.
  - apply Ascii.compare_eq_iff in Exy. subst y.
    destruct (Ascii.compare x z); try discriminate; auto. apply IH.
  - intros _. destruct (Ascii.compare y z) eqn:Eyz; try discriminate.
    + apply Ascii.compare_eq_iff in Eyz. subst z. rewrite Exy. reflexivity.
    + rewrite (ascii_compare_lt_trans _ _ _ Exy Eyz). reflexivity.
Qed.

Lemma ltb_trans a b c : String.ltb a b = true -> String.ltb b c = true -> String.ltb a c = true.
Proof.
  unfold String.ltb. intros H1 H2.
  destruct (String.compare a b) eqn:E1; try discriminate.
  destruct (String.compare b c) eqn:E2; try discriminate.
  rewrite (string_compare_lt_trans _ _ _ E1 E2). reflexivity.
Qed.

Lemma string_compare_refl a : String.compare a a = Eq.
Proof.
  induction a as [|x a IH]; simpl; [reflexivity|].
  unfold Ascii.compare. rewrite N.compare_refl. exact IH.
Qed.

Lemma ltb_irrefl a : String.ltb a a = false.
Proof. unfold String.ltb. rewrite string_compare_refl. reflexivity. Qed.

Lemma ltb_total a b : a <> b -> String.ltb a b = false -> String.ltb b a = true.
Proof.
  unfold String.ltb. intros Hne H.
  rewrite (String.compare_antisym b a).
  destruct (String.compare a b) eqn:E; simpl; try discriminate; [|reflexivity].
  apply String.compare_eq_iff in E. contradiction.
Qed.

Lemma insert_key_sorted x l :
  ~ In (fst x) (List.map fst l) ->
  key_sorted l -> key_sorted (insert_sorted key_lt x l).
Proof.
  intros Hx H. induction H as [|y r Hr IH Hy]; simpl.
  - constructor; constructor.
  - destruct (key_lt y x) eqn:Hyx.
    + constructor.
      * apply IH. intros Hin. apply Hx. right. exact Hin.
      * apply List.Forall_forall. intros z Hz.
        apply (Permutation_in _ (insert_sorted_perm key_lt x r)) in Hz.
        destruct Hz as [<-|Hz]; [exact Hyx|].
        rewrite List.Forall_forall in Hy. apply Hy, Hz.
    + assert (E : key_lt x y = true).
      { unfold key_lt in *. apply ltb_total; [|exact Hyx].
        intros Eq. apply Hx. left. exact Eq. }
      constructor; [constructor; assumption|]. constructor; [exact E|].
      eapply List.Forall_impl; [|exact Hy]. intros z Hz.
      unfold key_lt in *. eapply ltb_trans; eassumption.
Qed.

Lemma sort_by_key_sorted l :
  List.NoDup (List.map fst l) -> key_sorted (sort_by key_lt l).
Proof.
  unfold sort_by. induction l as [|x r IH]; intros H; simpl; [constructor|].
  apply List.NoDup_cons_iff in H. destruct H as [Hx Hr].
  apply insert_key_sorted; [|apply IH, Hr].
  intros Hin. apply Hx.
  eapply Permutation_in; [|exact Hin].
  apply Permutation_map. apply (sort_by_perm key_lt r).
Qed.

Lemma key_sorted_unique l : forall l',
  key_sorted l -> key_sorted l' -> Permutation l l' -> l = l'.
Proof.
  induction l as [|x r IH]; intros l' H H' P.
  - apply Permutation_nil in P. congruence.
  - destruct l' as [|x' r']; [symmetry in P; apply Permutation_nil in P; discriminate|].
    apply StronglySorted_inv in H. destruct H as [Hr Hx].
    apply StronglySorted_inv in H'. destruct H' as [Hr' Hx'].
    assert (E : x = x').
    { assert (I1 : In x (x' :: r')) by (eapply Permutation_in; [exact P|left; reflexivity]).
      assert (I2 : In x' (x :: r)).
      { eapply Permutation_in; [symmetry; exact P|left; reflexivity]. }
      destruct I1 as [->|I1]; [reflexivity|].
      destruct I2 as [->|I2]; [reflexivity|].
      rewrite List.Forall_forall in Hx, Hx'.
      pose proof (Hx _ I2) as A. pose proof (Hx' _ I1) as B.
      unfold key_lt in *. pose proof (ltb_trans _ _ _ A B) as C.
      rewrite ltb_irrefl in C. discriminate. }
    subst x'. f_equal. apply IH; auto. eapply Permutation_cons_inv. exact P.
Qed.

Lemma sort_by_sorted_id l : key_sorted l -> sort_by key_lt l = l.
Proof.
  unfold sort_by. induction 1 as [|x r Hr IH Hx]; simpl; [reflexivity|].
  rewrite IH. destruct r as [|y r']; [reflexivity|]. simpl.
  inversion Hx as [|? ? Hxy _]; subst.
  destruct (key_lt y x) eqn:Hyx; [|reflexivity].
  unfold key_lt in *. pose proof (ltb_trans _ _ _ Hxy Hyx) as C.
  rewrite ltb_irrefl in C. discriminate.
Qed.

Lemma canonicalize_object props :
  canonicalize (JObject props) = JObject (sort_by key_lt (List.map canon_prop props)).
Proof.
  simpl. f_equal. f_equal. apply map_ext. intros [k x]. reflexivity.
Qed.

Lemma map_fst_canon props : List.map fst (List.map canon_prop props) = List.map fst props.
Proof. rewrite List.map_map. reflexivity. Qed.

(** X13. The canonical form of an object does not depend on the order
    of its keys, at any depth: two objects with distinct keys whose
    properties, once canonicalized, are the same up to their order have
    the same canonical form, and so the same input hash. *)
Theorem canonical_form_does_not_depend_on_key_order host props props' :
  List.NoDup (List.map fst props) ->
  Permutation (List.map canon_prop props) (List.map canon_prop props') ->
  canonicalize (JObject props) = canonicalize (JObject props') /\
  generateInputHash host (JObject props) = generateInputHash host (JObject props').
Proof.
  intros Hnd P.
  assert (E : canonicalize (JObject props) = canonicalize (JObject props')).
  { rewrite !canonicalize_object. f_equal.
    assert (Hnd' : List.NoDup (List.map fst (List.map canon_prop props'))).
    { eapply Permutation_NoDup; [apply Permutation_map; exact P|].
      rewrite map_fst_canon. exact Hnd. }
    apply key_sorted_unique.
    - apply sort_by_key_sorted. rewrite map_fst_canon. exact Hnd.
    - apply sort_by_key_sorted. exact Hnd'.
    - rewrite !sort_by_perm. exact P. }
  split; [exact E|]. unfold generateInputHash. rewrite E. reflexivity.
Qed.

Lemma canonical_form_does_not_depend_on_key_order_witness :
  canonicalize (JObject unordered_props) = canonicalize (JObject reordered_props) /\
  generateInputHash sample_host (JObject unordered_props)
  = generateInputHash sample_host (JObject reordered_props).
Proof.
  apply (canonical_form_does_not_depend_on_key_order sample_host
           unordered_props reordered_props).
  - simpl. repeat (constructor; [simpl; intuition discriminate|]). constructor.
  - vm_compute. apply perm_swap.
Defined.

Lemma json_size_item x items :
  In x items -> (json_size x < json_size (JArray items))%nat.
Proof.
  simpl. induction items as [|y r IH]; simpl; [tauto|].
  intros [->|H]; [lia|]. specialize (IH H). lia.
Qed.

Lemma json_size_prop kv props :
  In kv props -> (json_size (snd kv) < json_size (JObject props))%nat.
Proof.
  simpl. induction props as [|y r IH]; simpl; [tauto|].
  intros [->|H]; [lia|]. specialize (IH H). lia.
Qed.

Lemma unique_keys_item x items :
  unique_keys (JArray items) -> In x items -> unique_keys x.
Proof.
  simpl. induction items as [|y r IH]; simpl; [tauto|].
  intros [Hy Hr] [->|H]; auto.
Qed.

Lemma unique_keys_prop kv props :
  unique_keys (JObject props) -> In kv props -> unique_keys (snd kv).
Proof.
  simpl. intros [_ H]. induction props as [|y r IH]; simpl in *; [tauto|].
  destruct H as [Hy Hr]. intros [->|Hin]; auto.
Qed.

Lemma canonicalize_idem_size n : forall v,
  (json_size v <= n)%nat -> unique_keys v ->
  canonicalize (canonicalize v) = canonicalize v.
Proof.
  induction n as [|n IH]; intros v Hn Hu.
  - destruct v; simpl in Hn; lia.
  - destruct v as [| | | | |items|props]; try reflexivity.
    + change (canonicalize (JArray items)) with (JArray (List.map canonicalize items)).
      change (canonicalize (JArray (List.map canonicalize items)))
        with (JArray (List.map canonicalize (List.map canonicalize items))).
      f_equal. rewrite List.map_map. apply map_ext_in. intros x Hx.
      apply IH; [|eapply unique_keys_item; eauto].
      pose proof (json_size_item _ _ Hx). lia.
    + rewrite canonicalize_object.
      set (L := sort_by key_lt (List.map canon_prop props)).
      rewrite canonicalize_object. f_equal.
      assert (HL : key_sorted L).
      { apply sort_by_key_sorted. rewrite map_fst_canon. apply Hu. }
      assert (E : List.map canon_prop L = L).
      { rewrite <- (List.map_id L) at 2. apply map_ext_in. intros kv Hkv.
        apply (Permutation_in _ (sort_by_perm key_lt _)) in Hkv.
        apply in_map_iff in Hkv. destruct Hkv as [[k x] [<- Hin]].
        unfold canon_prop. simpl. f_equal.
        apply IH; [|apply (unique_keys_prop (k, x) props Hu Hin)].
        pose proof (json_size_prop _ _ Hin). simpl in *. lia. }
      rewrite E. apply sort_by_sorted_id, HL.
Qed.

(** X14. A canonical form is a fixed point: for a value whose objects
    have each key once, canonicalizing the canonical form gives it back,
    so hashing a canonicalized input gives the hash of the input. *)
Theorem canonical_form_is_a_fixed_point host v :
  unique_keys v ->
  canonicalize (canonicalize v) = canonicalize v /\
  generateInputHash host (canonicalize v) = generateInputHash host v.
Proof.
  intros Hu.
  assert (E := canonicalize_idem_size (json_size v) v (Nat.le_refl _) Hu).
  split; [exact E|]. unfold generateInputHash. rewrite E. reflexivity.
Qed.

Lemma canonical_form_is_a_fixed_point_witness :
  canonicalize (canonicalize (JObject unordered_props)) = canonicalize (JObject unordered_props) /\
  generateInputHash sample_host (canonicalize (JObject unordered_props))
  = generateInputHash sample_host (JObject unordered_props).
Proof.
  apply (canonical_form_is_a_fixed_point sample_host (JObject unordered_props)).
  simpl. repeat split; repeat (constructor; [simpl; intuition discriminate|]); constructor.
Defined.

End CanonicalForm.

(** ** The safe rule evaluator: comparisons and fields *)

Section ComparisonsAndFields.

Import SafeRuleEvaluator Statements Samples.

Lemma compare_valid host l r op :
  In op validOps -> exists b, compare host l r op = Ok (VBool b).
Proof.
  intros H. unfold compare.
  assert (E : existsb (String.eqb op) validOps = true).
  { apply existsb_exists. exists op. split; [exact H|apply String.eqb_refl]. }
  rewrite E. simpl.
  destruct (is_nullish l || is_nullish r); [eauto|].
  destruct (is_bool l || is_bool r); [eauto|].
  destruct (is_string l || is_string r); [eauto|].
  destruct l, r; eauto.
Qed.

(** X15. [compare] throws on an operator outside its six and returns a
    boolean on each of the six.  Whatever the operands, [!=] is the
    negation of [==], and [>] and [>=] are [<] and [<=] with the
    operands swapped.  With a null, undefined or boolean operand, the
    four ordering operators are false. *)
Theorem comparison_operators_are_consistent host l r :
  (forall op, ~ In op validOps -> compare host l r op = Err InvalidOperator) /\
  (forall op, In op validOps -> exists b, compare host l r op = Ok (VBool b)) /\
  as_bool (compare host l r "!=") = option_map negb (as_bool (compare host l r "==")) /\
  compare host l r ">" = compare host r l "<" /\
  compare host l r ">=" = compare host r l "<=" /\
  (is_nullish l || is_nullish r || is_bool l || is_bool r = true ->
   forall op, In op [">"; ">="; "<"; "<="]%string -> compare host l r op = Ok (VBool false)).
Proof.
  split; [|split; [apply compare_valid|]].
  - intros op H. unfold compare.
    destruct (existsb (String.eqb op) validOps) eqn:E; [|reflexivity].
    exfalso. apply H. apply existsb_exists in E. destruct E as (x & Hx & Ex).
    apply String.eqb_eq in Ex. subst. exact Hx.
  - unfold compare. simpl.
    rewrite (orb_comm (is_nullish r)), (orb_comm (is_bool r)), (orb_comm (is_string r)).
    destruct (is_nullish l || is_nullish r) eqn:En.
    { repeat split; try reflexivity.
      intros _ op [<-|[<-|[<-|[<-|[]]]]]; reflexivity. }
    rewrite <- orb_assoc. cbn [orb].
    destruct (is_bool l || is_bool r).
    { repeat split; try reflexivity.
      intros _ op [<-|[<-|[<-|[<-|[]]]]]; reflexivity. }
    destruct (is_string l || is_string r); [repeat split; try reflexivity; discriminate|].
    destruct l, r; repeat split; try reflexivity; discriminate.
Qed.

Lemma append_cons c s t : String c s +:+ t = String c (s +:+ t).
Proof. reflexivity. Qed.

Lemma append_empty_r s : s +:+ EmptyString = s.
Proof. induction s as [|c r IH]; [reflexivity|]. rewrite append_cons, IH. reflexivity. Qed.

Lemma append_assoc_1 cur c r :
  (cur +:+ String c EmptyString) +:+ r = cur +:+ String c r.
Proof.
  induction cur as [|d cur IH]; [reflexivity|]. rewrite !append_cons, IH. reflexivity.
Qed.

Lemma split_dot_no_dot p : forall s cur,
  has_dot p = false ->
  split_dot (p +:+ s) cur = split_dot s (cur +:+ p).
Proof.
  induction p as [|c r IH]; intros s cur H.
  - rewrite append_empty_r. reflexivity.
  - simpl in H. apply orb_false_iff in H. destruct H as [Hc Hr].
    rewrite append_cons. cbn [split_dot].
    rewrite Hc. rewrite IH by exact Hr. rewrite append_assoc_1. reflexivity.
Qed.

Lemma split_dot_join parts : forall p cur,
  Forall (fun q => has_dot q = false) (p :: parts) ->
  split_dot (JSON.join "." (p :: parts)) cur = (cur +:+ p) :: parts.
Proof.
  induction parts as [|q r IH]; intros p cur H.
  - unfold JSON.join. simpl. inversion H; subst.
    rewrite <- (append_empty_r p) at 1. rewrite split_dot_no_dot by assumption. reflexivity.
  - inversion H as [|? ? Hp Hr]; subst.
    unfold JSON.join in *.
    change (String.concat "." (p :: q :: r))
      with (p +:+ String "."%char (String.concat "." (q :: r))).
    rewrite split_dot_no_dot by exact Hp.
    cbn [split_dot]. rewrite Ascii.eqb_refl.
    rewrite (IH q EmptyString Hr). reflexivity.
Qed.

Lemma walk_nested parts v : walk parts (nested parts v) = v.
Proof.
  induction parts as [|p r IH]; [reflexivity|].
  simpl. rewrite String.eqb_refl. exact IH.
Qed.

Lemma walk_nullish parts v : parts <> [] -> is_nullish v = true -> walk parts v = VUndefined.
Proof. destruct parts; [congruence|]. intros _ H. simpl. rewrite H. reflexivity. Qed.

Lemma split_dot_nonempty s cur : split_dot s cur <> [].
Proof.
  revert cur. induction s as [|c r IH]; intros cur; simpl; [discriminate|].
  destruct (Ascii.eqb c "."); [discriminate|apply IH].
Qed.

(** X16. A value stored under a nested path is read back by
    [getFieldValue] with the dotted path, when no part of the path has
    a dot in it and the path is not empty; on a null or undefined
    context every path reads undefined. *)
Theorem nested_field_is_read_back p parts v :
  Forall (fun q => has_dot q = false) (p :: parts) ->
  JSON.join "." (p :: parts) <> EmptyString ->
  getFieldValue (Some (JSON.join "." (p :: parts))) (nested (p :: parts) v) = v /\
  (forall path context,
     is_nullish context = true -> getFieldValue path context = VUndefined).
Proof.
  intros H Hne. split.
  - unfold getFieldValue.
    destruct (String.eqb_spec (JSON.join "." (p :: parts)) EmptyString) as [E|_];
      [contradiction|].
    rewrite split_dot_join by exact H. simpl app. apply walk_nested.
  - intros path context Hn. unfold getFieldValue.
    destruct path as [s|]; [|reflexivity].
    destruct (String.eqb s EmptyString); [reflexivity|].
    apply walk_nullish; [apply split_dot_nonempty|exact Hn].
Qed.

Lemma nested_field_is_read_back_witness :
  getFieldValue (Some "proposal.customer_type"%string)
    (nested ["proposal"; "customer_type"]%string (VString "retail"))
  = VString "retail".
Proof.
  refine (proj1 (nested_field_is_read_back "proposal" ["customer_type"%string]
                   (VString "retail") _ _)).
  - repeat constructor.
  - discriminate.
Defined.

End ComparisonsAndFields.

(** ** The post-processor: failed runs and webhooks *)

Section FailedRunsAndWebhooks.

Import PostProcessor WebhookTrigger Statements Samples.

Lemma with_proposalId_idem result request :
  with_proposalId (with_proposalId result request) request = with_proposalId result request.
Proof.
  unfold with_proposalId. simpl. f_equal.
  generalize (txt_or (req_proposalId request) (req_proposal_id request)). intros x.
  unfold txt_or. destruct (txt_truthy (proposalId result)) eqn:E.
  - rewrite E. reflexivity.
  - destruct (txt_truthy x); reflexivity.
Qed.

Lemma count_where_app p l1 l2 :
  count_where p (l1 ++ l2) = (count_where p l1 + count_where p l2)%nat.
Proof. unfold count_where. rewrite List.filter_app, List.length_app. reflexivity. Qed.

(** X17. A run of [process] that throws rolls its transaction back: it
    leaves no row of the outbox, stores nothing for idempotency, keeps
    the registered webhooks and records an error metric.  The result
    row is another matter, because [persist] sends its query through
    [this.db] and not through the transaction: on a handle that runs
    that query in the open transaction the database is left as it was,
    and on one that runs it outside, the row of the result stays
    whenever the run failed after [persist].  Outside the database
    nothing else happened, unless it is the commit that failed: then the
    cache entry, the calculation metric and the webhook calls of the
    run stay.  A later run without faults, of the same result (with or
    without the proposal id the failed run has set on it), succeeds and
    writes the result row and the one outbox event. *)
Theorem a_failed_run_leaves_no_event faults result request (w w' : World) e :
  process faults result request w = (Err e, w') ->
  let final := with_proposalId result request in
  (persist_outside_transaction faults = false -> db w' = db w) /\
  (persist_outside_transaction faults = true ->
   beginTransaction_fails faults = false ->
   persist_fails faults = false ->
   db w' = db w ++ [persist final]) /\
  (db w' = db w \/ db w' = db w ++ [persist final]) /\
  count_where is_outbox (db w') = count_where is_outbox (db w) /\
  idempotency w' = idempotency w /\
  webhooks w' = webhooks w /\
  (exists outside,
     effects w' = effects w ++ outside ++ [MetricRecorded "error"] /\
     (outside = [] \/
      commit_fails faults = true /\
      outside = [CacheSet (checksum final) final; MetricRecorded "calculation"]
                ++ trigger (webhooks w) "calculation" final)) /\
  (forall faults2 again,
     all_succeed faults2 ->
     again = result \/ again = final ->
     exists w'',
       process faults2 again request w' = (Ok final, w'') /\
       db w'' = db w' ++ [persist final; publishWithinTransaction final]).
Proof.
  unfold process, IdempotencyChecker.check. cbn zeta.
  destruct (idempotency w !! checksum result) as [existing|] eqn:Ei; [discriminate|].
  intros H.
  set (final := with_proposalId result request) in *.
  assert (R : exists kept outside,
             w' = record_error w kept outside /\
             (kept = [] /\
              (beginTransaction_fails faults = true \/ persist_fails faults = true \/
               persist_outside_transaction faults = false) \/
              kept = [persist final] /\
              beginTransaction_fails faults = false /\ persist_fails faults = false /\
              persist_outside_transaction faults = true) /\
             (outside = [] \/
              commit_fails faults = true /\
              outside = [CacheSet (checksum final) final; MetricRecorded "calculation"]
                        ++ trigger (webhooks w) "calculation" final)).
  { destruct (beginTransaction_fails faults);
      [injection H as _ <-; do 2 eexists; split; [reflexivity|]; split; auto|].
    destruct (persist_fails faults);
      [injection H as _ <-; do 2 eexists; split; [reflexivity|]; split; auto 6|].
    assert (K : (if persist_outside_transaction faults then [persist final] else []) = []
                /\ persist_outside_transaction faults = false \/
                (if persist_outside_transaction faults then [persist final] else [])
                = [persist final] /\ persist_outside_transaction faults = true)
      by (destruct (persist_outside_transaction faults); auto).
    destruct (outbox_fails faults);
      [injection H as _ <-; do 2 eexists; split; [reflexivity|]; split; [|auto];
       destruct K as [[-> ?]|[-> ?]]; auto 6|].
    destruct (cache_fails faults);
      [injection H as _ <-; do 2 eexists; split; [reflexivity|]; split; [|auto];
       destruct K as [[-> ?]|[-> ?]]; auto 6|].
    destruct (commit_fails faults); [|discriminate].
    injection H as _ <-. do 2 eexists. split; [reflexivity|]. split; [|auto].
    destruct K as [[-> ?]|[-> ?]]; auto 6. }
  destruct R as (kept & outside & -> & Hkept & Hout).
  cbn [record_error db idempotency webhooks effects].
  split; [|split; [|split; [|split; [|split; [|split; [|split]]]]]].
  - intros Hp. destruct Hkept as [[-> _]|(_ & _ & _ & Hk)]; [apply app_nil_r|congruence].
  - intros Hp Hb Hf.
    destruct Hkept as [[_ [Hk|[Hk|Hk]]]|(-> & _)]; congruence.
  - destruct Hkept as [[-> _]|(-> & _)]; [left; apply app_nil_r|right; reflexivity].
  - rewrite count_where_app.
    destruct Hkept as [[-> _]|(-> & _)]; unfold count_where; simpl; lia.
  - reflexivity.
  - reflexivity.
  - exists outside. split; [reflexivity|exact Hout].
  - intros faults2 again (H1 & H2 & H3 & H4 & H5) [-> | ->].
    + rewrite Ei, H1, H2, H3, H4, H5. eexists. split; reflexivity.
    + subst final. cbn [with_proposalId checksum]. rewrite Ei, H1, H2, H3, H4, H5.
      change {| checksum := checksum result;
                proposalId :=
                  txt_or
                    (txt_or (proposalId result)
                       (txt_or (req_proposalId request) (req_proposal_id request)))
                    (txt_or (req_proposalId request) (req_proposal_id request));
                subtotal := subtotal result;
                total := total result;
                customerGrandTotal := customerGrandTotal result;
                modifierCount := modifierCount result |}
        with (with_proposalId (with_proposalId result request) request).
      rewrite with_proposalId_idem. eexists. split; reflexivity.
Qed.

Lemma a_failed_run_leaves_no_event_witness :
  exists w',
    process outbox_fault_on_a_pool computed_result sample_request fresh_world
    = (Err DatabaseError, w') /\
    db w' = [persist (with_proposalId computed_result sample_request)] /\
    count_where is_outbox (db w') = 0%nat /\
    exists w'',
      process no_faults computed_result sample_request w'
      = (Ok (with_proposalId computed_result sample_request), w'') /\
      List.length (db w'') = 3%nat.
Proof.
  eexists. split; [reflexivity|].
  destruct (a_failed_run_leaves_no_event outbox_fault_on_a_pool computed_result
              sample_request fresh_world _ DatabaseError eq_refl)
    as (_ & Hdb & _ & Hout & _ & _ & _ & Hretry).
  split; [exact (Hdb eq_refl eq_refl eq_refl)|]. split; [exact Hout|].
  destruct (Hretry no_faults computed_result) as (w'' & Hp & Hw).
  - repeat split.
  - left. reflexivity.
  - exists w''. split; [exact Hp|]. rewrite Hw. reflexivity.
Defined.

(** On a handle that runs the query of [persist] in the open
    transaction, a run in which the commit fails leaves no row. *)
Example failed_commit_is_rolled_back :
  exists w',
    process commit_fault computed_result sample_request fresh_world = (Err DatabaseError, w') /\
    db w' = [] /\
    effects w' <> [MetricRecorded "error"].
Proof. eexists. split; [reflexivity|]. split; [reflexivity|]. discriminate. Qed.

Lemma trigger_addWebhook registered e u event data :
  trigger (addWebhook registered e u) event data
  = trigger registered event data
    ++ (if String.eqb e event then [WebhookCalled u event data] else []).
Proof.
  unfold trigger, addWebhook. destruct (String.eqb_spec e event) as [->|Hne].
  - rewrite lookup_insert_eq. simpl. rewrite List.map_app. reflexivity.
  - rewrite lookup_insert_ne by congruence. rewrite app_nil_r. reflexivity.
Qed.

(** X18. After URLs are registered one after the other, [trigger] calls,
    for an event, the URLs that were registered for it before and then
    the new ones registered for it, in the order of registration and as
    often as they were registered; registrations for other events add
    no call, and with nothing registered nothing is called. *)
Theorem registered_webhooks_are_called_in_order registrations registered event data :
  trigger (register_all registrations registered) event data
  = trigger registered event data
    ++ List.map (fun eu => WebhookCalled (snd eu) event data)
         (List.filter (fun eu => String.eqb (fst eu) event) registrations) /\
  trigger (∅ : gmap string (list string)) event data = [].
Proof.
  split.
  - unfold register_all. revert registered.
    induction registrations as [|[e u] rest IH]; intros registered.
    + simpl. rewrite app_nil_r. reflexivity.
    + cbn [fold_left List.filter fst snd]. rewrite IH, trigger_addWebhook.
      rewrite <- app_assoc. f_equal.
      destruct (String.eqb e event); reflexivity.
  - unfold trigger. rewrite lookup_empty. reflexivity.
Qed.

End FailedRunsAndWebhooks.

(** ** The event outbox *)

Section OutboxDelivery.

Import EventOutbox Statements Samples.

Lemma pass_inv retry0 f now st :
  failure_update_fails f = false ->
  outbox_inv retry0 st ->
  outbox_inv retry0 (pass f now st) /\
  max_retries (fst (pass f now st)) = max_retries (fst st) /\
  event_type (fst (pass f now st)) = event_type (fst st) /\
  payload (fst (pass f now st)) = payload (fst st) /\
  exists new, snd (pass f now st) = snd st ++ new /\
              Forall (fun e => e = (event_type (fst st), payload (fst st))) new.
Proof.
  intros Hf. destruct st as [row bus]. unfold pass, outbox_inv. cbn [fst snd].
  intros (Hr & Hx & Hs).
  assert (Same : outbox_inv retry0 (row, bus) /\
                 max_retries row = max_retries row /\
                 event_type row = event_type row /\
                 payload row = payload row /\
                 exists new, bus = bus ++ new /\
                   Forall (fun e => e = (event_type row, payload row)) new).
  { unfold outbox_inv. repeat split; auto. exists []. rewrite app_nil_r.
    split; [reflexivity|constructor]. }
  unfold outbox_inv in Same.
  destruct (fetchable now row) eqn:Ef; [|exact Same].
  unfold fetchable in Ef.
  unfold processEvent.
  destruct (status row) eqn:Es; try discriminate.
  - destruct (max_retries row <=? retry_count row)%nat eqn:Em.
    + destruct (dead_letter_fails f); cbn [snd fst]; [rewrite Es; exact Same|].
      simpl. repeat split; auto. exists []. rewrite app_nil_r. split; [reflexivity|constructor].
    + apply Nat.leb_gt in Em. unfold on_failure. rewrite Hf.
      destruct (mark_processing_fails f); cbn [snd fst].
      { simpl. repeat split; try lia. exists []. rewrite app_nil_r.
        split; [reflexivity|constructor]. }
      destruct (emit_fails f); cbn [snd fst].
      { simpl. repeat split; try lia. exists []. rewrite app_nil_r.
        split; [reflexivity|constructor]. }
      destruct (mark_completed_fails f); cbn [snd fst].
      { simpl. rewrite length_app. simpl. repeat split; try lia.
        eexists. split; [reflexivity|]. constructor; [reflexivity|constructor]. }
      simpl. rewrite length_app. simpl. repeat split; try lia.
      eexists. split; [reflexivity|]. constructor; [reflexivity|constructor].
  - destruct (max_retries row <=? retry_count row)%nat eqn:Em.
    + destruct (dead_letter_fails f); cbn [snd fst]; [rewrite Es; exact Same|].
      simpl. repeat split; auto. exists []. rewrite app_nil_r. split; [reflexivity|constructor].
    + apply Nat.leb_gt in Em. unfold on_failure. rewrite Hf.
      destruct (mark_processing_fails f); cbn [snd fst].
      { simpl. repeat split; try lia. exists []. rewrite app_nil_r.
        split; [reflexivity|constructor]. }
      destruct (emit_fails f); cbn [snd fst].
      { simpl. repeat split; try lia. exists []. rewrite app_nil_r.
        split; [reflexivity|constructor]. }
      destruct (mark_completed_fails f); cbn [snd fst].
      { simpl. rewrite length_app. simpl. repeat split; try lia.
        eexists. split; [reflexivity|]. constructor; [reflexivity|constructor]. }
      simpl. rewrite length_app. simpl. repeat split; try lia.
      eexists. split; [reflexivity|]. constructor; [reflexivity|constructor].
Qed.

Lemma passes_inv retry0 rounds : forall st,
  Forall (fun r => failure_update_fails (fst r) = false) rounds ->
  outbox_inv retry0 st ->
  outbox_inv retry0 (passes rounds st) /\
  max_retries (fst (passes rounds st)) = max_retries (fst st) /\
  exists new, snd (passes rounds st) = snd st ++ new /\
              Forall (fun e => e = (event_type (fst st), payload (fst st))) new.
Proof.
  induction rounds as [|[f now] r IH]; intros st H Hi.
  - simpl. repeat split; auto. exists []. rewrite app_nil_r. split; [reflexivity|constructor].
  - inversion H as [|? ? Hf Hr]; subst. cbn [fst] in Hf.
    unfold passes. cbn [fold_left fst snd].
    destruct (pass_inv retry0 f now st Hf Hi) as (Hi1 & Hm1 & He1 & Hp1 & new1 & Hn1 & Hall1).
    destruct (IH (pass f now st) Hr Hi1) as (Hi2 & Hm2 & new2 & Hn2 & Hall2).
    unfold passes in *. split; [exact Hi2|]. split; [congruence|].
    exists (new1 ++ new2). rewrite Hn2, Hn1, app_assoc. split; [reflexivity|].
    apply Forall_app. split; [exact Hall1|]. rewrite He1, Hp1 in Hall2. exact Hall2.
Qed.

(** X19. Whatever the runs of the background processor and their
    faults, as long as the update that records a failure goes through:
    a pending row is handed to the event bus at most as many times as
    it has retries left, what the bus is given is the event of the row,
    and a row that is completed or in the dead letter state is never
    touched again. *)
Theorem outbox_delivers_an_event_at_most_its_retries_left rounds row :
  status row = PENDING \/ status row = PROCESSING ->
  Forall (fun r => failure_update_fails (fst r) = false) rounds ->
  (List.length (snd (passes rounds (row, []))) <= max_retries row - retry_count row)%nat /\
  Forall (fun e => e = (event_type row, payload row)) (snd (passes rounds (row, []))) /\
  (forall settled bus,
     status settled = COMPLETED \/ status settled = DEAD_LETTER ->
     passes rounds (settled, bus) = (settled, bus)).
Proof.
  intros Hs Hf.
  assert (Hi : outbox_inv (retry_count row) (row, [])).
  { unfold outbox_inv. destruct Hs as [-> | ->]; simpl; repeat split; lia. }
  destruct (passes_inv _ rounds (row, []) Hf Hi) as (Hi' & Hm & new & Hn & Hall).
  cbn [fst snd] in *. split; [|split].
  - destruct (passes rounds (row, [])) as [row' bus]. unfold outbox_inv in Hi'. cbn [fst snd] in *.
    destruct Hi' as (H1 & H2 & H3).
    destruct (status row'); lia.
  - rewrite Hn. exact Hall.
  - intros settled bus Hset. clear - Hset.
    induction rounds as [|[f now] r IH]; [reflexivity|].
    unfold passes in *. cbn [fold_left fst snd].
    replace (pass f now (settled, bus)) with (settled, bus); [exact IH|].
    unfold pass, fetchable. cbn [fst]. destruct Hset as [-> | ->]; reflexivity.
Qed.

Lemma outbox_delivers_an_event_at_most_its_retries_left_witness :
  (List.length (snd (passes [(bus_down, 0%Z); (all_well, 5000%Z); (all_well, 9000%Z)]
                       (pending_row, []))) <= 3)%nat /\
  snd (passes [(bus_down, 0%Z); (all_well, 5000%Z); (all_well, 9000%Z)] (pending_row, []))
  = [("calculation.completed"%string, "p1"%string)].
Proof.
  split; [|reflexivity].
  refine (proj1 (outbox_delivers_an_event_at_most_its_retries_left
                   [(bus_down, 0%Z); (all_well, 5000%Z); (all_well, 9000%Z)]
                   pending_row _ _)).
  - left. reflexivity.
  - repeat constructor.
Defined.

(** X20. When a row with retries left is fetched and a call of the run
    throws before the row is marked completed, the row goes back to
    pending with one more retry and the message of the error, and it is
    fetched again exactly from the time of the failure plus 2 to the
    power of the new retry count seconds on: 2 seconds at the least. *)
Theorem a_failed_delivery_is_retried_after_the_backoff f now row bus :
  fetchable now row = true ->
  (retry_count row < max_retries row)%nat ->
  delivery_fails f = true ->
  failure_update_fails f = false ->
  let row' := fst (pass f now (row, bus)) in
  let due := (now + 2 ^ Z.of_nat (retry_count row + 1) * 1000)%Z in
  status row' = PENDING /\
  retry_count row' = S (retry_count row) /\
  error_message row' = Some (error_text f) /\
  (forall t, fetchable t row' = (due <=? t)%Z) /\
  (2000 <= due - now)%Z.
Proof.
  intros Hfetch Hleft Hfail Hupd. cbn zeta.
  assert (Hrow : fst (pass f now (row, bus))
                 = handleEventFailure row now (error_text f) row \/
                 fst (pass f now (row, bus))
                 = handleEventFailure row now (error_text f)
                     (updateEventStatus PROCESSING now row)).
  { unfold pass. cbn [fst]. rewrite Hfetch. unfold processEvent.
    apply Nat.leb_gt in Hleft. rewrite Hleft.
    unfold delivery_fails in Hfail. unfold on_failure. rewrite Hupd.
    unfold fetchable in Hfetch.
    destruct (status row); try discriminate;
      destruct (mark_processing_fails f); cbn [fst snd]; auto;
      destruct (emit_fails f); cbn [fst snd]; auto;
      destruct (mark_completed_fails f); cbn [fst snd]; auto; discriminate. }
  assert (Hpow : (2 <= 2 ^ Z.of_nat (retry_count row + 1))%Z).
  { replace (Z.of_nat (retry_count row + 1)) with (Z.succ (Z.of_nat (retry_count row))) by lia.
    rewrite Z.pow_succ_r by lia.
    assert (0 < 2 ^ Z.of_nat (retry_count row))%Z by (apply Z.pow_pos_nonneg; lia).
    lia. }
  destruct Hrow as [-> | ->]; unfold fetchable; simpl;
    (split; [reflexivity|]); (split; [lia|]); (split; [reflexivity|]);
    (split; [intros t; reflexivity|lia]).
Qed.

Lemma a_failed_delivery_is_retried_after_the_backoff_witness :
  fetchable 0 (fst (pass bus_down 0 (pending_row, []))) = false /\
  fetchable 1999 (fst (pass bus_down 0 (pending_row, []))) = false /\
  fetchable 2000 (fst (pass bus_down 0 (pending_row, []))) = true.
Proof.
  destruct (a_failed_delivery_is_retried_after_the_backoff bus_down 0%Z pending_row []
              eq_refl ltac:(simpl; lia) eq_refl eq_refl) as (_ & _ & _ & H & _).
  rewrite !H. repeat split.
Defined.

End OutboxDelivery.

(** ** The archived engine: exclusions, rules, order and base *)

Section CompliantExclusions.

Import CompliantCalculationEngine CompliantPhases Statements Samples.










End CompliantExclusions.

Section CompliantRules.

Import CompliantCalculationEngine CompliantPhases Statements Samples.

Context {Rule : Type} (rule_modifier_id : Rule -> txt) (evaluateRule : Rule -> bool).

Lemma run_rules_spec ms : forall n,
  fst (run_rules evaluateRule ms n) = forallb evaluateRule ms /\
  (n <= snd (run_rules evaluateRule ms n) <= n + List.length ms)%nat.
Proof.
  induction ms as [|r rest IH]; intros n; simpl; [split; [reflexivity|lia]|].
  destruct (evaluateRule r); simpl.
  - destruct (IH (S n)) as [E B]. split; [exact E|lia].
  - split; [reflexivity|lia].
Qed.

Lemma rule_fold rules todo : forall acc,
  passed_count (stats acc) = List.length (passed acc) ->
  failed_count (stats acc) = List.length (failed acc) ->
  let r := fold_left (rule_step rule_modifier_id evaluateRule rules) todo acc in
  passed r = passed acc ++ List.filter (all_rules_pass rule_modifier_id evaluateRule rules) todo /\
  failed r
  = failed acc
    ++ List.filter (fun m => negb (all_rules_pass rule_modifier_id evaluateRule rules m)) todo /\
  passed_count (stats r) = List.length (passed r) /\
  failed_count (stats r) = List.length (failed r) /\
  (evaluated (stats acc) <= evaluated (stats r))%nat.
Proof.
  induction todo as [|m rest IH]; intros acc Hp Hf; cbn zeta.
  - simpl. rewrite !app_nil_r. repeat split; auto.
  - cbn [fold_left List.filter].
    set (acc' := rule_step rule_modifier_id evaluateRule rules acc m).
    assert (S : (all_rules_pass rule_modifier_id evaluateRule rules m = true /\
                 passed acc' = passed acc ++ [m] /\ failed acc' = failed acc \/
                 all_rules_pass rule_modifier_id evaluateRule rules m = false /\
                 passed acc' = passed acc /\ failed acc' = failed acc ++ [m]) /\
                passed_count (stats acc') = List.length (passed acc') /\
                failed_count (stats acc') = List.length (failed acc') /\
                (evaluated (stats acc) <= evaluated (stats acc'))%nat).
    { clear IH. subst acc'. unfold rule_step, all_rules_pass.
      destruct (rules_of rule_modifier_id rules m) as [|r0 rs] eqn:Er.
      - simpl. rewrite length_app. simpl.
        split; [left; auto|]. split; [lia|]. split; [exact Hf|apply Nat.le_refl].
      - destruct (run_rules_spec (r0 :: rs) (evaluated (stats acc))) as [E B].
        destruct (run_rules evaluateRule (r0 :: rs) (evaluated (stats acc))) as [ok n].
        cbn [fst snd] in E, B. rewrite <- E.
        destruct ok; simpl; rewrite ?length_app; simpl.
        + split; [left; auto|]. split; [lia|]. split; [exact Hf|apply B].
        + split; [right; auto|]. split; [exact Hp|]. split; [lia|apply B]. }
    destruct S as (Hcase & Hp' & Hf' & He').
    destruct (IH acc' Hp' Hf') as (H1 & H2 & H3 & H4 & H5). cbn zeta in *.
    fold acc'.
    split; [|split; [|split; [exact H3|split; [exact H4|]]]].
    + rewrite H1. destruct Hcase as [(Ea & Epa & Efa)|(Ea & Epa & Efa)];
        rewrite Ea, Epa; [rewrite <- app_assoc|]; reflexivity.
    + rewrite H2. destruct Hcase as [(Ea & Epa & Efa)|(Ea & Epa & Efa)];
        rewrite Ea, Efa; cbn [negb]; [|rewrite <- app_assoc]; reflexivity.
    + etransitivity; [exact He'|exact H5].
Qed.

(** X22. With rules given, [evaluateRules] passes exactly the modifiers
    all of whose own rules hold (those without a rule among them) and
    fails the others, both in the order given, and counts them as
    passed and failed.  With no rules every modifier passes, and the
    statistics stay at 0: none is counted as passed. *)
Theorem a_modifier_passes_when_all_its_rules_hold (mods : list Mod.t) (rules : list Rule) :
  let r := evaluateRules rule_modifier_id evaluateRule mods rules in
  (rules <> [] ->
   passed r = List.filter (all_rules_pass rule_modifier_id evaluateRule rules) mods /\
   failed r
   = List.filter (fun m => negb (all_rules_pass rule_modifier_id evaluateRule rules m)) mods /\
   passed_count (stats r) = List.length (passed r) /\
   failed_count (stats r) = List.length (failed r)) /\
  (rules = [] ->
   passed r = mods /\ failed r = [] /\
   stats r = {| evaluated := 0; passed_count := 0; failed_count := 0 |}).
Proof.
  cbn zeta. split.
  - intros Hne. unfold evaluateRules. destruct rules as [|r0 rs]; [congruence|].
    destruct (rule_fold (r0 :: rs) mods
                {| passed := []; failed := [];
                   stats := {| evaluated := 0; passed_count := 0; failed_count := 0 |} |})
      as (H1 & H2 & H3 & H4 & _); [reflexivity|reflexivity|].
    cbn zeta in *. simpl in H1, H2. auto.
  - intros ->. simpl. auto.
Qed.

End CompliantRules.

Section CompliantOrder.

Import CompliantSorting Statements Samples.






End CompliantOrder.

Section CompliantBase.

Import CompliantCalculationEngine Statements Samples.

Lemma calculateBase_fold items : forall sub t n,
  Forall (fun item => Dec.on_grid 7 (lineTotal item)) items ->
  Dec.on_grid 7 sub -> Dec.on_grid 7 t -> Dec.on_grid 7 n ->
  sub == t + n ->
  Qabs t + Qabs n + sum_abs (List.map lineTotal items) < exact_below ->
  match fold_left
          (fun acc item =>
             match acc with
             | (sub, taxable, nonTaxable) =>
                 match classify item with
                 | Taxable =>
                     (Dec.plus sub (lineTotal item), Dec.plus taxable (lineTotal item),
                      nonTaxable)
                 | NonTaxable =>
                     (Dec.plus sub (lineTotal item), taxable,
                      Dec.plus nonTaxable (lineTotal item))
                 end
             end)
          items (sub, t, n) with
  | (sub', t', n') =>
      sub' == t' + n' /\ Dec.on_grid 7 sub' /\ Dec.on_grid 7 t' /\ Dec.on_grid 7 n'
  end.
Proof.
  unfold exact_below.
  induction items as [|i r IH]; intros sub t n H Gs Gt Gn E Hb; [simpl; auto|].
  inversion H as [|? ? Hi Hr]; subst.
  change (sum_abs (List.map lineTotal (i :: r)))
    with (Qabs (lineTotal i) + sum_abs (List.map lineTotal r)) in Hb.
  cbn [fold_left].
  pose proof (sum_abs_nonneg (List.map lineTotal r)) as Nr.
  pose proof (Qabs_nonneg t) as Nt.
  pose proof (Qabs_nonneg n) as Nn.
  pose proof (Qabs_nonneg (lineTotal i)) as Ni.
  pose proof (Qabs_triangle t n) as Ttn.
  pose proof (Qabs_triangle sub (lineTotal i)) as Ts.
  pose proof (Qabs_triangle t (lineTotal i)) as Tt.
  pose proof (Qabs_triangle n (lineTotal i)) as Tn.
  rewrite (Qabs_wd _ _ E) in Ts.
  assert (Es : Dec.plus sub (lineTotal i) == sub + lineTotal i)
    by (apply plus_exact; [exact Gs|exact Hi|lra]).
  destruct (classify i).
  - assert (Et : Dec.plus t (lineTotal i) == t + lineTotal i)
      by (apply plus_exact; [exact Gt|exact Hi|lra]).
    apply IH; try assumption.
    + eapply on_grid_comp; [symmetry; exact Es|apply on_grid_plus; assumption].
    + eapply on_grid_comp; [symmetry; exact Et|apply on_grid_plus; assumption].
    + rewrite Es, Et, E. ring.
    + rewrite (Qabs_wd _ _ Et). lra.
  - assert (En : Dec.plus n (lineTotal i) == n + lineTotal i)
      by (apply plus_exact; [exact Gn|exact Hi|lra]).
    apply IH; try assumption.
    + eapply on_grid_comp; [symmetry; exact Es|apply on_grid_plus; assumption].
    + eapply on_grid_comp; [symmetry; exact En|apply on_grid_plus; assumption].
    + rewrite Es, En, E. ring.
    + rewrite (Qabs_wd _ _ En). lra.
Qed.

(** X24. In [calculateBase] every line is counted in the subtotal and
    in exactly one of the taxable and the non-taxable subtotal: when
    every line total has at most 7 decimals and their magnitudes add up
    to less than 10^33, the subtotal is the sum of the other two. *)
Theorem taxable_and_non_taxable_add_up_to_the_subtotal items :
  Forall (fun item => Dec.on_grid 7 (lineTotal item)) items ->
  sum_abs (List.map lineTotal items) < exact_below ->
  let b := calculateBase items in
  subtotal b == taxableSubtotal b + nonTaxableSubtotal b.
Proof.
  intros H Hb. cbn zeta. unfold calculateBase.
  pose proof (calculateBase_fold items 0 0 0 H (on_grid_0 7) (on_grid_0 7) (on_grid_0 7)) as S.
  destruct (fold_left _ items (0, 0, 0)) as [[sub t] n].
  cbn [subtotal taxableSubtotal nonTaxableSubtotal].
  destruct S as (E & Gs & Gt & Gn).
  - ring.
  - change (Qabs 0) with 0. unfold exact_below in *. lra.
  - rewrite (Q7_on_grid _ Gs), (Q7_on_grid _ Gt), (Q7_on_grid _ Gn). exact E.
Qed.

Lemma taxable_and_non_taxable_add_up_to_the_subtotal_witness :
  subtotal (calculateBase C.tagged_lines)
  == taxableSubtotal (calculateBase C.tagged_lines)
     + nonTaxableSubtotal (calculateBase C.tagged_lines) /\
  subtotal (calculateBase C.tagged_lines) == 300.
Proof.
  split; [|vm_compute; reflexivity].
  apply (taxable_and_non_taxable_add_up_to_the_subtotal C.tagged_lines).
  - repeat constructor.
    + exists 1000000000%Z. vm_compute. reflexivity.
    + exists 2000000000%Z. vm_compute. reflexivity.
  - vm_compute. reflexivity.
Defined.

(** Without the bound the three figures part: a taxable line of 10^39
    and a non-taxable line of 0.40 give the subtotal 10^39, 0.40 less
    than the sum of the other two. *)
Example large_line_totals_do_not_add_up :
  let b := calculateBase
             [ C.line "a" (inject_Z (10 ^ 39)) 1 Absent (Some "TAXABLE"%string) false;
               C.line "b" (4 # 10) 1 Absent (Some "NON_TAXABLE"%string) false ] in
  taxableSubtotal b + nonTaxableSubtotal b - subtotal b == 4 # 10.
Proof. vm_compute. reflexivity. Qed.

End CompliantBase.

(** ** The precise values of a result *)

Section PreciseValues.

Import CalculationResult Statements Samples.

Lemma append_length a b :
  String.length (a +:+ b) = (String.length a + String.length b)%nat.
Proof.
  induction a as [|c a IH]; [reflexivity|].
  change (String c a +:+ b) with (String c (a +:+ b)). simpl. rewrite IH. reflexivity.
Qed.

Lemma zeros_length n : String.length (Dec.zeros n) = n.
Proof.
  induction n as [|n IH]; [reflexivity|].
  change (Dec.zeros (S n)) with (String "0" (Dec.zeros n)). simpl. rewrite IH. reflexivity.
Qed.

Lemma zeros_all_digits n : all_digits (Dec.zeros n) = true.
Proof.
  induction n as [|n IH]; [reflexivity|].
  change (Dec.zeros (S n)) with (String "0" (Dec.zeros n)). simpl. exact IH.
Qed.

Lemma all_digits_append a b :
  all_digits a = true -> all_digits b = true -> all_digits (a +:+ b) = true.
Proof.
  intros Ha Hb. induction a as [|c a IH]; [exact Hb|].
  change (String c a +:+ b) with (String c (a +:+ b)). simpl in *.
  apply andb_true_iff in Ha. destruct Ha as [Hc Ha]. rewrite Hc. apply IH, Ha.
Qed.

Lemma substring_0_length n : forall s,
  (n <= String.length s)%nat -> String.length (String.substring 0 n s) = n.
Proof.
  induction n as [|n IH]; intros s H.
  - destruct s; reflexivity.
  - destruct s as [|c s]; simpl in *; [lia|]. rewrite IH by lia. reflexivity.
Qed.

Lemma substring_0_all_digits n : forall s,
  all_digits s = true -> all_digits (String.substring 0 n s) = true.
Proof.
  induction n as [|n IH]; intros s H.
  - destruct s; reflexivity.
  - destruct s as [|c s]; simpl in *; [reflexivity|].
    apply andb_true_iff in H. destruct H as [Hc Hs]. rewrite Hc. apply IH, Hs.
Qed.

Lemma before_dot_no_dot s : includes_dot (before_dot s) = false.
Proof.
  induction s as [|c s IH]; [reflexivity|]. simpl.
  destruct (Ascii.eqb c ".") eqn:E; [reflexivity|]. simpl. rewrite E. exact IH.
Qed.

Lemma all_digits_no_dot s : all_digits s = true -> includes_dot s = false.
Proof.
  induction s as [|c s IH]; [reflexivity|]. simpl. intros H.
  apply andb_true_iff in H. destruct H as [Hc Hs]. rewrite (IH Hs), orb_false_r.
  destruct (Ascii.eqb_spec c "."%char) as [->|_]; [discriminate Hc|reflexivity].
Qed.

Lemma match_dot_digits_found head digits :
  includes_dot head = false ->
  all_digits digits = true ->
  digits <> EmptyString ->
  match_dot_digits (head +:+ "." +:+ digits) = Some ("." +:+ digits)%string.
Proof.
  intros Hh Hd Hne. induction head as [|c head IH].
  - change (EmptyString +:+ "." +:+ digits) with (String "." digits).
    simpl. rewrite Hd. destruct (String.eqb_spec digits EmptyString); [contradiction|].
    reflexivity.
  - simpl in Hh. apply orb_false_iff in Hh. destruct Hh as [Hc Hh].
    change (String c head +:+ "." +:+ digits) with (String c (head +:+ "." +:+ digits)).
    cbn [match_dot_digits]. rewrite Hc. cbn [andb]. apply IH, Hh.
Qed.

Lemma has_7_decimals_found head digits :
  includes_dot head = false ->
  all_digits digits = true ->
  String.length digits = 7%nat ->
  has_7_decimals (head +:+ "." +:+ digits) = true.
Proof.
  intros Hh Hd Hl. unfold has_7_decimals.
  rewrite match_dot_digits_found; auto.
  - change ("." +:+ digits) with (String "." digits). simpl. rewrite Hl. reflexivity.
  - intros ->. discriminate.
Qed.

Lemma before_dot_append head rest :
  includes_dot head = false -> before_dot (head +:+ "." +:+ rest) = head.
Proof.
  intros H. induction head as [|c head IH]; [reflexivity|].
  simpl in H. apply orb_false_iff in H. destruct H as [Hc Hh].
  change (String c head +:+ "." +:+ rest) with (String c (head +:+ "." +:+ rest)).
  simpl. rewrite Hc, IH by exact Hh. reflexivity.
Qed.

Lemma after_dot_append head rest :
  includes_dot head = false -> after_dot (head +:+ "." +:+ rest) = rest.
Proof.
  intros H. induction head as [|c head IH]; [reflexivity|].
  simpl in H. apply orb_false_iff in H. destruct H as [Hc Hh].
  change (String c head +:+ "." +:+ rest) with (String c (head +:+ "." +:+ rest)).
  simpl. rewrite Hc. apply IH, Hh.
Qed.

Lemma includes_dot_append head rest : includes_dot (head +:+ "." +:+ rest) = true.
Proof.
  induction head as [|c head IH]; [reflexivity|].
  change (String c head +:+ "." +:+ rest) with (String c (head +:+ "." +:+ rest)).
  simpl. rewrite IH. apply orb_true_r.
Qed.

Lemma before_dot_id s : includes_dot s = false -> before_dot s = s.
Proof.
  induction s as [|c s IH]; [reflexivity|]. simpl. intros H.
  apply orb_false_iff in H. destruct H as [Hc Hs]. rewrite Hc, IH by exact Hs. reflexivity.
Qed.

(** X26. The precise text that [setFinancialValue] stores passes the
    check of [validate] on the decimals of [grandTotalPrecise] whenever
    the text of the value has no dot, or only digits between its first
    dot and the next: it then ends in a dot and exactly 7 digits.  A
    value with more than 7 decimals is cut after the seventh, not
    rounded. *)
Theorem the_precise_value_has_7_decimals strValue :
  includes_dot strValue = false \/ all_digits (before_dot (after_dot strValue)) = true ->
  has_7_decimals (precise_of strValue) = true /\
  (forall head decimals,
     strValue = (head +:+ "." +:+ decimals)%string ->
     includes_dot head = false ->
     all_digits decimals = true ->
     (7 <= String.length decimals)%nat ->
     precise_of strValue = (head +:+ "." +:+ String.substring 0 7 decimals)%string).
Proof.
  intros H. split.
  - unfold precise_of. destruct (includes_dot strValue) eqn:E.
    + destruct H as [H|H]; [discriminate|]. cbn zeta.
      apply has_7_decimals_found.
      * apply before_dot_no_dot.
      * apply substring_0_all_digits, all_digits_append; [exact H|apply zeros_all_digits].
      * apply substring_0_length. unfold padEnd. rewrite append_length, zeros_length. lia.
    + apply has_7_decimals_found; [exact E|reflexivity|reflexivity].
  - intros head decimals -> Hh Hd Hl. unfold precise_of.
    rewrite includes_dot_append. cbn zeta.
    rewrite before_dot_append, after_dot_append by exact Hh.
    rewrite (before_dot_id decimals) by (apply all_digits_no_dot, Hd).
    unfold padEnd. replace (7 - String.length decimals)%nat with 0%nat by lia.
    change (Dec.zeros 0) with EmptyString.
    assert (E : decimals +:+ EmptyString = decimals).
    { clear. induction decimals as [|c d IH]; [reflexivity|].
      change (String c d +:+ EmptyString) with (String c (d +:+ EmptyString)).
      rewrite IH. reflexivity. }
    rewrite E. reflexivity.
Qed.

Lemma the_precise_value_has_7_decimals_witness :
  precise_of "12.5" = "12.5000000"%string /\
  has_7_decimals (precise_of "1.99999999") = true /\
  precise_of "1.99999999" = "1.9999999"%string.
Proof.
  split; [reflexivity|].
  destruct (the_precise_value_has_7_decimals "1.99999999" (or_intror eq_refl)) as [V T].
  split; [exact V|].
  apply (T "1" "99999999"%string); reflexivity || (simpl; lia).
Defined.

End PreciseValues.
